(** * Band indices over a Landsat raster stack

    A model of [calculate_band_indices] from the notebook
    [Landsat8_Level1_Level2_Comparison.ipynb]:

<<
    def calculate_band_indices(dc):
        dc['ndvi'] = (dc.nir - dc.red)/(dc.nir + dc.red)
        dc['ndwi'] = (dc.green - dc.nir)/(dc.green + dc.nir)
        dc['mndwi'] = (dc.green - dc.swir1)/(dc.nir + dc.swir1)
        return(dc)
>>

    [dc] is an xarray Dataset: a dictionary from layer names to arrays.
    The function mutates it in place, one assignment after the other, and
    a failing attribute access or array operation raises out of the
    function with the earlier assignments already done. *)

From Stdlib Require Import ZArith QArith Floats Lia Lqa.
From stdpp Require Import base option list strings gmap.

Set Warnings "-inexact-float".

(** ** Element types

    The Python code is written once for every array dtype: [-], [+] and
    [/] are numpy's elementwise operators.  [Dtype] is that interface. *)

Class Dtype (V : Type) := {
  vsub : V -> V -> V;
  vadd : V -> V -> V;
  vdiv : V -> V -> V
}.

(** IEEE 754 binary64, numpy's [float64]: the dtype of reflectance
    bands.  A division by zero is the IEEE one: it raises nothing and
    gives an infinity or a NaN. *)
#[export] Instance float64 : Dtype float := {|
  vsub := PrimFloat.sub;
  vadd := PrimFloat.add;
  vdiv := PrimFloat.div
|}.

(** Exact rational arithmetic: the formulas without rounding, overflow or
    special values.  It says nothing of a zero denominator and is only
    used where the denominators are nonzero. *)
#[export] Instance rational : Dtype Q := {|
  vsub := Qminus;
  vadd := Qplus;
  vdiv := Qdiv
|}.

(** ** Arrays and stacks *)

(** An array: its shape (the sizes along time, y, x, or along y, x) and
    its samples in row-major order.  A sample position is an index in
    [values]; it runs over the time slices too. *)
Record DataArray (V : Type) := mkArray {
  shape : list nat;
  values : list V
}.
Arguments mkArray {V} _ _.
Arguments shape {V} _.
Arguments values {V} _.

(** The literal [[[a; b]; [c; d]]] of a two-dimensional array. *)
Definition array2d {V} (rows : list (list V)) : DataArray V :=
  mkArray [length rows; length (hd [] rows)] (concat rows).

(** A stack: the data variables of the Dataset, by name. *)
Abbreviation Dataset V := (gmap string (DataArray V)).

Definition stack_of {V} (layers : list (string * DataArray V)) : Dataset V :=
  list_to_map layers.

(** ** Failures

    [MissingBand b] is the [AttributeError] of [dc.b] when the Dataset
    has no variable [b].  [ShapeMismatch] marks an elementwise operator
    on operands of different shapes, which this development does not
    evaluate (see [elementwise]). *)
Inductive error :=
  | MissingBand (band : string)
  | ShapeMismatch.

#[export] Instance error_eq_dec : EqDecision error.
Proof. solve_decision. Defined.

(** ** Statements on a mutable stack

    A computation takes the stack, returns the stack as it has left it
    and either a value or the exception it raised.  The stack survives
    an exception: the caller still holds the object. *)
Definition Py (S A : Type) : Type := S -> S * (error + A).

#[export] Instance Py_ret {S} : MRet (Py S) :=
  fun A (x : A) s => (s, inr x).

#[export] Instance Py_bind {S} : MBind (Py S) :=
  fun A B (f : A -> Py S B) (m : Py S A) s =>
    match m s with
    | (s', inr x) => f x s'
    | (s', inl e) => (s', inl e)
    end.

Definition raise {S A} (e : error) : Py S A := fun s => (s, inl e).

(** The object itself, as in [return(dc)]. *)
Definition self {S} : Py S S := fun s => (s, inr s).

(** ** The function *)

Section Program.
Context {V : Type} {D : Dtype V}.

(** [dc.name] *)
Definition getattr (name : string) : Py (Dataset V) (DataArray V) :=
  fun dc =>
    match dc !! name with
    | Some a => (dc, inr a)
    | None => (dc, inl (MissingBand name))
    end.

(** [dc[name] = a]: a new layer, or a new value for the layer [name]. *)
Definition setitem (name : string) (a : DataArray V) : Py (Dataset V) () :=
  fun dc => (<[name := a]> dc, inr ()).

(** [a op b] on arrays: sample by sample, on operands of one shape, as
    the bands of a loaded stack are.  Operands of different shapes lie
    on different dimensions and xarray broadcasts them; the arrays here
    carry no dimension names, so that case is not evaluated and is
    marked by [ShapeMismatch].  The statements on what the function
    attaches or reports are made for operands of one shape ([one_shape]
    below, or an explicit hypothesis). *)
Definition elementwise (op : V -> V -> V) (a b : DataArray V)
  : Py (Dataset V) (DataArray V) :=
  if decide (shape a = shape b)
  then mret (mkArray (shape a) (zip_with op (values a) (values b)))
  else raise ShapeMismatch.

(** [(dc.a - dc.b)/(dc.c + dc.d)], the form of the three right-hand
    sides, in Python's evaluation order: the numerator with its two
    attribute reads, then the denominator with its two, then the
    division. *)
Definition band_ratio (a b c d : string) : Py (Dataset V) (DataArray V) :=
  x ← getattr a;
  y ← getattr b;
  num ← elementwise vsub x y;
  z ← getattr c;
  w ← getattr d;
  den ← elementwise vadd z w;
  elementwise vdiv num den.

(** [dc[name] = (dc.a - dc.b)/(dc.c + dc.d)]: one index.  The [ndvi] and
    [ndwi] statements have [c = a] and [d = b], the normalised
    difference of two bands. *)
Definition assign_ratio (name a b c d : string) : Py (Dataset V) () :=
  r ← band_ratio a b c d;
  setitem name r.

Definition calculate_band_indices : Py (Dataset V) (Dataset V) :=
  assign_ratio "ndvi" "nir" "red" "nir" "red" ;;
  assign_ratio "ndwi" "green" "nir" "green" "nir" ;;
  assign_ratio "mndwi" "green" "swir1" "nir" "swir1" ;;
  self.

End Program.

(** ** Describing a run *)

Definition index_names : list string := ["ndvi"; "ndwi"; "mndwi"].
Definition band_names : list string := ["nir"; "red"; "green"; "swir1"].

Section Describing.
Context {V : Type} {D : Dtype V}.

(** The samples of [(x - y)/(z + w)]. *)
Definition ratio_values (x y z w : DataArray V) : list V :=
  zip_with vdiv (zip_with vsub (values x) (values y))
                (zip_with vadd (values z) (values w)).

Definition ratio_array (x y z w : DataArray V) : DataArray V :=
  mkArray (shape x) (ratio_values x y z w).

(** The first exception of [dc.a - dc.b], if any: the attribute reads
    come first, left to right, then the subtraction. *)
Definition first_error (dc : Dataset V) (a b : string) : option error :=
  match dc !! a, dc !! b with
  | None, _ => Some (MissingBand a)
  | Some _, None => Some (MissingBand b)
  | Some x, Some y =>
      if decide (shape x = shape y) then None else Some ShapeMismatch
  end.

(** The bands that the function reads and the stack holds share one
    shape: the stacks on which [elementwise] is the operator of the
    source. *)
Definition one_shape (dc : Dataset V) : Prop :=
  forall a b x y, a ∈ band_names -> b ∈ band_names ->
    dc !! a = Some x -> dc !! b = Some y -> shape x = shape y.

(** The stack lacks a band that the function reads. *)
Definition lacks_band (dc : Dataset V) : Prop :=
  exists b, b ∈ band_names /\ dc !! b = None.

(** The stack after a complete run on bands [n], [r], [g], [s]. *)
Definition with_indices (dc : Dataset V) (n r g s : DataArray V) : Dataset V :=
  <["mndwi" := ratio_array g s n s]>
    (<["ndwi" := ratio_array g n g n]>
       (<["ndvi" := ratio_array n r n r]> dc)).

(** Two stacks with the same four input bands. *)
Definition same_bands (dc1 dc2 : Dataset V) : Prop :=
  forall b, b ∈ band_names -> dc1 !! b = dc2 !! b.

(** *** Requirements that the function does not meet as they are worded *)

(** A failed call reports a missing band and has attached none of the
    three layers. *)
Definition attaches_nothing_on_failure (dc : Dataset V) : Prop :=
  forall dc' e, calculate_band_indices dc = (dc', inl e) ->
    (exists b, e = MissingBand b) /\
    dc' !! "ndvi" = None /\ dc' !! "ndwi" = None /\ dc' !! "mndwi" = None.

(** A failure is reported before any index has been computed: the stack
    the caller gets back holds no new value. *)
Definition reports_before_computing (dc : Dataset V) : Prop :=
  forall dc' e, calculate_band_indices dc = (dc', inl e) -> dc' = dc.


End Describing.

(** Samples in [[-1, 1]], for exact and for binary64 values. *)
Definition in_unit_range (v : Q) : Prop := (-1 <= v /\ v <= 1)%Q.

Definition in_unit_range_f (v : float) : bool :=
  (PrimFloat.leb (-1) v && PrimFloat.leb v 1)%float.

(** The sum of the two bands is nonzero at every sample. *)
Definition nonzero_sum (x y : DataArray Q) : Prop :=
  forall i xi yi, values x !! i = Some xi -> values y !! i = Some yi ->
    ~ (xi + yi == 0)%Q.

Definition nonnegative (x : DataArray Q) : Prop :=
  forall i xi, values x !! i = Some xi -> (0 <= xi)%Q.

(** [(a - b)/(a + b)] stays in [[-1, 1]] as soon as the sums are nonzero:
    not met as it is worded. *)
Definition ratio_in_unit_range (dc : Dataset Q) (name a b : string) : Prop :=
  forall x y, dc !! a = Some x -> dc !! b = Some y -> shape x = shape y ->
    nonzero_sum x y ->
    exists r, (assign_ratio name a b a b dc).1 !! name = Some r /\
              forall v, v ∈ values r -> in_unit_range v.

(** A binary64 sample is zero ([+0] or [-0]). *)
Definition is_zero_f (v : float) : bool := PrimFloat.eqb v 0%float.

(** A binary64 sample is an infinity or not-a-number. *)
Definition is_inf_or_nan (v : float) : bool := is_nan v || is_infinity v.

(** As soon as [green] and [nir] have one shape the call attaches
    [ndwi], which is zero wherever the two are equal with a nonzero sum:
    not met as it is worded. *)
Definition ndwi_zero_where_equal (dc : Dataset float) : Prop :=
  forall g n, dc !! "green" = Some g -> dc !! "nir" = Some n ->
    shape g = shape n ->
    exists ndwi,
      (calculate_band_indices dc).1 !! "ndwi" = Some ndwi /\
      forall i gi ni,
        values g !! i = Some gi -> values n !! i = Some ni ->
        PrimFloat.eqb gi ni = true -> is_zero_f (gi + ni)%float = false ->
        exists v, values ndwi !! i = Some v /\ is_zero_f v = true.

(** ** Binary64 numbers, for the rounding facts *)

(** A shifted significand that has lost no bit. *)
Definition exact_rec (mrs : shr_record) : Prop :=
  shr_r mrs = false /\ shr_s mrs = false.

(** [mrs'] is [mrs] shifted right by [k] bits. *)
Definition shifted (k : Z) (mrs mrs' : shr_record) : Prop :=
  (shr_m mrs' = shr_m mrs / 2 ^ k /\
   (exact_rec mrs -> shr_m mrs mod 2 ^ k = 0 -> exact_rec mrs'))%Z.

(** The order of significand and exponent pairs: on the numbers of the
    format it is the order of their values. *)
Definition lex_le (m1 : positive) (e1 : Z) (m2 : positive) (e2 : Z) : Prop :=
  (e1 < e2 \/ (e1 = e2 /\ Z.pos m1 <= Z.pos m2))%Z.

(** [1.0] and [-1.0]. *)
Definition SF_one : spec_float := S754_finite false 4503599627370496 (-52).

Definition SF_minus_one : spec_float := S754_finite true 4503599627370496 (-52).

(** Zero or a positive finite number. *)
Definition nonneg_finite (x : spec_float) : Prop :=
  match x with
  | S754_zero _ => True
  | S754_finite false _ _ => True
  | _ => False
  end.

(** The samples of a binary64 band are finite and not negative. *)
Definition nonnegative_f (x : DataArray float) : Prop :=
  forall i xi, values x !! i = Some xi ->
    PrimFloat.leb 0 xi = true /\ is_infinity xi = false.

(** The binary64 sum of two bands is nonzero at every sample. *)
Definition nonzero_sum_f (x y : DataArray float) : Prop :=
  forall i xi yi, values x !! i = Some xi -> values y !! i = Some yi ->
    is_zero_f (xi + yi) = false.

(** The range requirement on binary64 bands: not met as it is worded. *)
Definition ratio_in_unit_range_f (dc : Dataset float) (name a b : string)
  : Prop :=
  forall x y, dc !! a = Some x -> dc !! b = Some y -> shape x = shape y ->
    nonzero_sum_f x y ->
    exists r, (assign_ratio name a b a b dc).1 !! name = Some r /\
              forall v, v ∈ values r -> in_unit_range_f v = true.

(** ** The cells that call the function and compare its layers

<<
    dc_level1 = calculate_band_indices(data_cube_level1)
    dc_level2 = calculate_band_indices(data_cube_level2)

    dc_level1_plotindex = 4
    dc_level2_plotindex = 3

    ndvi_diff = dc_level2.ndvi.isel(time=dc_level2_plotindex)
                - dc_level1.ndvi.isel(time=dc_level1_plotindex)

    ndwi_diff = dc_level2.ndwi.isel(time=dc_level2_plotindex)
                - dc_level1.ndwi.isel(time=dc_level1_plotindex)

    mndwi_diff = dc_level2.mndwi.isel(time=dc_level2_plotindex)
                 - dc_level1.mndwi.isel(time=dc_level1_plotindex)
    filtered_mndwi_diff = mndwi_diff.where(mndwi_diff > -2)
>>

    The differences are expressions: they read the two cubes and change
    neither. *)

(** The two Datasets that the notebook loads, one per processing level:
    two distinct objects. *)
Record Cubes (V : Type) := mkCubes {
  data_cube_level1 : Dataset V;
  data_cube_level2 : Dataset V
}.
Arguments mkCubes {V} _ _.
Arguments data_cube_level1 {V} _.
Arguments data_cube_level2 {V} _.

(** Exceptions of the comparison cells: those of the function, the
    [ValueError] of [isel] on an array without the dimension, and the
    [IndexError] of [isel] with an index out of the dimension. *)
Inductive cell_error :=
  | Raised (e : error)
  | MissingDimension (dim : string)
  | IndexError.

(** An expression of a cell: its value, or the exception it raised. *)
Definition Res (A : Type) : Type := cell_error + A.

#[export] Instance Res_ret : MRet Res := fun A (x : A) => inr x.

#[export] Instance Res_bind : MBind Res :=
  fun A B (f : A -> Res B) (m : Res A) =>
    match m with
    | inr x => f x
    | inl e => inl e
    end.

(** The number of samples of an array of shape [s]. *)
Definition sample_count (s : list nat) : nat := foldr Nat.mul 1%nat s.

(** The samples of an array are as many as its shape says. *)
Definition well_formed {V} (a : DataArray V) : Prop :=
  length (values a) = sample_count (shape a).

Section Cells.
Context {V : Type} {D : Dtype V}.

(** A statement on the level-1 cube, and on the level-2 cube. *)
Definition on_level1 {A} (m : Py (Dataset V) A) : Py (Cubes V) A :=
  fun k =>
    (mkCubes (m (data_cube_level1 k)).1 (data_cube_level2 k),
     (m (data_cube_level1 k)).2).

Definition on_level2 {A} (m : Py (Dataset V) A) : Py (Cubes V) A :=
  fun k =>
    (mkCubes (data_cube_level1 k) (m (data_cube_level2 k)).1,
     (m (data_cube_level2 k)).2).

(** The cell of the two calls: an exception of the first call ends the
    cell.  Its value is what the names [dc_level1] and [dc_level2] are
    bound to: each call returns the cube it was given ([self]), and
    nothing changes that cube afterwards. *)
Definition calculate_both_levels : Py (Cubes V) (Dataset V * Dataset V) :=
  dc_level1 ← on_level1 calculate_band_indices;
  dc_level2 ← on_level2 calculate_band_indices;
  mret (dc_level1, dc_level2).

(** An expression that reads the stack [dc] and leaves it as it is. *)
Definition reading {A} (m : Py (Dataset V) A) (dc : Dataset V) : Res A :=
  match (m dc).2 with
  | inr x => inr x
  | inl e => inl (Raised e)
  end.

(** [a.isel(time=k)]: the time slice [k] of an array with the axes
    (time, y, x), the layout of every array of a loaded cube; an array
    of another rank has no time axis.  A negative [k] counts from the
    last slice, and a [k] out of [[-t, t)] is an [IndexError].  The
    slice has the axes (y, x). *)
Definition isel_time (k : Z) (a : DataArray V) : Res (DataArray V) :=
  match shape a with
  | [t; h; w] =>
      if decide (- Z.of_nat t <= k < Z.of_nat t)%Z
      then
        let i := Z.to_nat (if decide (k < 0)%Z then k + Z.of_nat t else k) in
        mret (mkArray [h; w]
                (take (h * w) (drop (i * (h * w)) (values a))))
      else inl IndexError
  | _ => inl (MissingDimension "time")
  end.

(** [a - b] on two slices.  An operator on arrays involves no stack: it
    is evaluated beside the empty one.  The notebook loads the two cubes
    with one query (extent, projection, resolution), on one grid: the
    slices have one shape and the same coordinates, and xarray, which
    aligns its operands on their coordinates, subtracts them position by
    position.  Slices of different shapes are not evaluated
    ([elementwise]). *)
Definition array_minus (a b : DataArray V) : Res (DataArray V) :=
  reading (elementwise vsub a b) ∅.

(** [dc_level2.name.isel(time=k2) - dc_level1.name.isel(time=k1)], left
    operand first. *)
Definition index_difference (name : string) (dc_level2 dc_level1 : Dataset V)
    (k2 k1 : Z) : Res (DataArray V) :=
  a2 ← reading (getattr name) dc_level2;
  s2 ← isel_time k2 a2;
  a1 ← reading (getattr name) dc_level1;
  s1 ← isel_time k1 a1;
  array_minus s2 s1.

End Cells.

Definition dc_level1_plotindex : Z := 4.
Definition dc_level2_plotindex : Z := 3.

Section Differences.
Context {V : Type} {D : Dtype V}.

Definition ndvi_diff (dc_level2 dc_level1 : Dataset V) : Res (DataArray V) :=
  index_difference "ndvi" dc_level2 dc_level1
    dc_level2_plotindex dc_level1_plotindex.

Definition ndwi_diff (dc_level2 dc_level1 : Dataset V) : Res (DataArray V) :=
  index_difference "ndwi" dc_level2 dc_level1
    dc_level2_plotindex dc_level1_plotindex.

Definition mndwi_diff (dc_level2 dc_level1 : Dataset V) : Res (DataArray V) :=
  index_difference "mndwi" dc_level2 dc_level1
    dc_level2_plotindex dc_level1_plotindex.

End Differences.

(** [a > c] for a number [c]: the array of the comparisons. *)
Definition array_gt (a : DataArray float) (c : float) : DataArray bool :=
  mkArray (shape a) ((fun v => PrimFloat.ltb c v) <$> values a).

(** [a.where(cond)]: the samples of [a] where [cond] holds, NaN
    elsewhere. *)
Definition where_ (a : DataArray float) (cond : DataArray bool)
  : Res (DataArray float) :=
  if decide (shape a = shape cond)
  then mret (mkArray (shape a)
               (zip_with (fun v (c : bool) => if c then v else nan)
                  (values a) (values cond)))
  else inl (Raised ShapeMismatch).

(** [mndwi_diff.where(mndwi_diff > -2)] *)
Definition filtered_mndwi_diff (mndwi_diff : DataArray float)
  : Res (DataArray float) :=
  where_ mndwi_diff (array_gt mndwi_diff (-2)%float).

(** The index [k] selects a slice among [t]. *)
Definition in_time (k : Z) (t : nat) : Prop :=
  (- Z.of_nat t <= k < Z.of_nat t)%Z.

(** The slice it selects: [k] itself, or [k + t] for a negative [k]. *)
Definition time_step (k : Z) (t : nat) : nat :=
  Z.to_nat (k mod Z.of_nat t).

(** The four bands of a stack, with one shape. *)
Definition has_bands {V} (dc : Dataset V) (n r g s : DataArray V) : Prop :=
  dc !! "nir" = Some n /\ dc !! "red" = Some r /\
  dc !! "green" = Some g /\ dc !! "swir1" = Some s /\
  shape r = shape n /\ shape g = shape n /\ shape s = shape n.

(** Every sample multiplied by [c]: the same measurements in another
    unit. *)
Definition scaled (c : Q) (a : DataArray Q) : DataArray Q :=
  mkArray (shape a) (Qmult c <$> values a).

Definition scaled_stack (c : Q) (dc : Dataset Q) : Dataset Q :=
  scaled c <$> dc.

(** Samples in [[-2, 2]], the range of a difference of two indices. *)
Definition in_double_range_f (v : float) : bool :=
  (PrimFloat.leb (-2) v && PrimFloat.leb v 2)%float.

(** [2.0] and [-2.0]. *)
Definition SF_two : spec_float := S754_finite false 4503599627370496 (-51).

Definition SF_minus_two : spec_float := S754_finite true 4503599627370496 (-51).

(** ** Stacks of the scenarios *)

Local Open Scope float_scope.

(** [nir=[[0.5]], red=[[0.1]]] *)
Definition ndvi_stack : Dataset float :=
  stack_of [("nir", array2d [[0.5]]); ("red", array2d [[0.1]])].

(** [green=[[0.2]], nir=[[0.2]]] *)
Definition ndwi_stack : Dataset float :=
  stack_of [("green", array2d [[0.2]]); ("nir", array2d [[0.2]])].

(** The five measurements the notebook loads, on a 2 x 2 grid.  The last
    sample of [nir + red] is zero. *)
Definition full_stack : Dataset float :=
  stack_of [("nir", array2d [[0.5; 0.4]; [0.3; 0.2]]);
            ("red", array2d [[0.1; 0.2]; [0.3; -0.2]]);
            ("swir1", array2d [[0.3; 0.1]; [0.2; 0.1]]);
            ("green", array2d [[0.5; 0.2]; [0.1; 0.3]]);
            ("blue", array2d [[0.1; 0.1]; [0.1; 0.1]])].

(** Two time slices of a 1 x 2 grid. *)
Definition timed_stack : Dataset float :=
  stack_of [("nir", mkArray [2; 1; 2]%nat [0.5; 0.4; 0.3; 0.2]);
            ("red", mkArray [2; 1; 2]%nat [0.1; 0.2; 0.3; 0.1])].

(** The full stack without [swir1]. *)
Definition stack_without_swir1 : Dataset float := delete "swir1" full_stack.

(** The full stack with another [blue] and a layer of the caller's own. *)
Definition other_stack : Dataset float :=
  <["blue" := array2d [[0.9; 0.8]; [0.7; 0.6]]]>
    (<["mask" := array2d [[1; 0]; [0; 1]]]> full_stack).


(** [nir=[[1.0]], red=[[-0.5]]] *)
Definition negative_red_stack_f : Dataset float :=
  stack_of [("nir", array2d [[1]]); ("red", array2d [[-0.5]])].

(** [green=[[0.2]], nir=[[0.2]]] with a [red] band. *)
Definition ndwi_stack_with_red : Dataset float :=
  <["red" := array2d [[0.1]]]> ndwi_stack.

(** [green] and [nir] equal and infinite, with a [red] band. *)
Definition infinite_stack : Dataset float :=
  stack_of [("green", array2d [[infinity]]); ("nir", array2d [[infinity]]);
            ("red", array2d [[0.1]])].

Local Close Scope float_scope.

(** Exact samples: [nir=[[1]], red=[[-1/2]]]. *)
Definition negative_red_stack : Dataset Q :=
  stack_of [("nir", array2d [[1%Q]]); ("red", array2d [[(-1 # 2)%Q]])].

(** Exact samples on a 1 x 2 grid. *)
Definition exact_stack : Dataset Q :=
  stack_of [("nir", array2d [[(1 # 2)%Q; (1 # 5)%Q]]);
            ("red", array2d [[(1 # 10)%Q; (1 # 5)%Q]]);
            ("green", array2d [[(1 # 5)%Q; (1 # 5)%Q]]);
            ("swir1", array2d [[(3 # 10)%Q; (1 # 10)%Q]])].

Local Open Scope float_scope.

(** The level-1 cube: five time slices of a 1 x 2 grid. *)
Definition level1_cube : Dataset float :=
  stack_of
    [("nir", mkArray [5; 1; 2]%nat
               [0.5; 0.4; 0.3; 0.2; 0.6; 0.5; 0.4; 0.3; 0.7; 0.6]);
     ("red", mkArray [5; 1; 2]%nat
               [0.1; 0.2; 0.3; 0.1; 0.2; 0.1; 0.3; 0.2; 0.1; 0.3]);
     ("swir1", mkArray [5; 1; 2]%nat
                 [0.3; 0.1; 0.2; 0.1; 0.2; 0.2; 0.1; 0.3; 0.2; 0.1]);
     ("green", mkArray [5; 1; 2]%nat
                 [0.5; 0.2; 0.1; 0.3; 0.4; 0.2; 0.3; 0.1; 0.2; 0.4]);
     ("blue", mkArray [5; 1; 2]%nat
                [0.1; 0.1; 0.1; 0.1; 0.1; 0.1; 0.1; 0.1; 0.1; 0.1])].

(** The level-2 cube: four time slices of the same grid. *)
Definition level2_cube : Dataset float :=
  stack_of
    [("nir", mkArray [4; 1; 2]%nat
               [0.45; 0.35; 0.25; 0.15; 0.55; 0.45; 0.35; 0.25]);
     ("red", mkArray [4; 1; 2]%nat
               [0.05; 0.15; 0.25; 0.05; 0.15; 0.05; 0.25; 0.15]);
     ("swir1", mkArray [4; 1; 2]%nat
                 [0.25; 0.05; 0.15; 0.05; 0.15; 0.15; 0.05; 0.25]);
     ("green", mkArray [4; 1; 2]%nat
                 [0.45; 0.15; 0.05; 0.25; 0.35; 0.15; 0.25; 0.05]);
     ("blue", mkArray [4; 1; 2]%nat
                [0.1; 0.1; 0.1; 0.1; 0.1; 0.1; 0.1; 0.1])].

Definition loaded_cubes : Cubes float := mkCubes level1_cube level2_cube.

(** The level-1 cube without [swir1], beside the level-2 cube. *)
Definition cubes_without_swir1 : Cubes float :=
  mkCubes (delete "swir1" level1_cube) level2_cube.

(** The full stack with a sample of [nir] that is not a number. *)
Definition masked_stack : Dataset float :=
  <["nir" := array2d [[nan; 0.4]; [0.3; 0.2]]]> full_stack.

Local Close Scope float_scope.

(** ** Tactics *)

(** Reads a layer through the insertions of the assignments. *)
Ltac read_layer :=
  repeat first [ rewrite lookup_insert_eq
               | rewrite lookup_insert_ne by done ].

(** Goes through the samples of a literal array. *)
Ltac each_sample :=
  intros;
  repeat match goal with
         | H : _ !! ?i = Some _ |- _ =>
             is_var i; destruct i; simpl in *; simplify_eq
         | H : [] !! _ = Some _ |- _ => inversion H
         end.

(** Membership in a literal list of names. *)
Ltac names_in H :=
  apply list_elem_of_In in H; simpl in H.

(** ** How the statements run *)

Section Running.
Context {V : Type} {D : Dtype V}.
Implicit Types (dc : Dataset V) (x y z w : DataArray V).

Ltac run_py :=
  unfold assign_ratio, band_ratio, setitem, getattr, elementwise, self, raise,
    mbind, mret, Py_bind, Py_ret in *.

(** Evaluating the right-hand side never touches the stack. *)
Lemma band_ratio_reads_only a b c d dc :
  (band_ratio a b c d dc).1 = dc.
Proof.
  run_py.
  repeat (first [ case_match | case_decide ]; simplify_eq/=; try done).
Qed.

(** It only looks at the bands it names. *)
Lemma band_ratio_reads_bands a b c d dc1 dc2 :
  dc1 !! a = dc2 !! a -> dc1 !! b = dc2 !! b ->
  dc1 !! c = dc2 !! c -> dc1 !! d = dc2 !! d ->
  (band_ratio a b c d dc1).2 = (band_ratio a b c d dc2).2.
Proof.
  intros Ha Hb Hc Hd. run_py.
  rewrite Ha. destruct (dc2 !! a) as [x|]; simpl; [|done].
  rewrite Hb. destruct (dc2 !! b) as [y|]; simpl; [|done].
  case_decide; simpl; [|done].
  rewrite Hc. destruct (dc2 !! c) as [z|]; simpl; [|done].
  rewrite Hd. destruct (dc2 !! d) as [w|]; simpl; [|done].
  case_decide; simpl; [|done].
  by case_decide.
Qed.

Lemma band_ratio_ok a b c d dc x y z w :
  dc !! a = Some x -> dc !! b = Some y ->
  dc !! c = Some z -> dc !! d = Some w ->
  shape x = shape y -> shape z = shape w -> shape x = shape z ->
  band_ratio a b c d dc = (dc, inr (ratio_array x y z w)).
Proof.
  intros Ha Hb Hc Hd Hxy Hzw Hxz. run_py.
  rewrite Ha, Hb. rewrite decide_True by done. cbn.
  rewrite Hc, Hd. rewrite decide_True by done. cbn.
  rewrite decide_True by done. reflexivity.
Qed.

Lemma band_ratio_missing_fst a b c d dc :
  dc !! a = None -> band_ratio a b c d dc = (dc, inl (MissingBand a)).
Proof. intros Ha. run_py. by rewrite Ha. Qed.

Lemma band_ratio_missing_snd a b c d dc x :
  dc !! a = Some x -> dc !! b = None ->
  band_ratio a b c d dc = (dc, inl (MissingBand b)).
Proof. intros Ha Hb. run_py. by rewrite Ha, Hb. Qed.

Lemma band_ratio_mismatch a b c d dc x y :
  dc !! a = Some x -> dc !! b = Some y -> shape x <> shape y ->
  band_ratio a b c d dc = (dc, inl ShapeMismatch).
Proof. intros Ha Hb Hxy. run_py. rewrite Ha, Hb. by rewrite decide_False. Qed.

(** An exception of the right-hand side is one of its four reads, on a
    band the stack lacks, or a shape mismatch. *)
Lemma band_ratio_error_kind a b c d dc dc' e :
  band_ratio a b c d dc = (dc', inl e) ->
  e = ShapeMismatch \/
  exists k, k ∈ [a; b; c; d] /\ dc !! k = None /\ e = MissingBand k.
Proof.
  run_py. intros Hf.
  destruct (dc !! a) eqn:Ha; simplify_eq/=;
    [|right; exists a; set_solver].
  destruct (dc !! b) eqn:Hb; simplify_eq/=;
    [|right; exists b; set_solver].
  case_decide; simplify_eq/=; [|by left].
  destruct (dc !! c) eqn:Hc; simplify_eq/=;
    [|right; exists c; set_solver].
  destruct (dc !! d) eqn:Hd; simplify_eq/=;
    [|right; exists d; set_solver].
  case_decide; simplify_eq/=; [|by left].
  case_decide; simplify_eq/=. by left.
Qed.

Lemma assign_ratio_ok name a b c d dc x y z w :
  dc !! a = Some x -> dc !! b = Some y ->
  dc !! c = Some z -> dc !! d = Some w ->
  shape x = shape y -> shape z = shape w -> shape x = shape z ->
  assign_ratio name a b c d dc = (<[name := ratio_array x y z w]> dc, inr ()).
Proof.
  intros. unfold assign_ratio, mbind, Py_bind.
  by erewrite band_ratio_ok.
Qed.

Lemma assign_ratio_raise name a b c d dc e :
  band_ratio a b c d dc = (dc, inl e) ->
  assign_ratio name a b c d dc = (dc, inl e).
Proof. intros Hr. unfold assign_ratio, mbind, Py_bind. by rewrite Hr. Qed.

(** A failing assignment leaves the stack as it found it. *)
Lemma assign_ratio_fails_unchanged name a b c d dc dc' e :
  assign_ratio name a b c d dc = (dc', inl e) -> dc' = dc.
Proof.
  unfold assign_ratio, mbind, Py_bind.
  pose proof (band_ratio_reads_only a b c d dc) as Hfst.
  destruct (band_ratio a b c d dc) as [s [e'|r]]; simpl in *.
  - congruence.
  - unfold setitem. congruence.
Qed.

(** An assignment whose name is none of the bands it reads can be
    repeated. *)
Lemma assign_ratio_twice name a b c d dc :
  name ∉ [a; b; c; d] ->
  assign_ratio name a b c d (assign_ratio name a b c d dc).1
  = assign_ratio name a b c d dc.
Proof.
  intros Hname.
  assert (name <> a /\ name <> b /\ name <> c /\ name <> d)
    as (Hna & Hnb & Hnc & Hnd).
  { rewrite !not_elem_of_cons in Hname. tauto. }
  unfold assign_ratio, mbind, Py_bind.
  pose proof (band_ratio_reads_only a b c d dc) as Hfst.
  destruct (band_ratio a b c d dc) as [s [e|r]] eqn:Hr;
    simpl in Hfst; subst s; simpl.
  - by rewrite Hr.
  - unfold setitem at 2. simpl.
    pose proof (band_ratio_reads_only a b c d (<[name:=r]> dc)) as Hfst'.
    pose proof (band_ratio_reads_bands a b c d (<[name:=r]> dc) dc) as Hsnd.
    rewrite Hr in Hsnd. simpl in Hsnd.
    destruct (band_ratio a b c d (<[name:=r]> dc)) as [s' out].
    simpl in *. subst s'.
    rewrite Hsnd by (by rewrite lookup_insert_ne).
    unfold setitem. by rewrite insert_insert_eq.
Qed.

Lemma first_error_raises a b dc e :
  first_error dc a b = Some e ->
  forall c d, band_ratio a b c d dc = (dc, inl e).
Proof.
  unfold first_error. intros He c d.
  destruct (dc !! a) as [x|] eqn:Ha.
  - destruct (dc !! b) as [y|] eqn:Hb.
    + case_decide; simplify_eq. by eapply band_ratio_mismatch.
    + simplify_eq. by eapply band_ratio_missing_snd.
  - simplify_eq. by apply band_ratio_missing_fst.
Qed.

Lemma first_error_none a b dc :
  first_error dc a b = None ->
  exists x y, dc !! a = Some x /\ dc !! b = Some y /\ shape x = shape y.
Proof.
  unfold first_error. intros He.
  destruct (dc !! a) as [x|]; [|done].
  destruct (dc !! b) as [y|]; [|done].
  case_decide; [|done]. by exists x, y.
Qed.

Lemma first_error_insert name v a b dc :
  name <> a -> name <> b ->
  first_error (<[name := v]> dc) a b = first_error dc a b.
Proof. intros. unfold first_error. by rewrite !lookup_insert_ne by done. Qed.

Lemma first_error_reads_bands a b dc1 dc2 :
  dc1 !! a = dc2 !! a -> dc1 !! b = dc2 !! b ->
  first_error dc1 a b = first_error dc2 a b.
Proof. intros Ha Hb. unfold first_error. by rewrite Ha, Hb. Qed.

(** *** The whole function, by the statement it stops at *)

Lemma run_fails_at_ndvi dc e :
  first_error dc "nir" "red" = Some e ->
  calculate_band_indices dc = (dc, inl e).
Proof.
  intros He. unfold calculate_band_indices, mbind, Py_bind at 1.
  by rewrite (assign_ratio_raise _ _ _ _ _ _ e) by by apply first_error_raises.
Qed.

Lemma run_fails_at_ndwi dc n r e :
  dc !! "nir" = Some n -> dc !! "red" = Some r -> shape n = shape r ->
  first_error dc "green" "nir" = Some e ->
  calculate_band_indices dc = (<["ndvi" := ratio_array n r n r]> dc, inl e).
Proof.
  intros Hn Hr Hnr He. unfold calculate_band_indices, mbind, Py_bind at 1.
  rewrite (assign_ratio_ok _ _ _ _ _ _ n r n r) by done.
  unfold Py_bind at 1.
  rewrite (assign_ratio_raise _ _ _ _ _ _ e); [done|].
  apply first_error_raises. by rewrite first_error_insert.
Qed.

Lemma run_fails_at_mndwi dc n r g e :
  dc !! "nir" = Some n -> dc !! "red" = Some r -> dc !! "green" = Some g ->
  shape n = shape r -> shape g = shape n ->
  first_error dc "green" "swir1" = Some e ->
  calculate_band_indices dc =
    (<["ndwi" := ratio_array g n g n]> (<["ndvi" := ratio_array n r n r]> dc),
     inl e).
Proof.
  intros Hn Hr Hg Hnr Hgn He. unfold calculate_band_indices, mbind, Py_bind at 1.
  rewrite (assign_ratio_ok _ _ _ _ _ _ n r n r) by done.
  unfold Py_bind at 1.
  rewrite (assign_ratio_ok _ _ _ _ _ _ g n g n) by (by read_layer).
  unfold Py_bind at 1.
  rewrite (assign_ratio_raise _ _ _ _ _ _ e); [done|].
  apply first_error_raises. by rewrite !first_error_insert.
Qed.

Lemma run_ok dc n r g s :
  dc !! "nir" = Some n -> dc !! "red" = Some r ->
  dc !! "green" = Some g -> dc !! "swir1" = Some s ->
  shape r = shape n -> shape g = shape n -> shape s = shape n ->
  calculate_band_indices dc =
    (with_indices dc n r g s, inr (with_indices dc n r g s)).
Proof.
  intros Hn Hr Hg Hs Hrn Hgn Hsn.
  unfold calculate_band_indices, mbind, Py_bind at 1.
  rewrite (assign_ratio_ok _ _ _ _ _ _ n r n r) by done.
  unfold Py_bind at 1.
  rewrite (assign_ratio_ok _ _ _ _ _ _ g n g n) by (by read_layer).
  unfold Py_bind at 1.
  rewrite (assign_ratio_ok _ _ _ _ _ _ g s n s)
    by (read_layer; congruence).
  reflexivity.
Qed.

(** Every run is one of these four. *)
Lemma run_cases dc :
  (exists e,
     first_error dc "nir" "red" = Some e /\
     calculate_band_indices dc = (dc, inl e)) \/
  (exists n r e,
     dc !! "nir" = Some n /\ dc !! "red" = Some r /\ shape n = shape r /\
     first_error dc "green" "nir" = Some e /\
     calculate_band_indices dc =
       (<["ndvi" := ratio_array n r n r]> dc, inl e)) \/
  (exists n r g e,
     dc !! "nir" = Some n /\ dc !! "red" = Some r /\ dc !! "green" = Some g /\
     shape n = shape r /\ shape g = shape n /\
     first_error dc "green" "swir1" = Some e /\
     calculate_band_indices dc =
       (<["ndwi" := ratio_array g n g n]>
          (<["ndvi" := ratio_array n r n r]> dc), inl e)) \/
  (exists n r g s,
     dc !! "nir" = Some n /\ dc !! "red" = Some r /\
     dc !! "green" = Some g /\ dc !! "swir1" = Some s /\
     shape r = shape n /\ shape g = shape n /\ shape s = shape n /\
     calculate_band_indices dc =
       (with_indices dc n r g s, inr (with_indices dc n r g s))).
Proof.
  destruct (first_error dc "nir" "red") as [e|] eqn:E1.
  { left. exists e. split; [done|]. by apply run_fails_at_ndvi. }
  apply first_error_none in E1 as (n & r & Hn & Hr & Hnr).
  right.
  destruct (first_error dc "green" "nir") as [e|] eqn:E2.
  { left. exists n, r, e. repeat split; try done. by apply run_fails_at_ndwi. }
  apply first_error_none in E2 as (g & n' & Hg & Hn' & Hgn). simplify_eq.
  right.
  destruct (first_error dc "green" "swir1") as [e|] eqn:E3.
  { left. exists n, r, g, e. repeat split; try done.
    by apply run_fails_at_mndwi. }
  apply first_error_none in E3 as (g' & s & Hg' & Hs & Hgs). simplify_eq.
  right. exists n, r, g, s.
  repeat split; try done; try congruence.
  apply run_ok; congruence.
Qed.

(** *** The layers of the final stack *)

Lemma ratio_values_lookup x y z w i xi yi zi wi :
  values x !! i = Some xi -> values y !! i = Some yi ->
  values z !! i = Some zi -> values w !! i = Some wi ->
  ratio_values x y z w !! i = Some (vdiv (vsub xi yi) (vadd zi wi)).
Proof.
  intros Hx Hy Hz Hw. unfold ratio_values.
  rewrite !lookup_zip_with, Hx, Hy, Hz, Hw. reflexivity.
Qed.

Lemma ratio_values_inv x y z w i v :
  ratio_values x y z w !! i = Some v ->
  exists xi yi zi wi,
    values x !! i = Some xi /\ values y !! i = Some yi /\
    values z !! i = Some zi /\ values w !! i = Some wi /\
    v = vdiv (vsub xi yi) (vadd zi wi).
Proof.
  unfold ratio_values. rewrite !lookup_zip_with. intros Hv.
  destruct (values x !! i) as [xi|]; [|done].
  destruct (values y !! i) as [yi|]; [|done].
  destruct (values z !! i) as [zi|]; [|done].
  destruct (values w !! i) as [wi|]; [|done].
  simpl in Hv. simplify_eq. by exists xi, yi, zi, wi.
Qed.

(** Once [ndvi] has been assigned, nothing later overwrites it. *)
Lemma run_ndvi_layer dc n r :
  dc !! "nir" = Some n -> dc !! "red" = Some r -> shape n = shape r ->
  (calculate_band_indices dc).1 !! "ndvi" = Some (ratio_array n r n r).
Proof.
  intros Hn Hr Hnr.
  destruct (first_error dc "green" "nir") as [e|] eqn:E2.
  { erewrite run_fails_at_ndwi by done. simpl. by read_layer. }
  apply first_error_none in E2 as (g & n' & Hg & Hn' & Hgn). simplify_eq.
  destruct (first_error dc "green" "swir1") as [e|] eqn:E3.
  { erewrite run_fails_at_mndwi by done. simpl. by read_layer. }
  apply first_error_none in E3 as (g' & s & Hg' & Hs & Hgs). simplify_eq.
  erewrite run_ok by (done || congruence). simpl. unfold with_indices.
  by read_layer.
Qed.

(** The final stack is the one the call was given, when the [ndvi]
    assignment fails, or it holds [ndwi]. *)
Lemma run_ndwi_layer dc g n :
  dc !! "green" = Some g -> dc !! "nir" = Some n -> shape g = shape n ->
  (calculate_band_indices dc).1 = dc \/
  (calculate_band_indices dc).1 !! "ndwi" = Some (ratio_array g n g n).
Proof.
  intros Hg Hn Hgn.
  destruct (first_error dc "nir" "red") as [e|] eqn:E1.
  { left. by erewrite run_fails_at_ndvi. }
  apply first_error_none in E1 as (n' & r & Hn' & Hr & Hnr). simplify_eq.
  right.
  destruct (first_error dc "green" "swir1") as [e|] eqn:E3.
  { erewrite run_fails_at_mndwi by done. simpl. by read_layer. }
  apply first_error_none in E3 as (g' & s & Hg' & Hs & Hgs). simplify_eq.
  erewrite run_ok by (done || congruence). simpl. unfold with_indices.
  by read_layer.
Qed.

Lemma run_ndwi_attached dc g n r :
  dc !! "green" = Some g -> dc !! "nir" = Some n -> dc !! "red" = Some r ->
  shape g = shape n -> shape r = shape n ->
  (calculate_band_indices dc).1 !! "ndwi" = Some (ratio_array g n g n).
Proof.
  intros Hg Hn Hr Hgn Hrn.
  destruct (first_error dc "green" "swir1") as [e|] eqn:E3.
  - erewrite run_fails_at_mndwi by done. simpl. by read_layer.
  - apply first_error_none in E3 as (g' & s & Hg' & Hs & Hgs). simplify_eq.
    erewrite run_ok by (done || congruence). simpl. unfold with_indices.
    by read_layer.
Qed.



Lemma with_indices_twice dc n r g s :
  with_indices (with_indices dc n r g s) n r g s = with_indices dc n r g s.
Proof.
  unfold with_indices. apply map_eq. intros k.
  destruct (decide (k = "mndwi")) as [->|]; [by read_layer|].
  destruct (decide (k = "ndwi")) as [->|]; [by read_layer|].
  destruct (decide (k = "ndvi")) as [->|]; [by read_layer|].
  by rewrite !lookup_insert_ne.
Qed.

(** *** Absent bands *)

Lemma first_error_missing a b dc k :
  first_error dc a b = Some (MissingBand k) ->
  (k = a \/ k = b) /\ dc !! k = None.
Proof.
  unfold first_error. intros He.
  destruct (dc !! a) as [x|] eqn:Ha.
  - destruct (dc !! b) as [y|] eqn:Hb.
    + case_decide; simplify_eq.
    + simplify_eq. auto.
  - simplify_eq. auto.
Qed.

Lemma first_error_one_shape a b dc e :
  one_shape dc -> a ∈ band_names -> b ∈ band_names ->
  first_error dc a b = Some e -> exists k, e = MissingBand k.
Proof.
  unfold first_error. intros Hone Ha Hb He.
  destruct (dc !! a) as [x|] eqn:Hxa; [|simplify_eq; eauto].
  destruct (dc !! b) as [y|] eqn:Hyb; [|simplify_eq; eauto].
  rewrite decide_True in He by exact (Hone a b x y Ha Hb Hxa Hyb).
  discriminate.
Qed.

Lemma band_names_elem b :
  b ∈ band_names <-> b = "nir" \/ b = "red" \/ b = "green" \/ b = "swir1".
Proof.
  unfold band_names. rewrite !elem_of_cons, elem_of_nil. tauto.
Qed.

(** A call that stops for an absent band: the band, and what the stack
    holds. *)
Lemma run_missing_cases dc dc' k :
  calculate_band_indices dc = (dc', inl (MissingBand k)) ->
  ((k = "nir" \/ k = "red") /\ dc !! k = None /\ dc' = dc) \/
  (k = "green" /\ dc !! "green" = None /\
   exists n r,
     dc !! "nir" = Some n /\ dc !! "red" = Some r /\ shape n = shape r /\
     dc' = <["ndvi" := ratio_array n r n r]> dc) \/
  (k = "swir1" /\ dc !! "swir1" = None /\
   exists n r g,
     dc !! "nir" = Some n /\ dc !! "red" = Some r /\
     dc !! "green" = Some g /\ shape n = shape r /\ shape g = shape n /\
     dc' = <["ndwi" := ratio_array g n g n]>
             (<["ndvi" := ratio_array n r n r]> dc)).
Proof.
  intros Hrun.
  destruct (run_cases dc) as
    [(e & He & Hc)|[(n & r & e & Hn & Hr & Hnr & He & Hc)|
     [(n & r & g & e & Hn & Hr & Hg & Hnr & Hgn & He & Hc)|
      (n & r & g & s & _ & _ & _ & _ & _ & _ & _ & Hc)]]];
    rewrite Hc in Hrun; simplify_eq.
  - left. by apply first_error_missing in He as [? ?].
  - right. left. apply first_error_missing in He as [[->| ->] Hk];
      [|congruence].
    split; [done|]. split; [done|]. by exists n, r.
  - right. right. apply first_error_missing in He as [[->| ->] Hk];
      [congruence|].
    split; [done|]. split; [done|]. by exists n, r, g.
Qed.

(** On bands of one shape a call stops for an absent band only. *)
Lemma run_one_shape dc dc' e :
  one_shape dc -> calculate_band_indices dc = (dc', inl e) ->
  exists k, e = MissingBand k.
Proof.
  intros Hone Hrun.
  destruct (run_cases dc) as
    [(e' & He & Hc)|[(n & r & e' & _ & _ & _ & He & Hc)|
     [(n & r & g & e' & _ & _ & _ & _ & _ & He & Hc)|
      (n & r & g & s & _ & _ & _ & _ & _ & _ & _ & Hc)]]];
    rewrite Hc in Hrun; simplify_eq;
    (eapply first_error_one_shape; [exact Hone| | |exact He]);
    apply band_names_elem; tauto.
Qed.

Lemma lacks_band_fails dc :
  lacks_band dc -> exists dc' e, calculate_band_indices dc = (dc', inl e).
Proof.
  intros (b & Hb & Hnone).
  destruct (run_cases dc) as
    [(e & _ & Hc)|[(n & r & e & _ & _ & _ & _ & Hc)|
     [(n & r & g & e & _ & _ & _ & _ & _ & _ & Hc)|
      (n & r & g & s & Hn & Hr & Hg & Hs & _ & _ & _ & _)]]];
    [by eauto..|].
  apply band_names_elem in Hb as [->|[->|[->| ->]]]; congruence.
Qed.

(** On bands of one shape, a stack that lacks a band makes the call stop
    for an absent band. *)
Lemma lacks_band_reported dc :
  one_shape dc -> lacks_band dc ->
  exists b,
    dc !! b = None /\ b ∈ band_names /\
    calculate_band_indices dc =
      ((calculate_band_indices dc).1, inl (MissingBand b)).
Proof.
  intros Hone (dc' & e & Hrun)%lacks_band_fails.
  destruct (run_one_shape dc dc' e Hone Hrun) as [k ->].
  exists k. rewrite Hrun. simpl.
  destruct (run_missing_cases dc dc' k Hrun)
    as [(Hk & Hnone & _)|[(-> & Hnone & _)|(-> & Hnone & _)]];
    (split; [done|]); (split; [|done]); apply band_names_elem; tauto.
Qed.

End Running.

(** ** Exact arithmetic *)

Lemma exact_equal_bands_zero (a b : Q) :
  (a == b)%Q -> (vdiv (vsub a b) (vadd a b) == 0)%Q.
Proof.
  intros Hab. simpl. unfold Qdiv.
  assert (Hz : (a - b == 0)%Q) by lra.
  rewrite Hz. apply Qmult_0_l.
Qed.

Lemma exact_ratio_bounded (a b : Q) :
  (0 <= a)%Q -> (0 <= b)%Q -> ~ (a + b == 0)%Q ->
  in_unit_range (vdiv (vsub a b) (vadd a b)).
Proof.
  intros Ha Hb Hnz. simpl.
  assert (Hpos : (0 < a + b)%Q).
  { destruct (Qlt_le_dec 0 (a + b)) as [Hlt|Hle]; [exact Hlt|].
    exfalso. apply Hnz. lra. }
  split.
  - apply Qle_shift_div_l; [exact Hpos | lra].
  - apply Qle_shift_div_r; [exact Hpos | lra].
Qed.

Lemma exact_ratio_values_bounded (x y : DataArray Q) v :
  nonnegative x -> nonnegative y -> nonzero_sum x y ->
  v ∈ ratio_values x y x y -> in_unit_range v.
Proof.
  intros Hx Hy Hnz Hv.
  apply list_elem_of_lookup in Hv as [i Hi].
  apply ratio_values_inv in Hi
    as (xi & yi & zi & wi & Hxi & Hyi & Hzi & Hwi & ->).
  simplify_eq. apply exact_ratio_bounded; eauto.
Qed.

(** ** Binary64 arithmetic

    Read off the specification of the primitive floats ([SpecFloat]).
    Rounding to nearest never steps over a number of the format: a
    rounded value stays under every representable upper bound of the
    exact one and over every representable lower bound.  For finite
    [a], [b] that are not negative this puts the rounded [|a - b|] under
    the larger of the two and the rounded [a + b] over it, and the
    rounded quotient of the two in [[-1, 1]].  Rounding never makes a
    NaN, and a division by zero makes an infinity or a NaN. *)

Local Open Scope Z_scope.

(** *** Digits of a significand *)

Lemma digits2_pos_bounds p :
  2 ^ (Z.pos (digits2_pos p) - 1) <= Z.pos p < 2 ^ Z.pos (digits2_pos p).
Proof.
  induction p as [p IH|p IH|]; simpl digits2_pos.
  - rewrite Pos2Z.inj_succ.
    replace (Z.succ (Z.pos (digits2_pos p)) - 1)
      with (Z.succ (Z.pos (digits2_pos p) - 1)) by lia.
    rewrite !Z.pow_succ_r by lia. lia.
  - rewrite Pos2Z.inj_succ.
    replace (Z.succ (Z.pos (digits2_pos p)) - 1)
      with (Z.succ (Z.pos (digits2_pos p) - 1)) by lia.
    rewrite !Z.pow_succ_r by lia. lia.
  - simpl. lia.
Qed.

Lemma Zdigits2_bounds m :
  0 < m -> 2 ^ (Zdigits2 m - 1) <= m < 2 ^ Zdigits2 m.
Proof.
  destruct m as [|p|p]; try lia. intros _. apply digits2_pos_bounds.
Qed.

Lemma Zdigits2_pos m : 0 < m -> 0 < Zdigits2 m.
Proof. destruct m; simpl; lia. Qed.

(** m < 2^d -> digits m <= d *)
Lemma Zdigits2_le_of_lt m d :
  0 <= m -> 0 <= d -> m < 2 ^ d -> Zdigits2 m <= d.
Proof.
  intros Hm Hd Hlt.
  destruct (Z.eq_dec m 0) as [->|Hnz]; [simpl; lia|].
  destruct (Zdigits2_bounds m ltac:(lia)) as [Hlo _].
  destruct (Z_le_gt_dec (Zdigits2 m) d) as [|Hgt]; [assumption|exfalso].
  assert (2 ^ d <= 2 ^ (Zdigits2 m - 1)) by (apply Z.pow_le_mono_r; lia).
  lia.
Qed.

(** 2^d <= m -> d < digits m *)
Lemma Zdigits2_gt_of_le m d :
  0 <= d -> 2 ^ d <= m -> d < Zdigits2 m.
Proof.
  intros Hd Hle.
  assert (0 < m) by (pose proof (Z.pow_pos_nonneg 2 d); lia).
  destruct (Zdigits2_bounds m ltac:(lia)) as [_ Hhi].
  destruct (Z_lt_le_dec d (Zdigits2 m)) as [|Hge]; [assumption|exfalso].
  assert (2 ^ Zdigits2 m <= 2 ^ d) by (apply Z.pow_le_mono_r; lia).
  lia.
Qed.

(** *** Shifting right *)

Lemma pow2_pos k : 0 <= k -> 0 < 2 ^ k.
Proof. intros. apply Z.pow_pos_nonneg; lia. Qed.

Lemma multiple_split a p q :
  0 < p -> 0 < q -> a mod (p * q) = 0 -> a mod p = 0 /\ (a / p) mod q = 0.
Proof.
  intros Hp Hq Hmod.
  apply Z.mod_divide in Hmod; [|lia]. destruct Hmod as [t ->].
  replace (t * (p * q)) with (t * q * p) by lia.
  rewrite Z.mod_mul, Z.div_mul by lia.
  split; [reflexivity|]. apply Z.mod_mul. lia.
Qed.

Lemma shifted_1 mrs : 0 <= shr_m mrs -> shifted 1 mrs (shr_1 mrs).
Proof.
  destruct mrs as [m r s]. unfold shifted, exact_rec. simpl. intros Hm.
  destruct m as [|[p|p|]|p]; try lia; cbn [shr_m shr_r shr_s].
  - split; [reflexivity|]. intros [-> ->] _. split; reflexivity.
  - split; [apply Z.div_unique with 1; lia|].
    intros _ Hmod. rewrite Pos2Z.inj_xI in Hmod.
    rewrite Z.add_comm, Z.mul_comm, Z.mod_add in Hmod by lia. discriminate.
  - split; [apply Z.div_unique with 0; lia|].
    intros [-> ->] _. split; reflexivity.
  - split; [reflexivity|]. intros _ Hmod. discriminate.
Qed.

Lemma shifted_trans j k a b c :
  0 <= j -> 0 <= k -> 0 <= shr_m a ->
  shifted j a b -> shifted k b c -> shifted (j + k) a c.
Proof.
  intros Hj Hk Ha [Hb Hbe] [Hc Hce].
  pose proof (pow2_pos j Hj). pose proof (pow2_pos k Hk).
  unfold shifted. rewrite Z.pow_add_r by lia. split.
  - rewrite Hc, Hb, Z.div_div by lia. reflexivity.
  - intros Hex Hmod.
    destruct (multiple_split _ _ _ H H0 Hmod) as [Hmj Hmk].
    apply Hce; [apply Hbe; assumption|].
    rewrite Hb. exact Hmk.
Qed.

Lemma shifted_nonneg k a b :
  0 <= k -> 0 <= shr_m a -> shifted k a b -> 0 <= shr_m b.
Proof.
  intros Hk Ha [Hb _]. rewrite Hb. apply Z.div_pos; [lia|apply pow2_pos; lia].
Qed.

Lemma iter_shr_1 p : forall mrs,
  0 <= shr_m mrs -> shifted (Z.pos p) mrs (SpecFloat.iter_pos shr_1 p mrs).
Proof.
  induction p as [p IH|p IH|]; intros mrs Hm; simpl SpecFloat.iter_pos.
  - replace (Z.pos p~1) with (1 + Z.pos p + Z.pos p)
      by (rewrite (Pos2Z.inj_xI p); lia).
    pose proof (shifted_1 mrs Hm) as H1.
    pose proof (shifted_nonneg 1 _ _ ltac:(lia) Hm H1) as Hn1.
    pose proof (IH _ Hn1) as H2.
    pose proof (shifted_nonneg (Z.pos p) _ _ ltac:(lia) Hn1 H2) as Hn2.
    pose proof (shifted_trans 1 (Z.pos p) _ _ _
                  ltac:(lia) ltac:(lia) Hm H1 H2) as H12.
    apply (shifted_trans (1 + Z.pos p) (Z.pos p) _ _ _
             ltac:(lia) ltac:(lia) Hm H12).
    apply IH, Hn2.
  - replace (Z.pos p~0) with (Z.pos p + Z.pos p)
      by (rewrite (Pos2Z.inj_xO p); lia).
    pose proof (IH _ Hm) as H1.
    pose proof (shifted_nonneg (Z.pos p) _ _ ltac:(lia) Hm H1) as Hn1.
    apply (shifted_trans (Z.pos p) (Z.pos p) _ _ _ ltac:(lia) ltac:(lia) Hm H1).
    apply IH, Hn1.
  - apply shifted_1, Hm.
Qed.

Lemma loc_of_shr_record_of_loc m l :
  loc_of_shr_record (shr_record_of_loc m l) = l.
Proof. destruct l as [|[]]; reflexivity. Qed.

Lemma shr_m_of_loc m l : shr_m (shr_record_of_loc m l) = m.
Proof. destruct l as [|[]]; reflexivity. Qed.

Lemma exact_rec_loc mrs : exact_rec mrs -> loc_of_shr_record mrs = loc_Exact.
Proof. destruct mrs as [m r s]. intros [Hr Hs]. simpl in *. subst. reflexivity. Qed.

Lemma shr_fexp_spec m e l :
  0 <= m ->
  let j := Z.max (fexp prec emax (Zdigits2 m + e) - e) 0 in
  shr_m (fst (shr_fexp prec emax m e l)) = m / 2 ^ j /\
  snd (shr_fexp prec emax m e l) = e + j /\
  (l = loc_Exact -> m mod 2 ^ j = 0 ->
   loc_of_shr_record (fst (shr_fexp prec emax m e l)) = loc_Exact).
Proof.
  intros Hm j. unfold shr_fexp, shr. subst j.
  destruct (fexp prec emax (Zdigits2 m + e) - e) as [|p|p] eqn:Hk;
    simpl fst; simpl snd.
  - rewrite Z.max_r by lia. rewrite Z.pow_0_r, Z.div_1_r, shr_m_of_loc.
    split; [reflexivity|]. split; [lia|].
    intros -> _. reflexivity.
  - rewrite Z.max_l by lia.
    destruct (iter_shr_1 p (shr_record_of_loc m l)) as [H1 H2];
      [rewrite shr_m_of_loc; assumption|].
    rewrite shr_m_of_loc in H1, H2.
    split; [exact H1|]. split; [reflexivity|].
    intros -> Hmod. apply exact_rec_loc, H2; [split; reflexivity|assumption].
  - rewrite Z.max_r by lia. rewrite Z.pow_0_r, Z.div_1_r, shr_m_of_loc.
    split; [reflexivity|]. split; [lia|].
    intros -> _. reflexivity.
Qed.

(** *** Rounding a shifted significand *)

Lemma round_nearest_even_bounds m l :
  m <= round_nearest_even m l <= m + 1.
Proof.
  destruct l as [|[]]; simpl; try lia. destruct (Z.even m); lia.
Qed.

Lemma binary_round_aux_spec s m e l :
  0 <= m ->
  exists j m1 j2,
    j = Z.max (fexp prec emax (Zdigits2 m + e) - e) 0 /\
    m / 2 ^ j <= m1 <= m / 2 ^ j + 1 /\
    (l = loc_Exact -> m mod 2 ^ j = 0 -> m1 = m / 2 ^ j) /\
    j2 = Z.max (fexp prec emax (Zdigits2 m1 + (e + j)) - (e + j)) 0 /\
    binary_round_aux prec emax s m e l =
      match m1 / 2 ^ j2 with
      | Z0 => S754_zero s
      | Zpos p =>
          if e + j + j2 <=? emax - prec
          then S754_finite s p (e + j + j2) else S754_infinity s
      | Zneg _ => S754_nan
      end.
Proof.
  intros Hm. unfold binary_round_aux.
  destruct (shr_fexp_spec m e l Hm) as (H1 & H2 & H3).
  destruct (shr_fexp prec emax m e l) as [mrs' e'] eqn:Hs1.
  simpl fst in *; simpl snd in *.
  set (j := Z.max (fexp prec emax (Zdigits2 m + e) - e) 0) in *.
  set (m1 := round_nearest_even (shr_m mrs') (loc_of_shr_record mrs')).
  assert (Hj : 0 <= j) by (subst j; lia).
  assert (Hm0 : 0 <= m / 2 ^ j)
    by (apply Z.div_pos; [lia|apply Z.pow_pos_nonneg; lia]).
  pose proof (round_nearest_even_bounds (shr_m mrs')
                (loc_of_shr_record mrs')) as Hb.
  fold m1 in Hb. rewrite H1 in Hb.
  assert (Hm1 : 0 <= m1) by lia.
  destruct (shr_fexp_spec m1 e' loc_Exact Hm1) as (H4 & H5 & _).
  destruct (shr_fexp prec emax m1 e' loc_Exact) as [mrs'' e''] eqn:Hs2.
  simpl fst in *; simpl snd in *.
  exists j, m1, (Z.max (fexp prec emax (Zdigits2 m1 + (e + j)) - (e + j)) 0).
  split; [reflexivity|]. split; [exact Hb|]. split.
  { intros Hl Hmod. subst m1. rewrite (H3 Hl Hmod). simpl. exact H1. }
  split; [reflexivity|].
  rewrite H4, H5, H2. reflexivity.
Qed.

(** *** Representable bounds *)

Lemma fexp_val x : fexp prec emax x = Z.max (x - 53) (-1074).
Proof. reflexivity. Qed.

Lemma bounded_inv mf ef :
  bounded prec emax mf ef = true ->
  Z.max (Z.pos (digits2_pos mf) + ef - 53) (-1074) = ef /\ ef <= 971.
Proof.
  unfold bounded, canonical_mantissa. rewrite andb_true_iff, Z.eqb_eq, Z.leb_le.
  rewrite fexp_val. intros [H1 H2]. split; [exact H1|exact H2].
Qed.

Lemma SFleb_finite_pos m1 e1 m2 e2 :
  e1 < e2 \/ (e1 = e2 /\ Z.pos m1 <= Z.pos m2) ->
  SFleb (S754_finite false m1 e1) (S754_finite false m2 e2) = true.
Proof.
  unfold SFleb, SFcompare. intros [Hlt|[-> Hle]].
  - apply Z.compare_lt_iff in Hlt. rewrite Hlt. reflexivity.
  - rewrite Z.compare_refl.
    change (Pos.compare_cont Eq m1 m2) with (Pos.compare m1 m2).
    destruct (Pos.compare_spec m1 m2); try reflexivity. lia.
Qed.

Lemma SFleb_finite_pos_inv m1 e1 m2 e2 :
  SFleb (S754_finite false m1 e1) (S754_finite false m2 e2) = true ->
  e1 < e2 \/ (e1 = e2 /\ Z.pos m1 <= Z.pos m2).
Proof.
  unfold SFleb, SFcompare.
  destruct (Z.compare_spec e1 e2) as [->|Hlt|Hgt]; try discriminate; [|lia].
  change (Pos.compare_cont Eq m1 m2) with (Pos.compare m1 m2).
  destruct (Pos.compare_spec m1 m2); try discriminate; intros _; right; lia.
Qed.

(** Rounding does not step over a representable upper bound. *)
Lemma round_le_bound m e l mf ef :
  0 <= m -> e <= ef -> bounded prec emax mf ef = true ->
  m <= Z.pos mf * 2 ^ (ef - e) ->
  (m = Z.pos mf * 2 ^ (ef - e) -> l = loc_Exact) ->
  SFleb (binary_round_aux prec emax false m e l) (S754_finite false mf ef) = true.
Proof.
  intros Hm Hee Hb Hle Hex.
  destruct (bounded_inv mf ef Hb) as [Hcan Hmax].
  destruct (digits2_pos_bounds mf) as [Hflo Hfhi].
  set (df := Z.pos (digits2_pos mf)) in *.
  assert (Hdf : 0 < df) by (subst df; lia).
  destruct (binary_round_aux_spec false m e l Hm)
    as (j & m1 & j2 & Hj & Hm1 & Hm1e & Hj2 & ->).
  rewrite fexp_val in Hj, Hj2.
  (* step 1 *)
  assert (HD : Zdigits2 m + e <= df + ef).
  { destruct (Z.eq_dec m 0) as [->|Hnz]; [change (Zdigits2 0) with 0; lia|].
    destruct (Zdigits2_bounds m ltac:(lia)) as [Hlo _].
    pose proof (Zdigits2_pos m ltac:(lia)).
    assert (2 ^ (Zdigits2 m - 1) < 2 ^ (df + (ef - e))).
    { rewrite Z.pow_add_r by lia.
      pose proof (pow2_pos (ef - e) ltac:(lia)). nia. }
    apply Z.pow_lt_mono_r_iff in H0; lia. }
  assert (Hjle : 0 <= j <= ef - e) by lia.
  set (E1 := e + j) in *.
  set (M := Z.pos mf * 2 ^ (ef - E1)).
  assert (HM : Z.pos mf * 2 ^ (ef - e) = M * 2 ^ j).
  { subst M. rewrite <- Z.mul_assoc, <- Z.pow_add_r by lia. f_equal. f_equal. lia. }
  pose proof (pow2_pos j ltac:(lia)) as Hpj.
  assert (Hm0 : m / 2 ^ j <= M).
  { apply Z.div_le_upper_bound; [lia|]. lia. }
  assert (Hm1M : m1 <= M).
  { destruct (Z.eq_dec (m / 2 ^ j) M) as [Heq|Hne]; [|lia].
    pose proof (Z.mul_div_le m (2 ^ j) Hpj) as Hfloor.
    rewrite Heq in Hfloor.
    assert (Hmeq : m = M * 2 ^ j) by lia.
    rewrite Hm1e; [lia| apply Hex; lia |].
    rewrite Hmeq. apply Z.mod_mul. lia. }
  assert (Hm1n : 0 <= m1).
  { assert (0 <= m / 2 ^ j) by (apply Z.div_pos; lia). lia. }
  (* step 3 *)
  assert (HMlt : M < 2 ^ (df + ef - E1)).
  { subst M. replace (df + ef - E1) with (df + (ef - E1)) by lia.
    rewrite Z.pow_add_r by lia.
    pose proof (pow2_pos (ef - E1) ltac:(lia)). nia. }
  assert (HD1 : Zdigits2 m1 <= df + ef - E1).
  { apply Zdigits2_le_of_lt; lia. }
  assert (Hj2le : 0 <= j2 <= ef - E1) by lia.
  pose proof (pow2_pos j2 ltac:(lia)) as Hpj2.
  assert (Hm2 : 0 <= m1 / 2 ^ j2) by (apply Z.div_pos; lia).
  destruct (m1 / 2 ^ j2) as [|p|p] eqn:Hq; [reflexivity| |lia].
  assert (Hfin : (E1 + j2 <=? emax - prec) = true)
    by (apply Z.leb_le; change (emax - prec) with 971; lia).
  rewrite Hfin.
  apply SFleb_finite_pos.
  destruct (Z.eq_dec (E1 + j2) ef) as [Heq|Hne]; [right|left; lia].
  split; [exact Heq|].
  rewrite <- Hq. apply Z.div_le_upper_bound; [lia|].
  assert (M = Z.pos mf * 2 ^ j2) by (subst M; f_equal; f_equal; lia).
  lia.
Qed.

Lemma div_pow2_lower m d j :
  0 <= j -> j <= d -> 2 ^ d <= m -> 2 ^ (d - j) <= m / 2 ^ j.
Proof.
  intros Hj Hd Hm. pose proof (pow2_pos j Hj).
  apply Z.div_le_lower_bound; [lia|].
  rewrite <- Z.pow_add_r by lia. replace (j + (d - j)) with d by lia. exact Hm.
Qed.

(** Rounding does not step under a representable lower bound. *)
Lemma round_ge_bound m e l mf ef :
  e <= ef -> bounded prec emax mf ef = true ->
  Z.pos mf * 2 ^ (ef - e) <= m ->
  binary_round_aux prec emax false m e l = S754_infinity false \/
  exists p e2,
    binary_round_aux prec emax false m e l = S754_finite false p e2 /\
    (ef < e2 \/ (ef = e2 /\ Z.pos mf <= Z.pos p)).
Proof.
  intros Hee Hb Hge.
  destruct (bounded_inv mf ef Hb) as [Hcan Hmax].
  destruct (digits2_pos_bounds mf) as [Hflo Hfhi].
  set (df := Z.pos (digits2_pos mf)) in *.
  assert (Hdf : 0 < df) by (subst df; lia).
  pose proof (pow2_pos (ef - e) ltac:(lia)) as Hpee.
  assert (Hmpos : 0 < m) by nia.
  destruct (binary_round_aux_spec false m e l ltac:(lia))
    as (j & m1 & j2 & Hj & Hm1 & _ & Hj2 & ->).
  rewrite fexp_val in Hj, Hj2.
  destruct (Zdigits2_bounds m Hmpos) as [Hlo Hhi].
  pose proof (Zdigits2_pos m Hmpos) as HDpos.
  set (D := Zdigits2 m) in *.
  assert (HD : df + ef <= D + e).
  { assert (2 ^ (df - 1 + (ef - e)) <= m).
    { rewrite Z.pow_add_r by lia. nia. }
    pose proof (Zdigits2_gt_of_le m (df - 1 + (ef - e)) ltac:(lia) H).
    fold D in H0. lia. }
  assert (Hjge : ef - e <= j) by lia.
  pose proof (pow2_pos j ltac:(lia)) as Hpj.
  assert (Hm0 : 0 < m / 2 ^ j /\ (e + j = ef -> Z.pos mf <= m / 2 ^ j)).
  { destruct (Z.eq_dec (e + j) ef) as [Heq|Hne].
    - assert (Z.pos mf <= m / 2 ^ j).
      { apply Z.div_le_lower_bound; [lia|].
        replace j with (ef - e) by lia. lia. }
      split; [lia|intros _; assumption].
    - assert (Hjd : j = D - 53) by lia.
      pose proof (div_pow2_lower m (D - 1) j ltac:(lia) ltac:(lia) Hlo) as Hdl.
      replace (D - 1 - j) with 52 in Hdl by lia.
      change (2 ^ 52) with 4503599627370496 in Hdl.
      split; [lia|intros; lia]. }
  destruct Hm0 as [Hm0 Hm0f].
  assert (Hm1pos : 0 < m1) by lia.
  destruct (Zdigits2_bounds m1 Hm1pos) as [Hlo1 Hhi1].
  pose proof (Zdigits2_pos m1 Hm1pos) as HD1pos.
  set (D1 := Zdigits2 m1) in *.
  assert (Hj2v : j2 = Z.max (D1 - 53) 0) by lia.
  pose proof (pow2_pos j2 ltac:(lia)) as Hpj2.
  assert (Hm2 : 0 < m1 / 2 ^ j2 /\ (j2 = 0 -> m1 / 2 ^ j2 = m1)).
  { destruct (Z.eq_dec j2 0) as [Heq|Hne].
    - rewrite Heq. rewrite Z.pow_0_r, Z.div_1_r. split; [lia|reflexivity].
    - pose proof (div_pow2_lower m1 (D1 - 1) j2 ltac:(lia) ltac:(lia) Hlo1) as Hdl.
      replace (D1 - 1 - j2) with 52 in Hdl by lia.
      change (2 ^ 52) with 4503599627370496 in Hdl.
      split; [lia|intros; lia]. }
  destruct Hm2 as [Hm2 Hm2f].
  destruct (m1 / 2 ^ j2) as [|p|p] eqn:Hq; [lia| |lia].
  destruct (e + j + j2 <=? emax - prec); [right|left; reflexivity].
  exists p, (e + j + j2). split; [reflexivity|].
  destruct (Z.eq_dec (e + j + j2) ef) as [Heq|Hne]; [right|left; lia].
  split; [symmetry; exact Heq|].
  assert (j2 = 0) by lia. assert (e + j = ef) by lia.
  specialize (Hm2f H). specialize (Hm0f H0). lia.
Qed.

(** *** Aligning two exponents *)

Lemma iter_xO_pow m d : Z.pos (Pos.iter xO m d) = Z.pos m * 2 ^ Z.pos d.
Proof.
  induction d as [|d IH] using Pos.peano_ind.
  - simpl. lia.
  - rewrite Pos.iter_succ, Pos2Z.inj_succ, Z.pow_succ_r by lia.
    rewrite Pos2Z.inj_xO, IH. lia.
Qed.

Lemma shl_align_spec mx ex ex' :
  snd (shl_align mx ex ex') <= ex /\
  (ex' <= ex -> snd (shl_align mx ex ex') = ex') /\
  Z.pos (fst (shl_align mx ex ex'))
  = Z.pos mx * 2 ^ (ex - snd (shl_align mx ex ex')).
Proof.
  unfold shl_align. destruct (ex' - ex) as [|d|d] eqn:Hd; simpl fst; simpl snd.
  - split; [lia|]. split; [lia|]. rewrite Z.sub_diag. simpl. lia.
  - split; [lia|]. split; [lia|]. rewrite Z.sub_diag. simpl. lia.
  - split; [lia|]. split; [reflexivity|].
    rewrite iter_xO_pow. f_equal. f_equal. lia.
Qed.

Lemma binary_round_aux_abs s m e l :
  SFabs (binary_round_aux prec emax s m e l)
  = binary_round_aux prec emax false m e l.
Proof.
  unfold binary_round_aux.
  destruct (shr_fexp prec emax m e l) as [mrs' e'].
  destruct (shr_fexp prec emax _ e' loc_Exact) as [mrs'' e''].
  destruct (shr_m mrs''); try reflexivity.
  destruct (e'' <=? emax - prec); reflexivity.
Qed.

Lemma binary_round_abs s m e :
  SFabs (binary_round prec emax s m e) = binary_round prec emax false m e.
Proof.
  unfold binary_round. destruct (shl_align m e _) as [mz ez].
  apply binary_round_aux_abs.
Qed.

Lemma binary_round_le_bound m e mf ef :
  e <= ef -> bounded prec emax mf ef = true ->
  Z.pos m <= Z.pos mf * 2 ^ (ef - e) ->
  SFleb (binary_round prec emax false m e) (S754_finite false mf ef) = true.
Proof.
  intros Hee Hb Hle. unfold binary_round.
  destruct (shl_align_spec m e (fexp prec emax (Z.pos (digits2_pos m) + e)))
    as (H1 & _ & H3).
  destruct (shl_align m e _) as [mz ez]. simpl fst in *; simpl snd in *.
  pose proof (pow2_pos (e - ez) ltac:(lia)) as Hp.
  assert (Hpow : 2 ^ (ef - ez) = 2 ^ (ef - e) * 2 ^ (e - ez)).
  { rewrite <- Z.pow_add_r by lia; f_equal; lia. }
  apply round_le_bound; try lia; try assumption.
  - rewrite H3, Hpow. nia.
  - intros _. reflexivity.
Qed.

Lemma binary_round_ge_bound m e mf ef :
  e <= ef -> bounded prec emax mf ef = true ->
  Z.pos mf * 2 ^ (ef - e) <= Z.pos m ->
  binary_round prec emax false m e = S754_infinity false \/
  exists p e2,
    binary_round prec emax false m e = S754_finite false p e2 /\
    (ef < e2 \/ (ef = e2 /\ Z.pos mf <= Z.pos p)).
Proof.
  intros Hee Hb Hge. unfold binary_round.
  destruct (shl_align_spec m e (fexp prec emax (Z.pos (digits2_pos m) + e)))
    as (H1 & _ & H3).
  destruct (shl_align m e _) as [mz ez]. simpl fst in *; simpl snd in *.
  pose proof (pow2_pos (e - ez) ltac:(lia)) as Hp.
  assert (Hpow : 2 ^ (ef - ez) = 2 ^ (ef - e) * 2 ^ (e - ez)).
  { rewrite <- Z.pow_add_r by lia; f_equal; lia. }
  apply round_ge_bound; try lia; try assumption.
  rewrite H3, Hpow. nia.
Qed.

(** *** Numbers of the format: order of the pairs, order of the values *)

Lemma lex_le_trans m1 e1 m2 e2 m3 e3 :
  lex_le m1 e1 m2 e2 -> lex_le m2 e2 m3 e3 -> lex_le m1 e1 m3 e3.
Proof. unfold lex_le. lia. Qed.

Lemma digits2_pos_mono m1 m2 :
  Z.pos m1 <= Z.pos m2 -> Z.pos (digits2_pos m1) <= Z.pos (digits2_pos m2).
Proof.
  intros Hle.
  destruct (digits2_pos_bounds m1) as [Hlo1 _].
  destruct (digits2_pos_bounds m2) as [_ Hhi2].
  assert (2 ^ (Z.pos (digits2_pos m1) - 1) < 2 ^ Z.pos (digits2_pos m2)) by lia.
  apply Z.pow_lt_mono_r_iff in H; lia.
Qed.

Lemma lex_le_digits m1 e1 m2 e2 :
  bounded prec emax m1 e1 = true -> bounded prec emax m2 e2 = true ->
  lex_le m1 e1 m2 e2 ->
  Z.pos (digits2_pos m1) + e1 <= Z.pos (digits2_pos m2) + e2.
Proof.
  intros Hb1 Hb2 Hlex.
  destruct (bounded_inv _ _ Hb1) as [Hc1 _].
  destruct (bounded_inv _ _ Hb2) as [Hc2 _].
  destruct Hlex as [Hlt|[-> Hle]]; [lia|].
  pose proof (digits2_pos_mono _ _ Hle). lia.
Qed.

Lemma lex_le_value m1 e1 m2 e2 c :
  bounded prec emax m1 e1 = true -> bounded prec emax m2 e2 = true ->
  lex_le m1 e1 m2 e2 -> c <= e1 -> c <= e2 ->
  Z.pos m1 * 2 ^ (e1 - c) <= Z.pos m2 * 2 ^ (e2 - c).
Proof.
  intros Hb1 Hb2 Hlex Hc1 Hc2.
  destruct (bounded_inv _ _ Hb1) as [Hcan1 _].
  destruct (bounded_inv _ _ Hb2) as [Hcan2 _].
  destruct (digits2_pos_bounds m1) as [_ Hhi1].
  destruct (digits2_pos_bounds m2) as [Hlo2 _].
  destruct Hlex as [Hlt|[-> Hle]].
  - assert (Hd2 : Z.pos (digits2_pos m2) = 53) by lia.
    assert (Hd1 : Z.pos (digits2_pos m1) <= 53) by lia.
    rewrite Hd2 in Hlo2.
    assert (Z.pos m1 < 2 ^ 53).
    { assert (2 ^ Z.pos (digits2_pos m1) <= 2 ^ 53)
        by (apply Z.pow_le_mono_r; lia).
      lia. }
    pose proof (pow2_pos (e1 - c) ltac:(lia)).
    assert (Hpow : 2 ^ (e2 - c) = 2 ^ (e2 - e1 - 1) * 2 * 2 ^ (e1 - c)).
    { replace (e2 - c) with ((e2 - e1 - 1) + 1 + (e1 - c)) by lia.
      rewrite !Z.pow_add_r by lia. rewrite Z.pow_1_r. reflexivity. }
    pose proof (pow2_pos (e2 - e1 - 1) ltac:(lia)).
    rewrite Hpow.
    change (2 ^ 53) with (2 * 2 ^ 52) in H.
    change (2 ^ (53 - 1)) with (2 ^ 52) in Hlo2.
    nia.
  - pose proof (pow2_pos (e2 - c) ltac:(lia)). nia.
Qed.

(** *** Division *)

Lemma new_location_zero n : new_location n 0 = loc_Exact.
Proof.
  unfold new_location, new_location_even, new_location_odd.
  destruct (Z.even n); reflexivity.
Qed.

Lemma SFdiv_abs_le_one sn mn en md ed :
  bounded prec emax mn en = true -> bounded prec emax md ed = true ->
  lex_le mn en md ed ->
  SFleb (SFabs (SFdiv prec emax (S754_finite sn mn en) (S754_finite false md ed)))
        SF_one = true.
Proof.
  intros Hbn Hbd Hlex. unfold SFdiv.
  pose proof (lex_le_digits _ _ _ _ Hbn Hbd Hlex) as Hdig.
  pose proof (lex_le_value _ _ _ _ (Z.min en ed) Hbn Hbd Hlex
                ltac:(lia) ltac:(lia)) as Hval.
  unfold SFdiv_core_binary.
  change (Zdigits2 (Z.pos mn)) with (Z.pos (digits2_pos mn)).
  change (Zdigits2 (Z.pos md)) with (Z.pos (digits2_pos md)).
  set (e' := Z.min (fexp prec emax (Z.pos (digits2_pos mn) + en
                                    - (Z.pos (digits2_pos md) + ed))) (en - ed)).
  assert (He' : e' <= -53 /\ e' <= en - ed).
  { subst e'. rewrite fexp_val. lia. }
  set (s := en - ed - e').
  assert (Hs : 0 <= s) by (subst s; lia).
  set (m' := match s with
             | 0 => Z.pos mn
             | Z.pos _ => Z.shiftl (Z.pos mn) s
             | Z.neg _ => 0
             end).
  assert (Hm' : m' = Z.pos mn * 2 ^ s).
  { subst m'. destruct s as [|p|p] eqn:Hsp.
    - rewrite Z.pow_0_r. lia.
    - apply Z.shiftl_mul_pow2. lia.
    - lia. }
  clearbody m'.
  pose proof (Z_div_mod m' (Z.pos md) ltac:(lia)) as Hdm.
  destruct (Z.div_eucl m' (Z.pos md)) as [q r]. destruct Hdm as [Hq Hr].
  rewrite binary_round_aux_abs.
  (* the quotient is at most 2 ^ (- e') *)
  pose proof (pow2_pos s Hs) as Hps.
  pose proof (pow2_pos (- e') ltac:(lia)) as Hpe.
  assert (Hbound : m' <= Z.pos md * 2 ^ (- e')).
  { rewrite Hm'.
    destruct (Z.min_spec en ed) as [[Hlt Hmin]|[Hge Hmin]]; rewrite Hmin in Hval.
    - (* c = en *)
      rewrite Z.sub_diag, Z.pow_0_r, Z.mul_1_r in Hval.
      assert (Hpow : 2 ^ (- e') = 2 ^ (ed - en) * 2 ^ s).
      { rewrite <- Z.pow_add_r by lia. f_equal; subst s; lia. }
      rewrite Hpow. nia.
    - (* c = ed *)
      rewrite Z.sub_diag, Z.pow_0_r, Z.mul_1_r in Hval.
      assert (Hpow : 2 ^ s = 2 ^ (en - ed) * 2 ^ (- e')).
      { rewrite <- Z.pow_add_r by lia. f_equal; subst s; lia. }
      rewrite Hpow. nia. }
  assert (Hq0 : 0 <= q) by nia.
  assert (Hqle : q <= 2 ^ (- e')) by nia.
  apply round_le_bound.
  - exact Hq0.
  - lia.
  - reflexivity.
  - change (Z.pos 4503599627370496) with (2 ^ 52).
    rewrite <- Z.pow_add_r by lia.
    replace (52 + (-52 - e')) with (- e') by lia. exact Hqle.
  - change (Z.pos 4503599627370496) with (2 ^ 52).
    rewrite <- Z.pow_add_r by lia.
    replace (52 + (-52 - e')) with (- e') by lia.
    intros Heq.
    assert (r = 0) by nia. subst r. apply new_location_zero.
Qed.

(** *** The quotient of a difference by a sum *)

Lemma lex_le_refl m e : lex_le m e m e.
Proof. right. split; [reflexivity|lia]. Qed.

Lemma abs_le_one_in_range q :
  SFleb (SFabs q) SF_one = true ->
  SFleb SF_minus_one q && SFleb q SF_one = true.
Proof.
  destruct q as [s|s| |s m e]; simpl SFabs; intros H.
  - destruct s; reflexivity.
  - discriminate H.
  - discriminate H.
  - destruct s; [|rewrite H; reflexivity].
    apply SFleb_finite_pos_inv in H.
    unfold SF_minus_one, SF_one, SFleb, SFcompare.
    destruct H as [Hlt|[-> Hle]].
    + apply Z.compare_lt_iff in Hlt. rewrite Z.compare_antisym, Hlt. reflexivity.
    + rewrite Z.compare_refl.
      change (Pos.compare_cont Eq 4503599627370496 m)
        with (Pos.compare 4503599627370496 m).
      destruct (Pos.compare_spec 4503599627370496 m); try reflexivity. lia.
Qed.

Lemma SF_ratio_abs_le_one A B :
  valid_binary A = true -> valid_binary B = true ->
  nonneg_finite A -> nonneg_finite B ->
  valid_binary (SF64sub A B) = true ->
  valid_binary (SF64add A B) = true ->
  SFeqb (SF64add A B) (S754_zero false) = false ->
  SFleb (SFabs (SF64div (SF64sub A B) (SF64add A B))) SF_one = true.
Proof.
  intros HvA HvB HA HB HvN HvD Hnz.
  destruct A as [sa|sa| |sa ma ea]; try contradiction;
    destruct B as [sb|sb| |sb mb eb]; try contradiction.
  - destruct sa, sb; discriminate Hnz.
  - destruct sb; [contradiction|].
    change (SF64sub (S754_zero sa) (S754_finite false mb eb))
      with (S754_finite true mb eb).
    change (SF64add (S754_zero sa) (S754_finite false mb eb))
      with (S754_finite false mb eb).
    apply SFdiv_abs_le_one; try assumption. apply lex_le_refl.
  - destruct sa; [contradiction|].
    change (SF64sub (S754_finite false ma ea) (S754_zero sb))
      with (S754_finite false ma ea).
    change (SF64add (S754_finite false ma ea) (S754_zero sb))
      with (S754_finite false ma ea).
    apply SFdiv_abs_le_one; try assumption. apply lex_le_refl.
  - destruct sa; [contradiction|]. destruct sb; [contradiction|].
    simpl in HvA, HvB.
    unfold SF64sub, SF64add, SFsub, SFadd in *. unfold cond_Zopp in *.
    set (ez := Z.min ea eb) in *.
    destruct (shl_align_spec ma ea ez) as (_ & Hsa & Hxa);
    destruct (shl_align_spec mb eb ez) as (_ & Hsb & Hxb).
    rewrite Hsa in Hxa by lia. rewrite Hsb in Hxb by lia.
    set (pa := fst (shl_align ma ea ez)) in *.
    set (pb := fst (shl_align mb eb ez)) in *.
    (* the larger of the two, as a number of the format *)
    assert (Hf : exists mf ef,
               bounded prec emax mf ef = true /\ ez <= ef /\
               Z.pos pa <= Z.pos mf * 2 ^ (ef - ez) /\
               Z.pos pb <= Z.pos mf * 2 ^ (ef - ez) /\
               (Z.pos mf * 2 ^ (ef - ez) = Z.pos pa \/
                Z.pos mf * 2 ^ (ef - ez) = Z.pos pb)).
    { destruct (Z_le_gt_dec (Z.pos pb) (Z.pos pa)).
      - exists ma, ea. repeat split; try assumption; lia.
      - exists mb, eb. repeat split; try assumption; lia. }
    destruct Hf as (mf & ef & Hbf & Hef & Hfa & Hfb & Hfmax).
    (* the sum *)
    change (Z.pos pa + Z.pos pb) with (Z.pos (pa + pb)) in *.
    change (binary_normalize prec emax (Z.pos (pa + pb)) ez false)
      with (binary_round prec emax false (pa + pb) ez) in *.
    assert (HD : binary_round prec emax false (pa + pb) ez = S754_infinity false \/
                 exists pd ed,
                   binary_round prec emax false (pa + pb) ez
                     = S754_finite false pd ed /\ lex_le mf ef pd ed).
    { unfold lex_le. apply binary_round_ge_bound; try assumption. lia. }
    (* the difference *)
    assert (HN : binary_normalize prec emax (Z.pos pa - Z.pos pb) ez false
                 = S754_zero false \/
                 exists sn pn,
                   binary_normalize prec emax (Z.pos pa - Z.pos pb) ez false
                     = binary_round prec emax sn pn ez /\
                   Z.pos pn <= Z.pos mf * 2 ^ (ef - ez)).
    { destruct (Z.pos pa - Z.pos pb) as [|p|p] eqn:Hdiff.
      - left. reflexivity.
      - right. exists false, p. split; [reflexivity|lia].
      - right. exists true, p. split; [reflexivity|lia]. }
    destruct HD as [HD|(pd & ed & HD & Hlexd)]; rewrite HD in *.
    { (* the sum overflows *)
      destruct HN as [HN|(sn & pn & HN & Hpn)]; rewrite HN in *; [reflexivity|].
      pose proof (binary_round_le_bound pn ez mf ef Hef Hbf Hpn) as Hle.
      rewrite <- binary_round_abs with (s := sn) in Hle.
      destruct (binary_round prec emax sn pn ez) as [s'|s'| |s' m' e'];
        try discriminate Hle; reflexivity. }
    destruct HN as [HN|(sn & pn & HN & Hpn)]; rewrite HN in *; [reflexivity|].
    pose proof (binary_round_le_bound pn ez mf ef Hef Hbf Hpn) as Hle.
    rewrite <- binary_round_abs with (s := sn) in Hle.
    destruct (binary_round prec emax sn pn ez) as [s'|s'| |s' m' e'];
      try discriminate Hle; [reflexivity|].
    simpl SFabs in Hle. apply SFleb_finite_pos_inv in Hle.
    apply SFdiv_abs_le_one; try assumption.
    exact (lex_le_trans _ _ _ _ _ _ Hle Hlexd).
Qed.

(** Rounding a significand that is not negative never makes a NaN. *)
Lemma binary_round_aux_number s m e l :
  0 <= m -> binary_round_aux prec emax s m e l <> S754_nan.
Proof.
  intros Hm.
  destruct (binary_round_aux_spec s m e l Hm)
    as (j & m1 & j2 & Hj & Hm1 & _ & Hj2 & ->).
  pose proof (pow2_pos j ltac:(lia)) as Hpj.
  pose proof (pow2_pos j2 ltac:(lia)) as Hpj2.
  assert (Hm0 : 0 <= m / 2 ^ j) by (apply Z.div_pos; lia).
  assert (Hm2 : 0 <= m1 / 2 ^ j2) by (apply Z.div_pos; lia).
  destruct (m1 / 2 ^ j2) as [|p|p]; [discriminate| |lia].
  destruct (e + j + j2 <=? emax - prec); discriminate.
Qed.

Lemma binary_normalize_number m e sz :
  binary_normalize prec emax m e sz <> S754_nan.
Proof.
  unfold binary_normalize, binary_round.
  destruct m as [|p|p]; try discriminate.
  - destruct (shl_align p e _) as [mz ez]. apply binary_round_aux_number. lia.
  - destruct (shl_align p e _) as [mz ez]. apply binary_round_aux_number. lia.
Qed.

Local Close Scope Z_scope.

Local Open Scope float_scope.

(** [(x - x)/(x + x)] is zero for a finite [x] whose double is not. *)
Lemma same_over_double x :
  is_nan x = false -> is_infinity x = false ->
  is_zero_f (x + x) = false ->
  is_zero_f ((x - x) / (x + x)) = true.
Proof.
  unfold is_nan, is_infinity, is_zero_f.
  rewrite !FloatAxioms.eqb_spec, abs_spec, div_spec, sub_spec, add_spec.
  change (Prim2SF 0) with (S754_zero false).
  change (Prim2SF infinity) with (S754_infinity false).
  destruct (Prim2SF x) as [s|s| |s m e].
  - destruct s; cbv; discriminate.
  - intros _ Hinf. cbv in Hinf. discriminate.
  - intros Hnan. cbv in Hnan. discriminate.
  - intros _ _.
    unfold SF64sub, SFsub. rewrite Z.sub_diag.
    change (binary_normalize prec emax 0 (Z.min e e) false) with (S754_zero false).
    unfold SF64add, SFadd.
    pose proof (binary_normalize_number
      (cond_Zopp s (Z.pos (fst (shl_align m e (Z.min e e)))) +
       cond_Zopp s (Z.pos (fst (shl_align m e (Z.min e e)))))
      (Z.min e e) false) as Hnum.
    destruct (binary_normalize _ _ _ _ _) as [s'|s'| |s' m' e'].
    + destruct s'; cbv; discriminate.
    + intros _. destruct s'; reflexivity.
    + congruence.
    + intros _. destruct s'; reflexivity.
Qed.

(** [n / d] for a zero [d]. *)
Lemma division_by_zero n d :
  is_zero_f d = true -> is_inf_or_nan (n / d) = true.
Proof.
  unfold is_zero_f, is_inf_or_nan, is_nan, is_infinity.
  rewrite !FloatAxioms.eqb_spec, abs_spec, div_spec.
  change (Prim2SF 0) with (S754_zero false).
  change (Prim2SF infinity) with (S754_infinity false).
  intros Hd.
  destruct (Prim2SF d) as [s|s| |s m e];
    try (destruct s; cbv in Hd; discriminate Hd).
  - destruct (Prim2SF n) as [s'|s'| |s' m' e'];
      repeat match goal with b : bool |- _ => destruct b end; reflexivity.
  - cbv in Hd. discriminate Hd.
Qed.

(** [(a - b)/(a + b)] for finite [a] and [b] that are not negative. *)
Lemma nonneg_finite_of_leb x :
  (0 <=? x) = true -> is_infinity x = false -> nonneg_finite (Prim2SF x).
Proof.
  unfold is_infinity.
  rewrite leb_spec, FloatAxioms.eqb_spec, abs_spec.
  change (Prim2SF 0) with (S754_zero false).
  change (Prim2SF infinity) with (S754_infinity false).
  intros Hle Hinf.
  destruct (Prim2SF x) as [s|s| |s m e]; simpl.
  - exact I.
  - destruct s; discriminate.
  - discriminate.
  - destruct s; [discriminate|exact I].
Qed.

Lemma binary64_ratio_in_range a b :
  (0 <=? a) = true -> (0 <=? b) = true ->
  is_infinity a = false -> is_infinity b = false ->
  is_zero_f (a + b) = false ->
  in_unit_range_f ((a - b) / (a + b)) = true.
Proof.
  intros Ha Hb Hia Hib Hnz.
  pose proof (nonneg_finite_of_leb a Ha Hia) as HA.
  pose proof (nonneg_finite_of_leb b Hb Hib) as HB.
  pose proof (Prim2SF_valid a) as HvA.
  pose proof (Prim2SF_valid b) as HvB.
  pose proof (Prim2SF_valid (a - b)) as HvN.
  pose proof (Prim2SF_valid (a + b)) as HvD.
  unfold is_zero_f in Hnz. unfold in_unit_range_f.
  rewrite FloatAxioms.eqb_spec in Hnz.
  rewrite !leb_spec, div_spec.
  rewrite sub_spec in *. rewrite add_spec in *.
  change (Prim2SF 0) with (S754_zero false) in Hnz.
  change (Prim2SF 1) with SF_one.
  change (Prim2SF (-1)) with SF_minus_one.
  apply abs_le_one_in_range.
  apply SF_ratio_abs_le_one; assumption.
Qed.

Lemma binary64_ratio_values_bounded (x y : DataArray float) v :
  nonnegative_f x -> nonnegative_f y -> nonzero_sum_f x y ->
  v ∈ ratio_values x y x y -> in_unit_range_f v = true.
Proof.
  intros Hx Hy Hnz Hv.
  apply list_elem_of_lookup in Hv as [i Hi].
  apply ratio_values_inv in Hi
    as (xi & yi & zi & wi & Hxi & Hyi & Hzi & Hwi & ->).
  simplify_eq.
  destruct (Hx i xi Hxi) as [Hx0 Hxf]. destruct (Hy i yi Hyi) as [Hy0 Hyf].
  apply binary64_ratio_in_range; eauto.
Qed.

Local Close Scope float_scope.

(** ** A failing call *)

(** C1 (amended): a stack that lacks a required band makes
    [calculate_band_indices] fail with [MissingBand] for the first band
    that is absent in the order of the reads, [nir], [red], [green],
    [swir1], and the layers assigned before the failing statement stay
    attached: nothing when [nir] or [red] is absent, [ndvi] when [green]
    is, [ndvi] and [ndwi] when [swir1] is (the bands read by the earlier
    statements having one shape).  A call that fails with [MissingBand]
    names a band that the stack lacks and never attaches [mndwi]; on
    bands of one shape every stack that lacks a band makes the call fail
    so. *)
Theorem failed_call_keeps_earlier_layers
    {V : Type} {D : Dtype V} (dc : Dataset V) :
  (dc !! "nir" = None ->
     calculate_band_indices dc = (dc, inl (MissingBand "nir"))) /\
  (forall n, dc !! "nir" = Some n -> dc !! "red" = None ->
     calculate_band_indices dc = (dc, inl (MissingBand "red"))) /\
  (forall n r,
     dc !! "nir" = Some n -> dc !! "red" = Some r -> shape n = shape r ->
     dc !! "green" = None ->
     calculate_band_indices dc =
       (<["ndvi" := ratio_array n r n r]> dc, inl (MissingBand "green"))) /\
  (forall n r g,
     dc !! "nir" = Some n -> dc !! "red" = Some r -> dc !! "green" = Some g ->
     shape n = shape r -> shape g = shape n ->
     dc !! "swir1" = None ->
     calculate_band_indices dc =
       (<["ndwi" := ratio_array g n g n]>
          (<["ndvi" := ratio_array n r n r]> dc),
        inl (MissingBand "swir1"))) /\
  (forall dc' b, calculate_band_indices dc = (dc', inl (MissingBand b)) ->
     b ∈ band_names /\ dc !! b = None /\
     dc' !! "mndwi" = dc !! "mndwi") /\
  (one_shape dc -> lacks_band dc ->
     exists dc' b,
       dc !! b = None /\
       calculate_band_indices dc = (dc', inl (MissingBand b))).
Proof.
  split; [|split; [|split; [|split; [|split]]]].
  - intros Hn. apply run_fails_at_ndvi. unfold first_error. by rewrite Hn.
  - intros n Hn Hr. apply run_fails_at_ndvi. unfold first_error.
    by rewrite Hn, Hr.
  - intros n r Hn Hr Hnr Hg. apply run_fails_at_ndwi; try done.
    unfold first_error. by rewrite Hg.
  - intros n r g Hn Hr Hg Hnr Hgn Hs. apply run_fails_at_mndwi; try done.
    unfold first_error. by rewrite Hg, Hs.
  - intros dc' b Hrun.
    destruct (run_missing_cases dc dc' b Hrun)
      as [(Hb & Hnone & ->)|[(-> & Hnone & n & r & _ & _ & _ & ->)|
          (-> & Hnone & n & r & g & _ & _ & _ & _ & _ & ->)]];
      (split; [apply band_names_elem; tauto|]); (split; [done|]);
      by read_layer.
  - intros Hone Hlacks.
    destruct (lacks_band_reported dc Hone Hlacks) as (b & Hnone & _ & Hrun).
    by eexists _, b.
Qed.

Lemma failed_call_keeps_earlier_layers_witness :
  exists ndvi ndwi,
    calculate_band_indices stack_without_swir1 =
      (<["ndwi" := ndwi]> (<["ndvi" := ndvi]> stack_without_swir1),
       inl (MissingBand "swir1")).
Proof.
  eexists _, _.
  eapply (proj1 (proj2 (proj2 (proj2
            (failed_call_keeps_earlier_layers stack_without_swir1)))));
    reflexivity.
Defined.

(** C1 (as worded, refuted): on the loaded stack without [swir1] the
    call fails with [ndvi] and [ndwi] already attached. *)
Lemma missing_swir1_leaves_two_layers :
  ~ attaches_nothing_on_failure stack_without_swir1.
Proof.
  intros Hatomic.
  edestruct Hatomic as (_ & Hndvi & _).
  { eapply run_fails_at_mndwi; reflexivity. }
  by rewrite lookup_insert_ne, lookup_insert_eq in Hndvi.
Qed.

(** ** The three formulas *)

Local Open Scope float_scope.

(** C2: on every stack whose [nir] and [red] bands have one shape, the
    [ndvi] layer that [calculate_band_indices] attaches has that shape
    and holds [(nir - red)/(nir + red)] at every sample position (a
    position runs over the time slices too); for [nir=[[0.5]]],
    [red=[[0.1]]] in binary64 the value is within [1e-4] of [0.6667]. *)
Theorem ndvi_formula :
  (forall (V : Type) (D : Dtype V) (dc : Dataset V) (n r : DataArray V),
     dc !! "nir" = Some n -> dc !! "red" = Some r -> shape n = shape r ->
     exists ndvi,
       (calculate_band_indices dc).1 !! "ndvi" = Some ndvi /\
       shape ndvi = shape n /\
       values ndvi = zip_with vdiv (zip_with vsub (values n) (values r))
                                   (zip_with vadd (values n) (values r)) /\
       forall i ni ri,
         values n !! i = Some ni -> values r !! i = Some ri ->
         values ndvi !! i = Some (vdiv (vsub ni ri) (vadd ni ri))) /\
  (exists v,
     (calculate_band_indices ndvi_stack).1 !! "ndvi" = Some (array2d [[v]]) /\
     PrimFloat.leb (abs (v - 0.6667)) 1e-4 = true).
Proof.
  split.
  - intros V D dc n r Hn Hr Hnr. exists (ratio_array n r n r).
    split; [by apply run_ndvi_layer|]. split; [done|]. split; [done|].
    intros i ni ri Hni Hri. by apply ratio_values_lookup.
  - exists ((0.5 - 0.1) / (0.5 + 0.1)). split; reflexivity.
Qed.

Lemma ndvi_formula_witness :
  exists ndvi,
    (calculate_band_indices timed_stack).1 !! "ndvi" = Some ndvi /\
    shape ndvi = [2; 1; 2]%nat /\
    values ndvi !! 3%nat = Some ((0.2 - 0.1) / (0.2 + 0.1)).
Proof.
  destruct (proj1 ndvi_formula float float64 timed_stack
              (mkArray [2; 1; 2]%nat [0.5; 0.4; 0.3; 0.2])
              (mkArray [2; 1; 2]%nat [0.1; 0.2; 0.3; 0.1])
              eq_refl eq_refl eq_refl)
    as (ndvi & Hlayer & Hshape & _ & Hat).
  exists ndvi. split; [exact Hlayer|]. split; [exact Hshape|].
  apply (Hat 3%nat); reflexivity.
Defined.

(** C3 (amended): on every stack whose [green], [nir] and [red] bands
    have one shape, the [ndwi] layer that [calculate_band_indices]
    attaches has that shape and holds [(green - nir)/(green + nir)] at
    every sample position; it is what the [ndwi] assignment stores.
    Where [green] and [nir] are equal and their sum is nonzero the layer
    is zero: in exact arithmetic, and in binary64 for every finite
    sample; [green=[[0.2]]], [nir=[[0.2]]] with a [red] band give [0.0].
    Without [red] the call has stopped at the [ndvi] assignment, with
    the stack as it was given. *)
Theorem ndwi_formula :
  (forall (V : Type) (D : Dtype V) (dc : Dataset V) (g n r : DataArray V),
     dc !! "green" = Some g -> dc !! "nir" = Some n -> dc !! "red" = Some r ->
     shape g = shape n -> shape r = shape n ->
     exists ndwi,
       (calculate_band_indices dc).1 !! "ndwi" = Some ndwi /\
       shape ndwi = shape g /\
       values ndwi = zip_with vdiv (zip_with vsub (values g) (values n))
                                   (zip_with vadd (values g) (values n)) /\
       (forall i gi ni,
          values g !! i = Some gi -> values n !! i = Some ni ->
          values ndwi !! i = Some (vdiv (vsub gi ni) (vadd gi ni))) /\
       assign_ratio "ndwi" "green" "nir" "green" "nir" dc =
         (<["ndwi" := ndwi]> dc, inr ())) /\
  (forall (dc : Dataset Q) g n r,
     dc !! "green" = Some g -> dc !! "nir" = Some n -> dc !! "red" = Some r ->
     shape g = shape n -> shape r = shape n ->
     exists ndwi,
       (calculate_band_indices dc).1 !! "ndwi" = Some ndwi /\
       forall i gi ni,
         values g !! i = Some gi -> values n !! i = Some ni ->
         (gi == ni)%Q -> ~ (gi + ni == 0)%Q ->
         exists v, values ndwi !! i = Some v /\ (v == 0)%Q) /\
  (forall (dc : Dataset float) g n r,
     dc !! "green" = Some g -> dc !! "nir" = Some n -> dc !! "red" = Some r ->
     shape g = shape n -> shape r = shape n ->
     exists ndwi,
       (calculate_band_indices dc).1 !! "ndwi" = Some ndwi /\
       forall i gi,
         values g !! i = Some gi -> values n !! i = Some gi ->
         is_nan gi = false -> is_infinity gi = false ->
         is_zero_f (gi + gi) = false ->
         exists v, values ndwi !! i = Some v /\ is_zero_f v = true) /\
  (calculate_band_indices ndwi_stack_with_red).1 !! "ndwi"
    = Some (array2d [[0]]) /\
  (forall (V : Type) (D : Dtype V) (dc : Dataset V) (n : DataArray V),
     dc !! "nir" = Some n -> dc !! "red" = None ->
     calculate_band_indices dc = (dc, inl (MissingBand "red"))).
Proof.
  split; [|split; [|split; [|split; [reflexivity|]]]].
  - intros V D dc g n r Hg Hn Hr Hgn Hrn. exists (ratio_array g n g n).
    split; [by eapply run_ndwi_attached|].
    split; [done|]. split; [done|].
    split; [intros i gi ni Hgi Hni; by apply ratio_values_lookup|].
    by apply assign_ratio_ok.
  - intros dc g n r Hg Hn Hr Hgn Hrn. exists (ratio_array g n g n).
    split; [by eapply run_ndwi_attached|].
    intros i gi ni Hgi Hni Heq _. eexists. split.
    + by apply ratio_values_lookup.
    + by apply exact_equal_bands_zero.
  - intros dc g n r Hg Hn Hr Hgn Hrn. exists (ratio_array g n g n).
    split; [by eapply run_ndwi_attached|].
    intros i gi Hgi Hni Hnan Hinf Hsum. eexists. split.
    + by apply ratio_values_lookup.
    + by apply same_over_double.
  - intros V D dc n Hn Hr. apply run_fails_at_ndvi. unfold first_error.
    by rewrite Hn, Hr.
Qed.

Lemma ndwi_formula_witness :
  exists ndwi,
    (calculate_band_indices exact_stack).1 !! "ndwi" = Some ndwi /\
    exists v, values ndwi !! 1%nat = Some v /\ (v == 0)%Q.
Proof.
  destruct (proj1 (proj2 ndwi_formula) exact_stack
              (array2d [[(1 # 5)%Q; (1 # 5)%Q]])
              (array2d [[(1 # 2)%Q; (1 # 5)%Q]])
              (array2d [[(1 # 10)%Q; (1 # 5)%Q]])
              eq_refl eq_refl eq_refl eq_refl eq_refl)
    as (ndwi & Hlayer & Hzero).
  exists ndwi. split; [exact Hlayer|].
  apply (Hzero 1%nat (1 # 5)%Q (1 # 5)%Q); [reflexivity..|discriminate].
Defined.

(** C3 (as worded, refuted): on [green=[[0.2]]], [nir=[[0.2]]] alone the
    call stops for the absent [red] and attaches no [ndwi]; and with a
    [red] band, where [green] and [nir] are both [+inf], equal with the
    nonzero sum [+inf], [ndwi] is [(inf - inf)/(inf + inf)], a NaN. *)
Lemma ndwi_needs_red_and_finite_samples :
  ~ ndwi_zero_where_equal ndwi_stack /\
  ~ ndwi_zero_where_equal infinite_stack.
Proof.
  split; intros Hzero.
  - destruct (Hzero (array2d [[0.2]]) (array2d [[0.2]]))
      as (ndwi & Hlayer & _); try reflexivity.
    rewrite (run_fails_at_ndvi ndwi_stack (MissingBand "red")) in Hlayer
      by reflexivity.
    discriminate Hlayer.
  - destruct (Hzero (array2d [[infinity]]) (array2d [[infinity]]))
      as (ndwi & Hlayer & Hat); try reflexivity.
    rewrite (run_ndwi_attached infinite_stack (array2d [[infinity]])
               (array2d [[infinity]]) (array2d [[0.1]])) in Hlayer
      by reflexivity.
    injection Hlayer as <-.
    destruct (Hat 0%nat infinity infinity) as (v & Hv & Hz);
      try reflexivity.
    vm_compute in Hv. injection Hv as <-. vm_compute in Hz. discriminate Hz.
Qed.



Local Close Scope float_scope.

(** ** Reporting an absent band *)

(** C5 (amended): detection is per assignment, in evaluation order.  An
    assignment [dc[name] = (dc.a - dc.b)/(dc.a + dc.b)] fails with
    [MissingBand] for the first of [a], [b] that the stack lacks and
    succeeds when both are there with one shape; an assignment of the
    function that fails with [MissingBand] (the [mndwi] one reads a
    third band) names a band it reads and the stack lacks, and leaves
    the stack as it found it.  Nothing is checked ahead of the first
    assignment.  On bands of one shape [calculate_band_indices] fails
    with [MissingBand] only, and the stack then holds exactly the layers
    of the assignments before the failing one: it is unchanged when
    [nir] or [red] is reported, holds [ndvi] when [green] is, [ndvi] and
    [ndwi] when [swir1] is. *)
Theorem assignment_reports_absent_band
    {V : Type} {D : Dtype V} (dc : Dataset V) :
  (forall name a b, dc !! a = None ->
     assign_ratio name a b a b dc = (dc, inl (MissingBand a))) /\
  (forall name a b x, dc !! a = Some x -> dc !! b = None ->
     assign_ratio name a b a b dc = (dc, inl (MissingBand b))) /\
  (forall name a b x y,
     dc !! a = Some x -> dc !! b = Some y -> shape x = shape y ->
     assign_ratio name a b a b dc =
       (<[name := ratio_array x y x y]> dc, inr ())) /\
  (forall name a b c d dc' k,
     assign_ratio name a b c d dc = (dc', inl (MissingBand k)) ->
     dc' = dc /\ k ∈ [a; b; c; d] /\ dc !! k = None) /\
  (one_shape dc ->
   forall dc' e, calculate_band_indices dc = (dc', inl e) ->
     exists k,
       e = MissingBand k /\ dc !! k = None /\
       (((k = "nir" \/ k = "red") /\ dc' = dc) \/
        (k = "green" /\
         exists n r,
           dc !! "nir" = Some n /\ dc !! "red" = Some r /\
           dc' = <["ndvi" := ratio_array n r n r]> dc) \/
        (k = "swir1" /\
         exists n r g,
           dc !! "nir" = Some n /\ dc !! "red" = Some r /\
           dc !! "green" = Some g /\
           dc' = <["ndwi" := ratio_array g n g n]>
                   (<["ndvi" := ratio_array n r n r]> dc)))).
Proof.
  split; [|split; [|split; [|split]]].
  - intros name a b Ha. by apply assign_ratio_raise, band_ratio_missing_fst.
  - intros name a b x Ha Hb.
    by eapply assign_ratio_raise, band_ratio_missing_snd.
  - intros name a b x y Ha Hb Hxy. by apply assign_ratio_ok.
  - intros name a b c d dc' k Hf.
    pose proof (assign_ratio_fails_unchanged _ _ _ _ _ _ _ _ Hf) as ->.
    split; [done|].
    unfold assign_ratio, mbind, Py_bind in Hf.
    destruct (band_ratio a b c d dc) as [s [e'|r]] eqn:Hr; simplify_eq/=.
    apply band_ratio_error_kind in Hr as [?|(k' & Hin & Hnone & ?)];
      by simplify_eq.
  - intros Hone dc' e Hrun.
    destruct (run_one_shape dc dc' e Hone Hrun) as [k ->]. exists k.
    split; [done|].
    destruct (run_missing_cases dc dc' k Hrun)
      as [(Hk & Hnone & ->)|[(-> & Hnone & n & r & Hn & Hr & _ & ->)|
          (-> & Hnone & n & r & g & Hn & Hr & Hg & _ & _ & ->)]];
      (split; [done|]).
    + by left.
    + right. left. split; [done|]. by exists n, r.
    + right. right. split; [done|]. by exists n, r, g.
Qed.

Lemma assignment_reports_absent_band_witness :
  assign_ratio "ndwi" "green" "nir" "green" "nir" ndvi_stack =
    (ndvi_stack, inl (MissingBand "green")) /\
  assign_ratio "ndvi" "nir" "red" "nir" "red" ndwi_stack =
    (ndwi_stack, inl (MissingBand "red")).
Proof.
  split.
  - apply (proj1 (assignment_reports_absent_band ndvi_stack)). reflexivity.
  - eapply (proj1 (proj2 (assignment_reports_absent_band ndwi_stack)));
      reflexivity.
Defined.

(** C5 (as worded, refuted): with [nir] and [red] only, the missing
    [green] is reported after [ndvi] has been computed and stored: the
    stack that the caller gets back is not the one it gave. *)
Lemma missing_green_reported_after_ndvi :
  ~ reports_before_computing ndvi_stack.
Proof.
  intros Heager.
  assert (Hrun : calculate_band_indices ndvi_stack =
                 (<["ndvi" := ratio_array (array2d [[0.5%float]])
                                 (array2d [[0.1%float]])
                                 (array2d [[0.5%float]])
                                 (array2d [[0.1%float]])]> ndvi_stack,
                  inl (MissingBand "green")))
    by (apply run_fails_at_ndwi; reflexivity).
  apply Heager in Hrun.
  apply (f_equal (fun dc => dc !! "ndvi")) in Hrun.
  rewrite lookup_insert_eq in Hrun. discriminate Hrun.
Qed.

(** ** The range of a normalised difference *)

(** C6 (amended): for bands of one shape whose samples are finite
    non-negative numbers with a nonzero sum at every position, every
    value of [(bandA - bandB)/(bandA + bandB)] lies in [[-1, 1]]: for the
    layer an assignment of that form stores, hence for the [ndvi] and
    [ndwi] layers of [calculate_band_indices]; in binary64, with its
    rounding, overflow and signed zeros, and in exact arithmetic. *)
Theorem nonnegative_ratio_in_unit_range :
  (forall (dc : Dataset float),
     (forall name a b x y,
        dc !! a = Some x -> dc !! b = Some y -> shape x = shape y ->
        nonnegative_f x -> nonnegative_f y -> nonzero_sum_f x y ->
        exists r,
          assign_ratio name a b a b dc = (<[name := r]> dc, inr ()) /\
          shape r = shape x /\
          forall v, v ∈ values r -> in_unit_range_f v = true) /\
     (forall n r,
        dc !! "nir" = Some n -> dc !! "red" = Some r -> shape n = shape r ->
        nonnegative_f n -> nonnegative_f r -> nonzero_sum_f n r ->
        exists ndvi,
          (calculate_band_indices dc).1 !! "ndvi" = Some ndvi /\
          forall v, v ∈ values ndvi -> in_unit_range_f v = true) /\
     (forall g n r,
        dc !! "green" = Some g -> dc !! "nir" = Some n ->
        dc !! "red" = Some r ->
        shape g = shape n -> shape r = shape n ->
        nonnegative_f g -> nonnegative_f n -> nonzero_sum_f g n ->
        exists ndwi,
          (calculate_band_indices dc).1 !! "ndwi" = Some ndwi /\
          forall v, v ∈ values ndwi -> in_unit_range_f v = true)) /\
  (forall (dc : Dataset Q),
     (forall name a b x y,
        dc !! a = Some x -> dc !! b = Some y -> shape x = shape y ->
        nonnegative x -> nonnegative y -> nonzero_sum x y ->
        exists r,
          assign_ratio name a b a b dc = (<[name := r]> dc, inr ()) /\
          shape r = shape x /\
          forall v, v ∈ values r -> in_unit_range v) /\
     (forall n r,
        dc !! "nir" = Some n -> dc !! "red" = Some r -> shape n = shape r ->
        nonnegative n -> nonnegative r -> nonzero_sum n r ->
        exists ndvi,
          (calculate_band_indices dc).1 !! "ndvi" = Some ndvi /\
          forall v, v ∈ values ndvi -> in_unit_range v) /\
     (forall g n r,
        dc !! "green" = Some g -> dc !! "nir" = Some n ->
        dc !! "red" = Some r ->
        shape g = shape n -> shape r = shape n ->
        nonnegative g -> nonnegative n -> nonzero_sum g n ->
        exists ndwi,
          (calculate_band_indices dc).1 !! "ndwi" = Some ndwi /\
          forall v, v ∈ values ndwi -> in_unit_range v)).
Proof.
  split; intros dc; (split; [|split]).
  - intros name a b x y Ha Hb Hxy Hx Hy Hnz. exists (ratio_array x y x y).
    split; [by apply assign_ratio_ok|]. split; [done|].
    intros v Hv. by apply (binary64_ratio_values_bounded x y).
  - intros n r Hn Hr Hnr Hnn Hrn Hnz. exists (ratio_array n r n r).
    split; [by apply run_ndvi_layer|].
    intros v Hv. by apply (binary64_ratio_values_bounded n r).
  - intros g n r Hg Hn Hr Hgn Hrn Hgg Hnn Hnz. exists (ratio_array g n g n).
    split; [by eapply run_ndwi_attached|].
    intros v Hv. by apply (binary64_ratio_values_bounded g n).
  - intros name a b x y Ha Hb Hxy Hx Hy Hnz. exists (ratio_array x y x y).
    split; [by apply assign_ratio_ok|]. split; [done|].
    intros v Hv. by apply (exact_ratio_values_bounded x y).
  - intros n r Hn Hr Hnr Hnn Hrn Hnz. exists (ratio_array n r n r).
    split; [by apply run_ndvi_layer|].
    intros v Hv. by apply (exact_ratio_values_bounded n r).
  - intros g n r Hg Hn Hr Hgn Hrn Hgg Hnn Hnz. exists (ratio_array g n g n).
    split; [by eapply run_ndwi_attached|].
    intros v Hv. by apply (exact_ratio_values_bounded g n).
Qed.

Lemma nonnegative_ratio_in_unit_range_witness :
  exists ndvi,
    (calculate_band_indices timed_stack).1 !! "ndvi" = Some ndvi /\
    forall v, v ∈ values ndvi -> in_unit_range_f v = true.
Proof.
  apply (proj1 (proj2 (proj1 nonnegative_ratio_in_unit_range timed_stack))
           (mkArray [2; 1; 2]%nat [0.5; 0.4; 0.3; 0.2]%float)
           (mkArray [2; 1; 2]%nat [0.1; 0.2; 0.3; 0.1]%float));
    try reflexivity.
  - intros i xi Hi. each_sample; split; reflexivity.
  - intros i xi Hi. each_sample; split; reflexivity.
  - intros i xi yi Hx Hy. each_sample; reflexivity.
Defined.

(** C6 (as worded, refuted): [nir = 1] and [red = -1/2] have the nonzero
    sum [1/2], and [ndvi] is [3], in binary64 and in exact arithmetic. *)
Lemma negative_band_leaves_unit_range :
  ~ ratio_in_unit_range_f negative_red_stack_f "ndvi" "nir" "red" /\
  ~ ratio_in_unit_range negative_red_stack "ndvi" "nir" "red".
Proof.
  split; intros Hrange.
  - destruct (Hrange (array2d [[1%float]]) (array2d [[(-0.5)%float]]))
      as (r & Hr & Hin); try reflexivity.
    { intros i xi yi Hx Hy. each_sample; reflexivity. }
    vm_compute in Hr. injection Hr as <-.
    pose proof (Hin _ (list_elem_of_here _ _)) as Hle.
    vm_compute in Hle. discriminate Hle.
  - destruct (Hrange (array2d [[1%Q]]) (array2d [[(-1 # 2)%Q]]))
      as (r & Hr & Hin); try reflexivity.
    { intros i xi yi Hx Hy. each_sample; intros Hsum; lra. }
    vm_compute in Hr. injection Hr as <-.
    destruct (Hin _ (list_elem_of_here _ _)) as [_ Hle].
    vm_compute in Hle. by apply Hle.
Qed.

(** ** Zero denominators *)

Local Open Scope float_scope.

(** C7: where [bandA + bandB] is zero the assignment neither fails nor
    puts another value in place of the quotient: the layer holds the
    binary64 quotient [(bandA - bandB)/(bandA + bandB)] at every sample,
    and at a sample with a zero sum that quotient is an infinity or a
    NaN.  The same holds for the three layers of a complete
    [calculate_band_indices] ([mndwi] divides by [nir + swir1]). *)
Theorem zero_sum_gives_inf_or_nan (dc : Dataset float) :
  (forall name a b x y,
     dc !! a = Some x -> dc !! b = Some y -> shape x = shape y ->
     exists r,
       assign_ratio name a b a b dc = (<[name := r]> dc, inr ()) /\
       forall i xi yi,
         values x !! i = Some xi -> values y !! i = Some yi ->
         values r !! i = Some ((xi - yi) / (xi + yi)) /\
         (is_zero_f (xi + yi) = true ->
          is_inf_or_nan ((xi - yi) / (xi + yi)) = true)) /\
  (forall n r g s,
     dc !! "nir" = Some n -> dc !! "red" = Some r ->
     dc !! "green" = Some g -> dc !! "swir1" = Some s ->
     shape r = shape n -> shape g = shape n -> shape s = shape n ->
     exists dc' ndvi ndwi mndwi,
       calculate_band_indices dc = (dc', inr dc') /\
       dc' !! "ndvi" = Some ndvi /\ dc' !! "ndwi" = Some ndwi /\
       dc' !! "mndwi" = Some mndwi /\
       forall i ni ri gi si,
         values n !! i = Some ni -> values r !! i = Some ri ->
         values g !! i = Some gi -> values s !! i = Some si ->
         values ndvi !! i = Some ((ni - ri) / (ni + ri)) /\
         values ndwi !! i = Some ((gi - ni) / (gi + ni)) /\
         values mndwi !! i = Some ((gi - si) / (ni + si)) /\
         (is_zero_f (ni + ri) = true ->
          is_inf_or_nan ((ni - ri) / (ni + ri)) = true) /\
         (is_zero_f (gi + ni) = true ->
          is_inf_or_nan ((gi - ni) / (gi + ni)) = true) /\
         (is_zero_f (ni + si) = true ->
          is_inf_or_nan ((gi - si) / (ni + si)) = true)).
Proof.
  split.
  - intros name a b x y Ha Hb Hxy. exists (ratio_array x y x y).
    split; [by apply assign_ratio_ok|].
    intros i xi yi Hxi Hyi. split.
    + exact (ratio_values_lookup x y x y i xi yi xi yi Hxi Hyi Hxi Hyi).
    + apply division_by_zero.
  - intros n r g s Hn Hr Hg Hs Hrn Hgn Hsn.
    exists (with_indices dc n r g s), (ratio_array n r n r),
      (ratio_array g n g n), (ratio_array g s n s).
    split; [by apply run_ok|]. unfold with_indices.
    split; [by read_layer|]. split; [by read_layer|]. split; [by read_layer|].
    intros i ni ri gi si Hni Hri Hgi Hsi.
    split; [exact (ratio_values_lookup n r n r i _ _ _ _ Hni Hri Hni Hri)|].
    split; [exact (ratio_values_lookup g n g n i _ _ _ _ Hgi Hni Hgi Hni)|].
    split; [exact (ratio_values_lookup g s n s i _ _ _ _ Hgi Hsi Hni Hsi)|].
    repeat split; apply division_by_zero.
Qed.

Lemma zero_sum_gives_inf_or_nan_witness :
  exists ndvi,
    assign_ratio "ndvi" "nir" "red" "nir" "red" full_stack =
      (<["ndvi" := ndvi]> full_stack, inr ()) /\
    values ndvi !! 3%nat = Some ((0.2 - -0.2) / (0.2 + -0.2)) /\
    is_inf_or_nan ((0.2 - -0.2) / (0.2 + -0.2)) = true.
Proof.
  destruct (proj1 (zero_sum_gives_inf_or_nan full_stack) "ndvi" "nir" "red"
              (array2d [[0.5; 0.4]; [0.3; 0.2]])
              (array2d [[0.1; 0.2]; [0.3; -0.2]])
              eq_refl eq_refl eq_refl)
    as (ndvi & Hrun & Hat).
  exists ndvi. split; [exact Hrun|].
  destruct (Hat 3%nat 0.2 (-0.2) eq_refl eq_refl) as [Hv Hzero].
  split; [exact Hv | apply Hzero; reflexivity].
Defined.

(** ** What a complete run changes *)




Local Close Scope float_scope.

(** ** Calling twice, and what the layers depend on *)

(** C9: a second call on the stack the first call has left gives that
    stack and that outcome again, whether the first call succeeded or
    failed; each of the three assignments, whose name is none of the
    bands it reads, has the same property on its own.  The layers of the
    first call are overwritten with equal values. *)
Theorem second_call_changes_nothing
    {V : Type} {D : Dtype V} (dc : Dataset V) :
  calculate_band_indices (calculate_band_indices dc).1
    = calculate_band_indices dc /\
  assign_ratio "ndvi" "nir" "red" "nir" "red"
      (assign_ratio "ndvi" "nir" "red" "nir" "red" dc).1
    = assign_ratio "ndvi" "nir" "red" "nir" "red" dc /\
  assign_ratio "ndwi" "green" "nir" "green" "nir"
      (assign_ratio "ndwi" "green" "nir" "green" "nir" dc).1
    = assign_ratio "ndwi" "green" "nir" "green" "nir" dc /\
  assign_ratio "mndwi" "green" "swir1" "nir" "swir1"
      (assign_ratio "mndwi" "green" "swir1" "nir" "swir1" dc).1
    = assign_ratio "mndwi" "green" "swir1" "nir" "swir1" dc.
Proof.
  split; [|repeat split; apply assign_ratio_twice;
           rewrite !not_elem_of_cons; repeat split; try done;
           apply not_elem_of_nil].
  destruct (run_cases dc) as
    [(e & He & Hc)|[(n & r & e & Hn & Hr & Hnr & He & Hc)|
     [(n & r & g & e & Hn & Hr & Hg & Hnr & Hgn & He & Hc)|
      (n & r & g & s & Hn & Hr & Hg & Hs & Hrn & Hgn & Hsn & Hc)]]];
    rewrite Hc; simpl.
  - exact Hc.
  - erewrite run_fails_at_ndwi;
      [by rewrite insert_insert_eq | by read_layer.. |].
    by rewrite first_error_insert.
  - erewrite run_fails_at_mndwi; [| by read_layer.. |].
    + f_equal. apply map_eq. intros k.
      destruct (decide (k = "ndwi")) as [->|]; [by read_layer|].
      destruct (decide (k = "ndvi")) as [->|]; [by read_layer|].
      by rewrite !lookup_insert_ne.
    + by rewrite !first_error_insert.
  - erewrite run_ok; [| unfold with_indices; by read_layer.. ].
    by rewrite with_indices_twice.
Qed.

(** C10: two stacks with the same [nir], [red], [green] and [swir1]
    make the call end the same way (the same exception, or success
    twice), and each of [ndvi], [ndwi], [mndwi] is then either attached
    to both with one value or left as it was in both; after a successful
    call the three layers are attached to both with equal values.  No
    other layer, [blue] or an index attached earlier, has any effect. *)
Theorem indices_depend_on_four_bands
    {V : Type} {D : Dtype V} (dc1 dc2 : Dataset V) :
  same_bands dc1 dc2 ->
  (forall e, (calculate_band_indices dc1).2 = inl e <->
             (calculate_band_indices dc2).2 = inl e) /\
  (forall name, name ∈ index_names ->
     (exists v, (calculate_band_indices dc1).1 !! name = Some v /\
                (calculate_band_indices dc2).1 !! name = Some v) \/
     ((calculate_band_indices dc1).1 !! name = dc1 !! name /\
      (calculate_band_indices dc2).1 !! name = dc2 !! name)) /\
  (forall out name, (calculate_band_indices dc1).2 = inr out ->
     name ∈ index_names ->
     exists v, (calculate_band_indices dc1).1 !! name = Some v /\
               (calculate_band_indices dc2).1 !! name = Some v).
Proof.
  intros Hsame.
  assert (Hnir : dc1 !! "nir" = dc2 !! "nir")
    by (apply Hsame, list_elem_of_In; simpl; tauto).
  assert (Hred : dc1 !! "red" = dc2 !! "red")
    by (apply Hsame, list_elem_of_In; simpl; tauto).
  assert (Hgreen : dc1 !! "green" = dc2 !! "green")
    by (apply Hsame, list_elem_of_In; simpl; tauto).
  assert (Hswir : dc1 !! "swir1" = dc2 !! "swir1")
    by (apply Hsame, list_elem_of_In; simpl; tauto).
  assert (Hnames : forall name, name ∈ index_names ->
            name = "ndvi" \/ name = "ndwi" \/ name = "mndwi").
  { intros name Hin. names_in Hin. intuition. }
  destruct (run_cases dc1) as
    [(e & He & Hc)|[(n & r & e & Hn & Hr & Hnr & He & Hc)|
     [(n & r & g & e & Hn & Hr & Hg & Hnr & Hgn & He & Hc)|
      (n & r & g & s & Hn & Hr & Hg & Hs & Hrn & Hgn & Hsn & Hc)]]];
    rewrite Hc; simpl.
  - rewrite (run_fails_at_ndvi dc2 e)
      by (by rewrite <- (first_error_reads_bands _ _ dc1 dc2)).
    simpl. split; [done|]. split; [by right|]. intros; discriminate.
  - rewrite (run_fails_at_ndwi dc2 n r e)
      by (try congruence; by rewrite <- (first_error_reads_bands _ _ dc1 dc2)).
    simpl. split; [done|]. split; [|intros; discriminate].
    intros name [->|[->| ->]]%Hnames; read_layer; eauto.
  - rewrite (run_fails_at_mndwi dc2 n r g e)
      by (try congruence; by rewrite <- (first_error_reads_bands _ _ dc1 dc2)).
    simpl. split; [done|]. split; [|intros; discriminate].
    intros name [->|[->| ->]]%Hnames; read_layer; eauto.
  - rewrite (run_ok dc2 n r g s) by congruence.
    simpl. unfold with_indices. split; [done|]. split.
    + intros name [->|[->| ->]]%Hnames; read_layer; eauto.
    + intros out name _ [->|[->| ->]]%Hnames; read_layer; eauto.
Qed.

Lemma indices_depend_on_four_bands_witness :
  same_bands full_stack other_stack /\
  exists v, (calculate_band_indices full_stack).1 !! "mndwi" = Some v /\
            (calculate_band_indices other_stack).1 !! "mndwi" = Some v.
Proof.
  assert (Hsame : same_bands full_stack other_stack).
  { intros b Hb. names_in Hb.
    destruct Hb as [<-|[<-|[<-|[<-|[]]]]]; reflexivity. }
  split; [exact Hsame|].
  eapply (proj2 (proj2
            (indices_depend_on_four_bands full_stack other_stack Hsame)));
    [reflexivity | apply list_elem_of_In; simpl; tauto].
Defined.

(** * The cells of the notebook that use the function *)

(** ** Expressions and calls *)

Section Expressions.
Context {V : Type} {D : Dtype V}.
Implicit Types (dc : Dataset V) (a b : DataArray V).

Lemma array_minus_same_shape a b :
  shape a = shape b ->
  array_minus a b =
    inr (mkArray (shape a) (zip_with vsub (values a) (values b))).
Proof.
  intros Hab. unfold array_minus, reading, elementwise.
  by rewrite decide_True.
Qed.

Lemma reading_getattr name dc :
  reading (getattr name) dc =
    match dc !! name with
    | Some a => inr a
    | None => inl (Raised (MissingBand name))
    end.
Proof. unfold reading, getattr. by destruct (dc !! name). Qed.

End Expressions.

Section Calls.
Context {V : Type} {D : Dtype V}.
Implicit Types (dc : Dataset V) (a b : DataArray V) (k : Cubes V).

(** A second call changes nothing. *)
Lemma calculate_band_indices_twice dc :
  calculate_band_indices (calculate_band_indices dc).1
  = calculate_band_indices dc.
Proof.
  destruct (run_cases dc) as
    [(e & He & Hc)|[(n & r & e & Hn & Hr & Hnr & He & Hc)|
     [(n & r & g & e & Hn & Hr & Hg & Hnr & Hgn & He & Hc)|
      (n & r & g & s & Hn & Hr & Hg & Hs & Hrn & Hgn & Hsn & Hc)]]];
    rewrite Hc; simpl.
  - exact Hc.
  - erewrite run_fails_at_ndwi;
      [by rewrite insert_insert_eq | by read_layer.. |].
    by rewrite first_error_insert.
  - erewrite run_fails_at_mndwi; [| by read_layer.. |].
    + f_equal. apply map_eq. intros j.
      destruct (decide (j = "ndwi")) as [->|]; [by read_layer|].
      destruct (decide (j = "ndvi")) as [->|]; [by read_layer|].
      by rewrite !lookup_insert_ne.
    + by rewrite !first_error_insert.
  - erewrite run_ok; [| unfold with_indices; by read_layer.. ].
    by rewrite with_indices_twice.
Qed.

(** A call that returns gives back the stack as it has left it, and has
    found the four bands. *)
Lemma calculate_band_indices_returns_self dc dc' out :
  calculate_band_indices dc = (dc', inr out) ->
  out = dc' /\ forall band, band ∈ band_names -> is_Some (dc !! band).
Proof.
  intros Hrun.
  destruct (run_cases dc) as
    [(e & _ & Hc)|[(n & r & e & _ & _ & _ & _ & Hc)|
     [(n & r & g & e & _ & _ & _ & _ & _ & _ & Hc)|
      (n & r & g & s & Hn & Hr & Hg & Hs & Hrn & Hgn & Hsn & Hc)]]];
    rewrite Hc in Hrun; simplify_eq.
  split; [done|].
  intros band [->|[->|[->| ->]]]%band_names_elem; eauto.
Qed.

End Calls.

(** ** The cell of the two calls *)

Section BothLevels.
Context {V : Type} {D : Dtype V}.
Implicit Types (dc : Dataset V) (a b : DataArray V) (k : Cubes V).

Lemma both_levels_unfold k :
  calculate_both_levels k =
    match calculate_band_indices (data_cube_level1 k) with
    | (d1, inl e) => (mkCubes d1 (data_cube_level2 k), inl e)
    | (d1, inr o1) =>
        match calculate_band_indices (data_cube_level2 k) with
        | (d2, inl e) => (mkCubes d1 d2, inl e)
        | (d2, inr o2) => (mkCubes d1 d2, inr (o1, o2))
        end
    end.
Proof.
  unfold calculate_both_levels, mbind, Py_bind, on_level1, on_level2, mret,
    Py_ret.
  destruct (calculate_band_indices (data_cube_level1 k)) as [d1 [e|o1]];
    simpl; [done|].
  by destruct (calculate_band_indices (data_cube_level2 k)) as [d2 [e|o2]].
Qed.

(** X1: the cell of the two calls runs them in order, each on its own
    cube.  On bands of one shape, a level-1 cube that lacks a band makes
    the cell raise at the first call, for an absent band, and the
    level-2 cube stays as it was loaded; when the level-1 cube has its
    four bands and the level-2 cube lacks one, the cell raises at the
    second call, with the three layers attached to the level-1 cube;
    when both cubes have their four bands the cell succeeds and each
    cube holds the three layers of its own bands.  The cell succeeds
    only if both cubes hold the four bands, and [dc_level1],
    [dc_level2] are then the two cubes as the cell has left them. *)
Theorem level2_waits_for_level1 k :
  (one_shape (data_cube_level1 k) -> lacks_band (data_cube_level1 k) ->
     exists band,
       data_cube_level1 k !! band = None /\
       calculate_both_levels k =
         (mkCubes (calculate_band_indices (data_cube_level1 k)).1
                  (data_cube_level2 k), inl (MissingBand band))) /\
  (forall n r g s,
     has_bands (data_cube_level1 k) n r g s ->
     one_shape (data_cube_level2 k) -> lacks_band (data_cube_level2 k) ->
     exists band,
       data_cube_level2 k !! band = None /\
       calculate_both_levels k =
         (mkCubes (with_indices (data_cube_level1 k) n r g s)
                  (calculate_band_indices (data_cube_level2 k)).1,
          inl (MissingBand band))) /\
  (forall n1 r1 g1 s1 n2 r2 g2 s2,
     has_bands (data_cube_level1 k) n1 r1 g1 s1 ->
     has_bands (data_cube_level2 k) n2 r2 g2 s2 ->
     calculate_both_levels k =
       (mkCubes (with_indices (data_cube_level1 k) n1 r1 g1 s1)
                (with_indices (data_cube_level2 k) n2 r2 g2 s2),
        inr (with_indices (data_cube_level1 k) n1 r1 g1 s1,
             with_indices (data_cube_level2 k) n2 r2 g2 s2))) /\
  (forall k' dc_level1 dc_level2,
     calculate_both_levels k = (k', inr (dc_level1, dc_level2)) ->
     dc_level1 = data_cube_level1 k' /\ dc_level2 = data_cube_level2 k' /\
     forall band, band ∈ band_names ->
       is_Some (data_cube_level1 k !! band) /\
       is_Some (data_cube_level2 k !! band)).
Proof.
  rewrite both_levels_unfold. split; [|split; [|split]].
  - intros Hone Hlacks.
    destruct (lacks_band_reported _ Hone Hlacks) as (band & Hnone & _ & Hrun).
    exists band. split; [done|]. by rewrite Hrun.
  - intros n r g s (Hn & Hr & Hg & Hs & Hrn & Hgn & Hsn) Hone Hlacks.
    destruct (lacks_band_reported _ Hone Hlacks) as (band & Hnone & _ & Hrun).
    exists band. split; [done|].
    rewrite (run_ok (data_cube_level1 k) n r g s) by done. by rewrite Hrun.
  - intros n1 r1 g1 s1 n2 r2 g2 s2 (?&?&?&?&?&?&?) (?&?&?&?&?&?&?).
    rewrite (run_ok (data_cube_level1 k) n1 r1 g1 s1) by done.
    by rewrite (run_ok (data_cube_level2 k) n2 r2 g2 s2) by done.
  - intros k' dc_level1 dc_level2.
    destruct (calculate_band_indices (data_cube_level1 k))
      as [d1 [e|o1]] eqn:H1; [intros; simplify_eq|].
    destruct (calculate_band_indices (data_cube_level2 k))
      as [d2 [e|o2]] eqn:H2; [intros; simplify_eq|].
    apply calculate_band_indices_returns_self in H1 as [-> Hb1].
    apply calculate_band_indices_returns_self in H2 as [-> Hb2].
    intros; simplify_eq. simpl. repeat split; auto.
Qed.

(** X2: running the cell of the two calls again on the cubes it has
    left gives the same cubes and the same outcome, whether it succeeded
    or raised. *)
Theorem both_levels_rerun k :
  calculate_both_levels (calculate_both_levels k).1 = calculate_both_levels k.
Proof.
  rewrite (both_levels_unfold k).
  destruct (calculate_band_indices (data_cube_level1 k))
    as [d1 [e|o1]] eqn:H1.
  - rewrite both_levels_unfold. simpl.
    pose proof (calculate_band_indices_twice (data_cube_level1 k)) as Ht.
    rewrite H1 in Ht. simpl in Ht. by rewrite Ht.
  - pose proof (calculate_band_indices_twice (data_cube_level1 k)) as Ht1.
    rewrite H1 in Ht1. simpl in Ht1.
    pose proof (calculate_band_indices_twice (data_cube_level2 k)) as Ht2.
    destruct (calculate_band_indices (data_cube_level2 k))
      as [d2 [e|o2]] eqn:H2; simpl in Ht2;
      rewrite both_levels_unfold; simpl; by rewrite Ht1, Ht2.
Qed.

Lemma calculate_band_indices_frame dc name :
  name ∉ index_names ->
  (calculate_band_indices dc).1 !! name = dc !! name.
Proof.
  intros Hname.
  assert (name <> "ndvi" /\ name <> "ndwi" /\ name <> "mndwi")
    as (Hv & Hw & Hm).
  { unfold index_names in Hname. rewrite !not_elem_of_cons in Hname. tauto. }
  destruct (run_cases dc) as
    [(e & _ & Hc)|[(n & r & e & _ & _ & _ & _ & Hc)|
     [(n & r & g & e & _ & _ & _ & _ & _ & _ & Hc)|
      (n & r & g & s & _ & _ & _ & _ & _ & _ & _ & Hc)]]];
    rewrite Hc; simpl; unfold with_indices;
    by rewrite ?lookup_insert_ne by done.
Qed.

(** X3: whatever its outcome, the cell of the two calls leaves every
    layer of either cube whose name is none of [ndvi], [ndwi], [mndwi]
    as it was: it neither changes nor removes a band. *)
Theorem both_levels_frame k name :
  name ∉ index_names ->
  data_cube_level1 (calculate_both_levels k).1 !! name
    = data_cube_level1 k !! name /\
  data_cube_level2 (calculate_both_levels k).1 !! name
    = data_cube_level2 k !! name.
Proof.
  intros Hname.
  pose proof (calculate_band_indices_frame (data_cube_level1 k) name Hname)
    as H1.
  pose proof (calculate_band_indices_frame (data_cube_level2 k) name Hname)
    as H2.
  rewrite both_levels_unfold.
  destruct (calculate_band_indices (data_cube_level1 k)) as [d1 [e|o1]];
    [done|].
  by destruct (calculate_band_indices (data_cube_level2 k)) as [d2 [e|o2]].
Qed.

End BothLevels.

(** ** Time slices *)

Section Slices.
Context {V : Type} {D : Dtype V}.
Implicit Types (dc : Dataset V) (a b x y z : DataArray V) (t h w : nat).

Lemma sample_count_slice (h w : nat) : sample_count [h; w] = (h * w)%nat.
Proof. unfold sample_count. simpl. lia. Qed.

Lemma sample_count_cube (t h w : nat) :
  sample_count [t; h; w] = (t * (h * w))%nat.
Proof. unfold sample_count. simpl. lia. Qed.

Lemma time_step_lt k t : in_time k t -> (time_step k t < t)%nat.
Proof.
  unfold in_time, time_step. intros Hk.
  assert (0 < Z.of_nat t)%Z by lia.
  pose proof (Z.mod_pos_bound k (Z.of_nat t) H). lia.
Qed.

Lemma isel_time_in a k t h w :
  shape a = [t; h; w] -> in_time k t ->
  isel_time k a =
    inr (mkArray [h; w]
           (take (h * w) (drop (time_step k t * (h * w)) (values a)))).
Proof.
  unfold isel_time, in_time, time_step. intros -> Hk.
  rewrite decide_True by done. simpl.
  replace (k `mod` Z.of_nat t)%Z
    with (if decide (k < 0)%Z then (k + Z.of_nat t)%Z else k); [done|].
  case_decide.
  - apply Z.mod_unique with (-1)%Z; lia.
  - by rewrite Z.mod_small by lia.
Qed.

Lemma isel_time_out a k t h w :
  shape a = [t; h; w] -> ~ in_time k t -> isel_time k a = inl IndexError.
Proof.
  unfold isel_time, in_time. intros -> Hk. by rewrite decide_False.
Qed.

Lemma isel_time_inv a k a' :
  isel_time k a = inr a' ->
  exists t h w,
    shape a = [t; h; w] /\ in_time k t /\
    a' = mkArray [h; w]
           (take (h * w) (drop (time_step k t * (h * w)) (values a))).
Proof.
  intros Hsel.
  destruct (shape a) as [|t [|h [|w [|]]]] eqn:Hs;
    try (unfold isel_time in Hsel; rewrite Hs in Hsel; discriminate Hsel).
  destruct (decide (in_time k t)) as [Hk|Hk].
  - rewrite (isel_time_in a k t h w Hs Hk) in Hsel. simplify_eq.
    by exists t, h, w.
  - rewrite (isel_time_out a k t h w Hs Hk) in Hsel. discriminate.
Qed.

(** A slice of a well-formed array: its samples, and their number. *)
Lemma slice_lookup a i t h w j :
  shape a = [t; h; w] -> well_formed a -> (i < t)%nat -> (j < h * w)%nat ->
  exists v,
    values a !! (i * (h * w) + j)%nat = Some v /\
    take (h * w) (drop (i * (h * w)) (values a)) !! j = Some v.
Proof.
  unfold well_formed. intros Hs Hwf Hi Hj.
  rewrite Hs, sample_count_cube in Hwf.
  assert (Hlt : (i * (h * w) + j < length (values a))%nat) by nia.
  apply lookup_lt_is_Some in Hlt as [v Hv]. exists v. split; [done|].
  by rewrite lookup_take_lt, lookup_drop.
Qed.

Lemma slice_length a i t h w :
  shape a = [t; h; w] -> well_formed a -> (i < t)%nat ->
  length (take (h * w) (drop (i * (h * w)) (values a))) = (h * w)%nat.
Proof.
  unfold well_formed. intros Hs Hwf Hi.
  rewrite Hs, sample_count_cube in Hwf.
  rewrite length_take, length_drop. nia.
Qed.

(** Selecting a time slice of [(x - y)/(z + w)] is computing the ratio
    on the slices. *)
Lemma isel_time_ratio x y z (u : DataArray V) k x' y' z' u' :
  shape y = shape x -> shape z = shape x -> shape u = shape x ->
  isel_time k x = inr x' -> isel_time k y = inr y' ->
  isel_time k z = inr z' -> isel_time k u = inr u' ->
  isel_time k (ratio_array x y z u) = inr (ratio_array x' y' z' u').
Proof.
  intros Hy Hz Hu Hx' Hy' Hz' Hu'.
  apply isel_time_inv in Hx' as (t & h & w & Hs & Hk & ->).
  rewrite (isel_time_in y k t h w) in Hy' by congruence.
  rewrite (isel_time_in z k t h w) in Hz' by congruence.
  rewrite (isel_time_in u k t h w) in Hu' by congruence.
  simplify_eq.
  rewrite (isel_time_in (ratio_array x y z u) k t h w) by done.
  unfold ratio_array, ratio_values. simpl.
  by rewrite !zip_with_drop, !zip_with_take.
Qed.

End Slices.

(** ** The difference of two slices *)

Section DifferenceFacts.
Context {V : Type} {D : Dtype V}.
Implicit Types (dc : Dataset V) (a b x y z : DataArray V) (t h w : nat).

Lemma index_difference_unfold name dc2 dc1 k2 k1 a2 a1 :
  dc2 !! name = Some a2 -> dc1 !! name = Some a1 ->
  index_difference name dc2 dc1 k2 k1 =
    match isel_time k2 a2 with
    | inl e => inl e
    | inr s2 =>
        match isel_time k1 a1 with
        | inl e => inl e
        | inr s1 => array_minus s2 s1
        end
    end.
Proof.
  intros H2 H1. unfold index_difference.
  rewrite !reading_getattr, H2, H1. reflexivity.
Qed.

Lemma index_difference_in name dc2 dc1 a2 a1 t2 t1 h w k2 k1 :
  dc2 !! name = Some a2 -> dc1 !! name = Some a1 ->
  shape a2 = [t2; h; w] -> shape a1 = [t1; h; w] ->
  in_time k2 t2 -> in_time k1 t1 ->
  index_difference name dc2 dc1 k2 k1 =
    inr (mkArray [h; w]
           (zip_with vsub
              (take (h * w) (drop (time_step k2 t2 * (h * w)) (values a2)))
              (take (h * w) (drop (time_step k1 t1 * (h * w)) (values a1))))).
Proof.
  intros H2 H1 Hs2 Hs1 Hk2 Hk1.
  rewrite (index_difference_unfold name dc2 dc1 k2 k1 a2 a1 H2 H1).
  rewrite (isel_time_in a2 k2 t2 h w Hs2 Hk2).
  rewrite (isel_time_in a1 k1 t1 h w Hs1 Hk1).
  by rewrite array_minus_same_shape.
Qed.

Lemma index_difference_out name dc2 dc1 a2 a1 t2 t1 h w k2 k1 :
  dc2 !! name = Some a2 -> dc1 !! name = Some a1 ->
  shape a2 = [t2; h; w] -> shape a1 = [t1; h; w] ->
  ~ in_time k2 t2 \/ ~ in_time k1 t1 ->
  index_difference name dc2 dc1 k2 k1 = inl IndexError.
Proof.
  intros H2 H1 Hs2 Hs1 Hout.
  rewrite (index_difference_unfold name dc2 dc1 k2 k1 a2 a1 H2 H1).
  destruct (decide (in_time k2 t2)) as [Hk2|Hk2].
  - rewrite (isel_time_in a2 k2 t2 h w Hs2 Hk2).
    destruct Hout as [?|Hk1]; [done|].
    by rewrite (isel_time_out a1 k1 t1 h w Hs1 Hk1).
  - by rewrite (isel_time_out a2 k2 t2 h w Hs2 Hk2).
Qed.

(** The samples of a difference of two slices. *)
Lemma slice_difference_lookup a2 a1 t2 t1 h w i2 i1 j :
  shape a2 = [t2; h; w] -> shape a1 = [t1; h; w] ->
  well_formed a2 -> well_formed a1 ->
  (i2 < t2)%nat -> (i1 < t1)%nat -> (j < h * w)%nat ->
  exists v2 v1,
    values a2 !! (i2 * (h * w) + j)%nat = Some v2 /\
    values a1 !! (i1 * (h * w) + j)%nat = Some v1 /\
    zip_with vsub (take (h * w) (drop (i2 * (h * w)) (values a2)))
                  (take (h * w) (drop (i1 * (h * w)) (values a1))) !! j
      = Some (vsub v2 v1).
Proof.
  intros Hs2 Hs1 Hw2 Hw1 Hi2 Hi1 Hj.
  destruct (slice_lookup a2 _ t2 h w j Hs2 Hw2 Hi2 Hj) as (v2 & Hv2 & Hl2).
  destruct (slice_lookup a1 _ t1 h w j Hs1 Hw1 Hi1 Hj) as (v1 & Hv1 & Hl1).
  exists v2, v1. split; [done|]. split; [done|].
  by rewrite lookup_zip_with, Hl2, Hl1.
Qed.

(** X4: for layers [name] of the shapes (t2, h, w) and (t1, h, w),
    [dc_level2.name.isel(time=k2) - dc_level1.name.isel(time=k1)] has
    the shape (h, w) when [-t2 <= k2 < t2] and [-t1 <= k1 < t1]; on
    arrays with as many samples as their shapes say it has [h * w]
    samples, the one at position [j] being the sample of the level-2
    slice [k2 mod t2] minus that of the level-1 slice [k1 mod t1] at
    [j].  An index out of its range raises [IndexError]. *)
Theorem difference_of_time_slices name dc2 dc1 a2 a1 t2 t1 h w k2 k1 :
  dc2 !! name = Some a2 -> dc1 !! name = Some a1 ->
  shape a2 = [t2; h; w] -> shape a1 = [t1; h; w] ->
  (in_time k2 t2 -> in_time k1 t1 ->
     exists d,
       index_difference name dc2 dc1 k2 k1 = inr d /\
       shape d = [h; w] /\
       (well_formed a2 -> well_formed a1 ->
          well_formed d /\
          forall j, (j < h * w)%nat ->
            exists v2 v1,
              values a2 !! (time_step k2 t2 * (h * w) + j)%nat = Some v2 /\
              values a1 !! (time_step k1 t1 * (h * w) + j)%nat = Some v1 /\
              values d !! j = Some (vsub v2 v1))) /\
  (~ in_time k2 t2 -> index_difference name dc2 dc1 k2 k1 = inl IndexError) /\
  (~ in_time k1 t1 -> index_difference name dc2 dc1 k2 k1 = inl IndexError).
Proof.
  intros H2 H1 Hs2 Hs1. split; [|split].
  - intros Hk2 Hk1.
    rewrite (index_difference_in name dc2 dc1 a2 a1 t2 t1 h w k2 k1) by done.
    eexists. split; [done|]. split; [done|]. intros Hw2 Hw1.
    pose proof (time_step_lt k2 t2 Hk2) as Hi2.
    pose proof (time_step_lt k1 t1 Hk1) as Hi1.
    split.
    + unfold well_formed. cbn [values shape].
      rewrite length_zip_with.
      rewrite (slice_length a2 _ t2), (slice_length a1 _ t1) by done.
      rewrite sample_count_slice. lia.
    + intros j Hj. cbn [values].
      by apply (slice_difference_lookup a2 a1 t2 t1 h w).
  - intros Hk2. apply (index_difference_out name dc2 dc1 a2 a1 t2 t1 h w); auto.
  - intros Hk1. apply (index_difference_out name dc2 dc1 a2 a1 t2 t1 h w); auto.
Qed.

(** The layers of a complete run, by name. *)
Lemma with_indices_layers dc n r g s :
  with_indices dc n r g s !! "ndvi" = Some (ratio_array n r n r) /\
  with_indices dc n r g s !! "ndwi" = Some (ratio_array g n g n) /\
  with_indices dc n r g s !! "mndwi" = Some (ratio_array g s n s).
Proof. unfold with_indices. repeat split; by read_layer. Qed.

Lemma has_bands_run dc n r g s :
  has_bands dc n r g s ->
  calculate_band_indices dc =
    (with_indices dc n r g s, inr (with_indices dc n r g s)).
Proof. intros (?&?&?&?&?&?&?). by apply run_ok. Qed.

(** X5: selecting a time slice commutes with the index formulas.  On
    two stacks whose four bands have one shape each, the difference of
    the [ndvi] (of the [ndwi], of the [mndwi]) layers that
    [calculate_band_indices] attaches, at the slices [k2] and [k1], is
    the difference of the quotients computed on the slices [k2] and [k1]
    of the bands alone. *)
Theorem differences_from_band_slices dc2 dc1 k2 k1
    n2 r2 g2 s2 n1 r1 g1 s1 n2' r2' g2' s2' n1' r1' g1' s1' :
  has_bands dc2 n2 r2 g2 s2 -> has_bands dc1 n1 r1 g1 s1 ->
  isel_time k2 n2 = inr n2' -> isel_time k2 r2 = inr r2' ->
  isel_time k2 g2 = inr g2' -> isel_time k2 s2 = inr s2' ->
  isel_time k1 n1 = inr n1' -> isel_time k1 r1 = inr r1' ->
  isel_time k1 g1 = inr g1' -> isel_time k1 s1 = inr s1' ->
  index_difference "ndvi" (calculate_band_indices dc2).1
      (calculate_band_indices dc1).1 k2 k1
    = array_minus (ratio_array n2' r2' n2' r2') (ratio_array n1' r1' n1' r1') /\
  index_difference "ndwi" (calculate_band_indices dc2).1
      (calculate_band_indices dc1).1 k2 k1
    = array_minus (ratio_array g2' n2' g2' n2') (ratio_array g1' n1' g1' n1') /\
  index_difference "mndwi" (calculate_band_indices dc2).1
      (calculate_band_indices dc1).1 k2 k1
    = array_minus (ratio_array g2' s2' n2' s2') (ratio_array g1' s1' n1' s1').
Proof.
  intros Hb2 Hb1 Hn2 Hr2 Hg2 Hs2 Hn1 Hr1 Hg1 Hs1.
  rewrite (has_bands_run dc2 n2 r2 g2 s2 Hb2).
  rewrite (has_bands_run dc1 n1 r1 g1 s1 Hb1). simpl.
  destruct (with_indices_layers dc2 n2 r2 g2 s2) as (Hv2 & Hw2 & Hm2).
  destruct (with_indices_layers dc1 n1 r1 g1 s1) as (Hv1 & Hw1 & Hm1).
  destruct Hb2 as (_ & _ & _ & _ & Hrn2 & Hgn2 & Hsn2).
  destruct Hb1 as (_ & _ & _ & _ & Hrn1 & Hgn1 & Hsn1).
  repeat split.
  - rewrite (index_difference_unfold _ _ _ _ _ _ _ Hv2 Hv1).
    rewrite (isel_time_ratio n2 r2 n2 r2 k2 n2' r2' n2' r2') by done.
    by rewrite (isel_time_ratio n1 r1 n1 r1 k1 n1' r1' n1' r1') by done.
  - rewrite (index_difference_unfold _ _ _ _ _ _ _ Hw2 Hw1).
    rewrite (isel_time_ratio g2 n2 g2 n2 k2 g2' n2' g2' n2')
      by (done || congruence).
    by rewrite (isel_time_ratio g1 n1 g1 n1 k1 g1' n1' g1' n1')
      by (done || congruence).
  - rewrite (index_difference_unfold _ _ _ _ _ _ _ Hm2 Hm1).
    rewrite (isel_time_ratio g2 s2 n2 s2 k2 g2' s2' n2' s2')
      by (done || congruence).
    by rewrite (isel_time_ratio g1 s1 n1 s1 k1 g1' s1' n1' s1')
      by (done || congruence).
Qed.

(** X6: after the cell of the two calls has succeeded on cubes of
    the shapes (t1, h, w) and (t2, h, w), the three difference cells,
    with the plot indices 4 (level 1) and 3 (level 2) of the notebook,
    give arrays of the shape (h, w) when the level-2 cube has at least 4
    time slices and the level-1 cube at least 5, and raise
    [IndexError] otherwise. *)
Theorem differences_need_time_steps (k : Cubes V)
    n2 r2 g2 s2 n1 r1 g1 s1 t2 t1 h w k' dc_level1 dc_level2 :
  has_bands (data_cube_level2 k) n2 r2 g2 s2 ->
  has_bands (data_cube_level1 k) n1 r1 g1 s1 ->
  shape n2 = [t2; h; w] -> shape n1 = [t1; h; w] ->
  calculate_both_levels k = (k', inr (dc_level1, dc_level2)) ->
  ((4 <= t2)%nat /\ (5 <= t1)%nat ->
     exists dv dw dm,
       ndvi_diff dc_level2 dc_level1 = inr dv /\
       ndwi_diff dc_level2 dc_level1 = inr dw /\
       mndwi_diff dc_level2 dc_level1 = inr dm /\
       shape dv = [h; w] /\ shape dw = [h; w] /\ shape dm = [h; w]) /\
  (~ ((4 <= t2)%nat /\ (5 <= t1)%nat) ->
     ndvi_diff dc_level2 dc_level1 = inl IndexError /\
     ndwi_diff dc_level2 dc_level1 = inl IndexError /\
     mndwi_diff dc_level2 dc_level1 = inl IndexError).
Proof.
  intros Hb2 Hb1 Hs2 Hs1 Hrun.
  rewrite both_levels_unfold in Hrun.
  rewrite (has_bands_run _ _ _ _ _ Hb2), (has_bands_run _ _ _ _ _ Hb1) in Hrun.
  simplify_eq.
  destruct (with_indices_layers (data_cube_level2 k) n2 r2 g2 s2)
    as (Hv2 & Hw2 & Hm2).
  destruct (with_indices_layers (data_cube_level1 k) n1 r1 g1 s1)
    as (Hv1 & Hw1 & Hm1).
  destruct Hb2 as (_ & _ & _ & _ & Hrn2 & Hgn2 & Hsn2).
  destruct Hb1 as (_ & _ & _ & _ & Hrn1 & Hgn1 & Hsn1).
  assert (Hin : (4 <= t2)%nat /\ (5 <= t1)%nat <->
                in_time dc_level2_plotindex t2 /\
                in_time dc_level1_plotindex t1).
  { unfold in_time, dc_level2_plotindex, dc_level1_plotindex. lia. }
  unfold ndvi_diff, ndwi_diff, mndwi_diff.
  assert (Hsg2 : shape (ratio_array g2 n2 g2 n2) = [t2; h; w])
    by (simpl; congruence).
  assert (Hsg1 : shape (ratio_array g1 n1 g1 n1) = [t1; h; w])
    by (simpl; congruence).
  assert (Hsm2 : shape (ratio_array g2 s2 n2 s2) = [t2; h; w])
    by (simpl; congruence).
  assert (Hsm1 : shape (ratio_array g1 s1 n1 s1) = [t1; h; w])
    by (simpl; congruence).
  split.
  - intros [Hk2 Hk1]%Hin.
    rewrite (index_difference_in "ndvi" _ _ _ _ t2 t1 h w _ _ Hv2 Hv1) by done.
    rewrite (index_difference_in "ndwi" _ _ _ _ t2 t1 h w _ _ Hw2 Hw1) by done.
    rewrite (index_difference_in "mndwi" _ _ _ _ t2 t1 h w _ _ Hm2 Hm1) by done.
    by eexists _, _, _.
  - intros Hout.
    assert (Hor : ~ in_time dc_level2_plotindex t2 \/
                  ~ in_time dc_level1_plotindex t1).
    { destruct (decide (in_time dc_level2_plotindex t2)); [|by left].
      right. intros ?. apply Hout, Hin. done. }
    rewrite (index_difference_out "ndvi" _ _ _ _ t2 t1 h w _ _ Hv2 Hv1) by done.
    rewrite (index_difference_out "ndwi" _ _ _ _ t2 t1 h w _ _ Hw2 Hw1) by done.
    by rewrite (index_difference_out "mndwi" _ _ _ _ t2 t1 h w _ _ Hm2 Hm1)
      by done.
Qed.

End DifferenceFacts.

(** ** Arrays with as many samples as their shape says *)

Section WellFormed.
Context {V : Type} {D : Dtype V}.
Implicit Types (dc : Dataset V) (a b x y z : DataArray V).

Lemma ratio_array_well_formed x y z (u : DataArray V) :
  shape y = shape x -> shape z = shape x -> shape u = shape x ->
  well_formed x -> well_formed y -> well_formed z -> well_formed u ->
  well_formed (ratio_array x y z u).
Proof.
  unfold well_formed, ratio_array, ratio_values. cbn [values shape].
  intros Hy Hz Hu Hwx Hwy Hwz Hwu. rewrite !length_zip_with.
  rewrite Hwx, Hwy, Hwz, Hwu, Hy, Hz, Hu. lia.
Qed.

Lemma insert_well_formed dc name a :
  well_formed a ->
  (forall k b, dc !! k = Some b -> well_formed b) ->
  forall k b, <[name := a]> dc !! k = Some b -> well_formed b.
Proof.
  intros Ha Hdc k b.
  destruct (decide (k = name)) as [->|Hne].
  - rewrite lookup_insert_eq. by intros [= <-].
  - rewrite lookup_insert_ne by done. apply Hdc.
Qed.

(** X7: when every layer of the stack has as many samples as its
    shape says, so has every layer of the stack that
    [calculate_band_indices] leaves, after a success or after a
    failure. *)
Theorem calculate_band_indices_keeps_well_formed dc :
  (forall name a, dc !! name = Some a -> well_formed a) ->
  forall name a,
    (calculate_band_indices dc).1 !! name = Some a -> well_formed a.
Proof.
  intros Hdc.
  destruct (run_cases dc) as
    [(e & He & Hc)|[(n & r & e & Hn & Hr & Hnr & He & Hc)|
     [(n & r & g & e & Hn & Hr & Hg & Hnr & Hgn & He & Hc)|
      (n & r & g & s & Hn & Hr & Hg & Hs & Hrn & Hgn & Hsn & Hc)]]];
    rewrite Hc; simpl.
  - exact Hdc.
  - apply insert_well_formed; [|exact Hdc].
    apply ratio_array_well_formed; eauto.
  - apply insert_well_formed; [|apply insert_well_formed; [|exact Hdc]];
      apply ratio_array_well_formed; eauto; congruence.
  - unfold with_indices.
    apply insert_well_formed;
      [|apply insert_well_formed; [|apply insert_well_formed; [|exact Hdc]]];
      apply ratio_array_well_formed; eauto; congruence.
Qed.

End WellFormed.

(** ** Exact arithmetic: the three quotients *)

Lemma exact_positive_sum (a b : Q) :
  (0 <= a)%Q -> (0 <= b)%Q -> ~ (a + b == 0)%Q -> (0 < a + b)%Q.
Proof.
  intros Ha Hb Hnz.
  destruct (Qlt_le_dec 0 (a + b)) as [Hlt|Hle]; [exact Hlt|].
  exfalso. apply Hnz. lra.
Qed.

Lemma exact_quotient_times (a c : Q) : ~ (c == 0)%Q -> (a / c * c == a)%Q.
Proof. intros Hc. field. exact Hc. Qed.

Lemma exact_quotient_le (a c b : Q) :
  (0 < c)%Q -> (a / c <= b <-> a <= b * c)%Q.
Proof.
  intros Hc. split; intros H.
  - rewrite <- (exact_quotient_times a c) by lra.
    apply Qmult_le_compat_r; lra.
  - apply Qle_shift_div_r; assumption.
Qed.

Lemma exact_quotient_lt (a c : Q) :
  (0 < c)%Q -> (0 < a / c <-> 0 < a)%Q.
Proof.
  intros Hc. split; intros H.
  - rewrite <- (exact_quotient_times a c) by lra.
    apply Qmult_lt_0_compat; assumption.
  - apply Qlt_shift_div_l; [assumption|lra].
Qed.

Lemma exact_mndwi_bounds (g n s : Q) :
  (0 <= g)%Q -> (0 <= n)%Q -> (0 <= s)%Q -> ~ (n + s == 0)%Q ->
  (-1 <= vdiv (vsub g s) (vadd n s) /\
   (vdiv (vsub g s) (vadd n s) <= 1 <-> g <= n + 2 * s))%Q.
Proof.
  intros Hg Hn Hs Hnz. simpl.
  pose proof (exact_positive_sum n s Hn Hs Hnz) as Hpos.
  split.
  - apply Qle_shift_div_l; [exact Hpos|lra].
  - rewrite exact_quotient_le by exact Hpos. split; intros; lra.
Qed.

Lemma exact_mndwi_agreement (g n s : Q) :
  ~ (n + s == 0)%Q -> ~ (g + s == 0)%Q ->
  (vdiv (vsub g s) (vadd n s) == (g - s) / (g + s) <-> g == s \/ n == g)%Q.
Proof.
  intros Hns Hgs. simpl. split.
  - intros Heq.
    assert (Hprod : ((g - s) * (g - n) == 0)%Q).
    { assert (H1 : ((g - s) / (n + s) * ((n + s) * (g + s))
                    == (g - s) * (g + s))%Q) by (field; exact Hns).
      assert (H2 : ((g - s) / (g + s) * ((n + s) * (g + s))
                    == (g - s) * (n + s))%Q) by (field; exact Hgs).
      rewrite Heq in H1. rewrite H1 in H2. lra. }
    apply Qmult_integral in Hprod as [H|H]; [left|right]; lra.
  - intros [H|H].
    + assert (Hz : (g - s == 0)%Q) by lra.
      rewrite Hz. unfold Qdiv. by rewrite !Qmult_0_l.
    + assert (Hd : (n + s == g + s)%Q) by lra. by rewrite Hd.
Qed.

Lemma exact_ratio_scaled (c a b x y : Q) :
  ~ (c == 0)%Q -> ~ (x + y == 0)%Q ->
  (vdiv (vsub (c * a) (c * b)) (vadd (c * x) (c * y))
   == vdiv (vsub a b) (vadd x y))%Q.
Proof.
  intros Hc Hxy. simpl. field. split; [assumption|].
  intros Hz. assert (Hp : (c * (x + y) == 0)%Q) by lra.
  apply Qmult_integral in Hp as [H|H]; auto.
Qed.

Lemma exact_ratio_sign (a b x y : Q) :
  (0 <= x)%Q -> (0 <= y)%Q -> ~ (x + y == 0)%Q ->
  (0 < vdiv (vsub a b) (vadd x y) <-> b < a)%Q.
Proof.
  intros Hx Hy Hnz. simpl.
  rewrite exact_quotient_lt by (by apply exact_positive_sum).
  split; intros; lra.
Qed.

(** ** Exact arithmetic: the layers *)

Lemma has_bands_layers {V} {D : Dtype V} (dc : Dataset V) n r g s :
  has_bands dc n r g s ->
  exists dc',
    calculate_band_indices dc = (dc', inr dc') /\
    dc' !! "ndvi" = Some (ratio_array n r n r) /\
    dc' !! "ndwi" = Some (ratio_array g n g n) /\
    dc' !! "mndwi" = Some (ratio_array g s n s).
Proof.
  intros Hb. exists (with_indices dc n r g s).
  split; [by apply has_bands_run|]. apply with_indices_layers.
Qed.

(** X8: in exact arithmetic, for [green], [nir] and [swir1] samples
    that are not negative, with [nir + swir1] nonzero, a sample of the
    [mndwi] layer is at least [-1], and it is at most [1] exactly when
    [green <= nir + 2 * swir1] there: the layer leaves [[-1, 1]] where
    [green] exceeds [nir + 2 * swir1]. *)
Theorem mndwi_range_exact (dc : Dataset Q) n r g s :
  has_bands dc n r g s ->
  nonnegative g -> nonnegative n -> nonnegative s -> nonzero_sum n s ->
  exists dc' mndwi,
    calculate_band_indices dc = (dc', inr dc') /\
    dc' !! "mndwi" = Some mndwi /\
    forall i gi ni si,
      values g !! i = Some gi -> values n !! i = Some ni ->
      values s !! i = Some si ->
      exists v,
        values mndwi !! i = Some v /\
        (-1 <= v)%Q /\ (v <= 1 <-> gi <= ni + 2 * si)%Q.
Proof.
  intros Hb Hg Hn Hs Hnz.
  destruct (has_bands_layers dc n r g s Hb) as (dc' & Hrun & _ & _ & Hm).
  exists dc', (ratio_array g s n s). split; [done|]. split; [done|].
  intros i gi ni si Hgi Hni Hsi. eexists.
  split; [by apply ratio_values_lookup|].
  apply exact_mndwi_bounds; eauto.
Qed.

(** X9: in exact arithmetic, where [nir + swir1] and
    [green + swir1] are nonzero, the sample of the [mndwi] layer equals
    [(green - swir1)/(green + swir1)], the quotient that the text of the
    notebook gives for MNDWI, exactly when [green = swir1] or
    [nir = green] there. *)
Theorem mndwi_as_documented (dc : Dataset Q) n r g s :
  has_bands dc n r g s ->
  exists dc' mndwi,
    calculate_band_indices dc = (dc', inr dc') /\
    dc' !! "mndwi" = Some mndwi /\
    forall i gi ni si,
      values g !! i = Some gi -> values n !! i = Some ni ->
      values s !! i = Some si ->
      ~ (ni + si == 0)%Q -> ~ (gi + si == 0)%Q ->
      exists v,
        values mndwi !! i = Some v /\
        (v == (gi - si) / (gi + si) <-> gi == si \/ ni == gi)%Q.
Proof.
  intros Hb.
  destruct (has_bands_layers dc n r g s Hb) as (dc' & Hrun & _ & _ & Hm).
  exists dc', (ratio_array g s n s). split; [done|]. split; [done|].
  intros i gi ni si Hgi Hni Hsi Hns Hgs. eexists.
  split; [by apply ratio_values_lookup|].
  by apply exact_mndwi_agreement.
Qed.

(** X10: in exact arithmetic, for bands that are not negative and
    nonzero denominators, each index is positive exactly where its first
    band exceeds its second: [ndvi] where [nir > red], [ndwi] where
    [green > nir], [mndwi] where [green > swir1]. *)
Theorem index_sign_exact (dc : Dataset Q) n r g s :
  has_bands dc n r g s ->
  nonnegative n -> nonnegative r -> nonnegative g -> nonnegative s ->
  nonzero_sum n r -> nonzero_sum g n -> nonzero_sum n s ->
  exists dc' ndvi ndwi mndwi,
    calculate_band_indices dc = (dc', inr dc') /\
    dc' !! "ndvi" = Some ndvi /\ dc' !! "ndwi" = Some ndwi /\
    dc' !! "mndwi" = Some mndwi /\
    forall i ni ri gi si,
      values n !! i = Some ni -> values r !! i = Some ri ->
      values g !! i = Some gi -> values s !! i = Some si ->
      exists vv vw vm,
        values ndvi !! i = Some vv /\ values ndwi !! i = Some vw /\
        values mndwi !! i = Some vm /\
        (0 < vv <-> ri < ni)%Q /\ (0 < vw <-> ni < gi)%Q /\
        (0 < vm <-> si < gi)%Q.
Proof.
  intros Hb Hn Hr Hg Hs Hnr Hgn Hns.
  destruct (has_bands_layers dc n r g s Hb) as (dc' & Hrun & Hv & Hw & Hm).
  exists dc', (ratio_array n r n r), (ratio_array g n g n),
    (ratio_array g s n s).
  split; [done|]. split; [done|]. split; [done|]. split; [done|].
  intros i ni ri gi si Hni Hri Hgi Hsi. eexists _, _, _.
  split; [by apply ratio_values_lookup|].
  split; [by apply ratio_values_lookup|].
  split; [by apply ratio_values_lookup|].
  split; [|split]; apply exact_ratio_sign; eauto.
Qed.

(** *** Another unit *)

Lemma scaled_stack_lookup c (dc : Dataset Q) name :
  scaled_stack c dc !! name = scaled c <$> dc !! name.
Proof. unfold scaled_stack. apply lookup_fmap. Qed.

Lemma has_bands_scaled c (dc : Dataset Q) n r g s :
  has_bands dc n r g s ->
  has_bands (scaled_stack c dc) (scaled c n) (scaled c r) (scaled c g)
    (scaled c s).
Proof.
  intros (Hn & Hr & Hg & Hs & Hrn & Hgn & Hsn).
  unfold has_bands. rewrite !scaled_stack_lookup, Hn, Hr, Hg, Hs. done.
Qed.

Lemma ratio_values_scaled c (x y z u : DataArray Q) :
  ~ (c == 0)%Q -> nonzero_sum z u ->
  length (values x) = length (values z) ->
  length (values y) = length (values z) ->
  length (values u) = length (values z) ->
  Forall2 Qeq (ratio_values (scaled c x) (scaled c y) (scaled c z) (scaled c u))
              (ratio_values x y z u).
Proof.
  intros Hc Hnz Hx Hy Hu.
  apply Forall2_same_length_lookup_2.
  - unfold ratio_values, scaled. cbn [values].
    rewrite !length_zip_with, !length_fmap. done.
  - intros i v' v Hv' Hv.
    apply ratio_values_inv in Hv
      as (xi & yi & zi & ui & Hxi & Hyi & Hzi & Hui & ->).
    apply ratio_values_inv in Hv'
      as (xi' & yi' & zi' & ui' & Hxi' & Hyi' & Hzi' & Hui' & ->).
    unfold scaled in *. cbn [values] in *.
    rewrite list_lookup_fmap in Hxi', Hyi', Hzi', Hui'.
    rewrite Hxi in Hxi'. rewrite Hyi in Hyi'.
    rewrite Hzi in Hzi'. rewrite Hui in Hui'. simplify_eq/=.
    apply exact_ratio_scaled; eauto.
Qed.

(** X11: in exact arithmetic, multiplying every band by one nonzero
    factor changes none of the three layers: where the denominators
    [nir + red], [green + nir] and [nir + swir1] are nonzero, the layers
    of the scaled stack have the shapes and the values of the layers of
    the stack. *)
Theorem indices_ignore_scale (c : Q) (dc : Dataset Q) n r g s :
  ~ (c == 0)%Q -> has_bands dc n r g s ->
  well_formed n -> well_formed r -> well_formed g -> well_formed s ->
  nonzero_sum n r -> nonzero_sum g n -> nonzero_sum n s ->
  exists dc' dcs,
    calculate_band_indices dc = (dc', inr dc') /\
    calculate_band_indices (scaled_stack c dc) = (dcs, inr dcs) /\
    forall name, name ∈ index_names ->
      exists a a',
        dc' !! name = Some a /\ dcs !! name = Some a' /\
        shape a' = shape a /\ Forall2 Qeq (values a') (values a).
Proof.
  intros Hc Hb Hwn Hwr Hwg Hws Hnr Hgn Hns.
  destruct (has_bands_layers dc n r g s Hb) as (dc' & Hrun & Hv & Hw & Hm).
  destruct (has_bands_layers _ _ _ _ _ (has_bands_scaled c dc n r g s Hb))
    as (dcs & Hruns & Hvs & Hws' & Hms).
  destruct Hb as (_ & _ & _ & _ & Hrn & Hgn' & Hsn).
  unfold well_formed in *.
  exists dc', dcs. split; [done|]. split; [done|].
  intros name Hname. names_in Hname.
  destruct Hname as [<-|[<-|[<-|[]]]]; eexists _, _;
    (split; [eassumption|]); (split; [eassumption|]); (split; [done|]);
    cbn [values ratio_array]; apply ratio_values_scaled;
    first [assumption | congruence].
Qed.

(** ** Binary64: not-a-number *)

Local Open Scope float_scope.

Lemma SFeqb_refl_number q : q <> S754_nan -> SFeqb q q = true.
Proof.
  destruct q as [s|s| |s m e]; intros Hq; try (destruct s; reflexivity).
  - congruence.
  - unfold SFeqb, SFcompare. rewrite Z.compare_refl.
    change (Pos.compare_cont Eq m m) with (Pos.compare m m).
    rewrite Pos.compare_refl. destruct s; reflexivity.
Qed.

Lemma is_nan_spec x : is_nan x = true <-> Prim2SF x = S754_nan.
Proof.
  unfold is_nan. rewrite FloatAxioms.eqb_spec. split.
  - intros Hn. destruct (Prim2SF x) as [s|s| |s m e] eqn:Hx; try reflexivity;
      rewrite SFeqb_refl_number in Hn by discriminate; discriminate Hn.
  - intros ->. reflexivity.
Qed.

Lemma SFsub_nan x y :
  x = S754_nan \/ y = S754_nan -> SF64sub x y = S754_nan.
Proof.
  intros [-> | ->]; [reflexivity|]. destruct x; reflexivity.
Qed.

Lemma SFadd_nan x y :
  x = S754_nan \/ y = S754_nan -> SF64add x y = S754_nan.
Proof.
  intros [-> | ->]; [reflexivity|]. destruct x; reflexivity.
Qed.

Lemma SFdiv_nan x y :
  x = S754_nan \/ y = S754_nan -> SF64div x y = S754_nan.
Proof.
  intros [-> | ->]; [reflexivity|]. destruct x; reflexivity.
Qed.

Lemma sub_nan a b :
  is_nan a || is_nan b = true -> is_nan (a - b) = true.
Proof.
  rewrite orb_true_iff, !is_nan_spec, sub_spec. apply SFsub_nan.
Qed.

Lemma ratio_nan a b c d :
  is_nan a || is_nan b || is_nan c || is_nan d = true ->
  is_nan ((a - b) / (c + d)) = true.
Proof.
  rewrite !orb_true_iff, !is_nan_spec, div_spec, sub_spec, add_spec.
  intros [[[H|H]|H]|H]; apply SFdiv_nan.
  - left. apply SFsub_nan. by left.
  - left. apply SFsub_nan. by right.
  - right. apply SFadd_nan. by left.
  - right. apply SFadd_nan. by right.
Qed.

(** X12: in binary64, at a position where [nir] or [red] is NaN the
    [ndvi] layer is NaN, where [green] or [nir] is NaN the [ndwi] layer
    is NaN, and where [green], [swir1] or [nir] is NaN the [mndwi] layer
    is NaN. *)
Theorem nan_samples_propagate (dc : Dataset float) n r g s :
  has_bands dc n r g s ->
  exists dc' ndvi ndwi mndwi,
    calculate_band_indices dc = (dc', inr dc') /\
    dc' !! "ndvi" = Some ndvi /\ dc' !! "ndwi" = Some ndwi /\
    dc' !! "mndwi" = Some mndwi /\
    forall i ni ri gi si,
      values n !! i = Some ni -> values r !! i = Some ri ->
      values g !! i = Some gi -> values s !! i = Some si ->
      exists vv vw vm,
        values ndvi !! i = Some vv /\ values ndwi !! i = Some vw /\
        values mndwi !! i = Some vm /\
        (is_nan ni || is_nan ri = true -> is_nan vv = true) /\
        (is_nan gi || is_nan ni = true -> is_nan vw = true) /\
        (is_nan gi || is_nan si || is_nan ni = true -> is_nan vm = true).
Proof.
  intros Hb.
  destruct (has_bands_layers dc n r g s Hb) as (dc' & Hrun & Hv & Hw & Hm).
  exists dc', (ratio_array n r n r), (ratio_array g n g n),
    (ratio_array g s n s).
  split; [done|]. split; [done|]. split; [done|]. split; [done|].
  intros i ni ri gi si Hni Hri Hgi Hsi. eexists _, _, _.
  split; [exact (ratio_values_lookup n r n r i _ _ _ _ Hni Hri Hni Hri)|].
  split; [exact (ratio_values_lookup g n g n i _ _ _ _ Hgi Hni Hgi Hni)|].
  split; [exact (ratio_values_lookup g s n s i _ _ _ _ Hgi Hsi Hni Hsi)|].
  split; [|split]; intros Hnan; apply ratio_nan.
  - destruct (is_nan ni), (is_nan ri); done.
  - destruct (is_nan gi), (is_nan ni); done.
  - destruct (is_nan gi), (is_nan si), (is_nan ni); done.
Qed.

(** ** The filter of the last histogram *)

Lemma where_gt_values (d : DataArray float) c :
  where_ d (array_gt d c) =
    inr (mkArray (shape d)
           ((fun v => if PrimFloat.ltb c v then v else nan) <$> values d)).
Proof.
  unfold where_, array_gt. cbn [shape values]. rewrite decide_True by done.
  by rewrite zip_with_fmap_r, zip_with_diag.
Qed.

(** X13: [mndwi_diff.where(mndwi_diff > -2)] never fails and has the
    shape and the number of samples of [mndwi_diff].  A sample greater
    than [-2] is kept; any other, a NaN among them, becomes NaN.  So
    every sample of the result is a NaN or a sample of [mndwi_diff]
    greater than [-2], and filtering the result again changes
    nothing. *)
Theorem filtered_difference_above_minus_two (d : DataArray float) :
  exists f,
    filtered_mndwi_diff d = inr f /\
    shape f = shape d /\ length (values f) = length (values d) /\
    (forall j v, values d !! j = Some v ->
       exists x, values f !! j = Some x /\
         ((-2 <? v) = true -> x = v) /\
         ((-2 <? v) = false -> is_nan x = true) /\
         (is_nan v = true -> is_nan x = true)) /\
    (forall j x, values f !! j = Some x ->
       is_nan x = true \/ ((-2 <? x) = true /\ values d !! j = Some x)) /\
    filtered_mndwi_diff f = inr f.
Proof.
  unfold filtered_mndwi_diff. rewrite where_gt_values. eexists.
  split; [done|]. cbn [shape values].
  split; [done|]. split; [by rewrite length_fmap|].
  split; [|split].
  - intros j v Hv. rewrite list_lookup_fmap, Hv. simpl. eexists. split; [done|].
    split; [by intros ->|]. split; [by intros ->|].
    intros Hnan. apply is_nan_spec in Hnan.
    rewrite ltb_spec, Hnan. reflexivity.
  - intros j x. rewrite list_lookup_fmap.
    destruct (values d !! j) as [v|]; [|done]. simpl. intros [= <-].
    destruct (-2 <? v) eqn:Hlt; [by right|by left].
  - rewrite where_gt_values. cbn [shape values]. do 2 f_equal.
    rewrite <- list_fmap_compose. apply list_fmap_ext. intros j v _. simpl.
    destruct (-2 <? v) eqn:Hlt; [by rewrite Hlt|reflexivity].
Qed.

Local Close Scope float_scope.

(** ** Binary64: a difference of two samples *)

Local Open Scope Z_scope.

Lemma abs_le_bound_in_range mf ef q :
  SFleb (SFabs q) (S754_finite false mf ef) = true ->
  SFleb (S754_finite true mf ef) q && SFleb q (S754_finite false mf ef) = true.
Proof.
  destruct q as [s|s| |s m e]; simpl SFabs; intros H.
  - destruct s; reflexivity.
  - discriminate H.
  - discriminate H.
  - destruct s; [|rewrite H; reflexivity].
    apply SFleb_finite_pos_inv in H.
    unfold SFleb, SFcompare.
    destruct H as [Hlt|[-> Hle]].
    + apply Z.compare_lt_iff in Hlt. rewrite Z.compare_antisym, Hlt. reflexivity.
    + rewrite Z.compare_refl.
      change (Pos.compare_cont Eq mf m) with (Pos.compare mf m).
      destruct (Pos.compare_spec mf m); try reflexivity. lia.
Qed.

Lemma in_range_abs_le_bound mf ef q :
  SFleb (S754_finite true mf ef) q && SFleb q (S754_finite false mf ef) = true ->
  SFleb (SFabs q) (S754_finite false mf ef) = true.
Proof.
  rewrite andb_true_iff. intros [Hlo Hhi].
  destruct q as [s|s| |s m e]; simpl SFabs.
  - reflexivity.
  - destruct s; discriminate.
  - discriminate.
  - destruct s; [|exact Hhi].
    apply SFleb_finite_pos. unfold SFleb, SFcompare in Hlo.
    destruct (Z.compare_spec ef e) as [->|Hlt|Hgt]; [|discriminate|left; lia].
    right. split; [reflexivity|].
    change (Pos.compare_cont Eq mf m) with (Pos.compare mf m) in Hlo.
    destruct (Pos.compare_spec mf m); try discriminate; lia.
Qed.

Lemma SFsub_abs_le_two A B :
  valid_binary A = true -> valid_binary B = true ->
  SFleb (SFabs A) SF_one = true -> SFleb (SFabs B) SF_one = true ->
  SFleb (SFabs (SF64sub A B)) SF_two = true.
Proof.
  intros HvA HvB HA HB.
  destruct A as [sa|sa| |sa ma ea]; try discriminate HA;
    destruct B as [sb|sb| |sb mb eb]; try discriminate HB.
  - destruct sa, sb; reflexivity.
  - simpl SFabs in *. apply SFleb_finite_pos_inv in HB.
    apply SFleb_finite_pos. lia.
  - simpl SFabs in *. apply SFleb_finite_pos_inv in HA.
    apply SFleb_finite_pos. lia.
  - simpl SFabs in HA, HB. simpl in HvA, HvB.
    apply SFleb_finite_pos_inv in HA. apply SFleb_finite_pos_inv in HB.
    unfold SF64sub, SFsub.
    set (ez := Z.min ea eb).
    destruct (shl_align_spec ma ea ez) as (_ & Hsa & Hxa);
    destruct (shl_align_spec mb eb ez) as (_ & Hsb & Hxb).
    rewrite Hsa in Hxa by lia. rewrite Hsb in Hxb by lia.
    set (pa := fst (shl_align ma ea ez)) in *.
    set (pb := fst (shl_align mb eb ez)) in *.
    assert (Hone : bounded prec emax 4503599627370496 (-52) = true)
      by reflexivity.
    pose proof (lex_le_value ma ea _ _ ez HvA Hone HA ltac:(lia) ltac:(lia))
      as Hva.
    pose proof (lex_le_value mb eb _ _ ez HvB Hone HB ltac:(lia) ltac:(lia))
      as Hvb.
    rewrite <- Hxa in Hva. rewrite <- Hxb in Hvb.
    assert (Hpow : 2 ^ (-51 - ez) = 2 * 2 ^ (-52 - ez)).
    { replace (-51 - ez) with (1 + (-52 - ez)) by lia.
      rewrite Z.pow_add_r by lia. reflexivity. }
    pose proof (pow2_pos (-52 - ez) ltac:(lia)) as Hp.
    assert (Hd : Z.abs (cond_Zopp sa (Z.pos pa) - cond_Zopp sb (Z.pos pb))
                 <= 4503599627370496 * 2 ^ (-51 - ez)).
    { rewrite Hpow. destruct sa, sb; simpl cond_Zopp; lia. }
    destruct (cond_Zopp sa (Z.pos pa) - cond_Zopp sb (Z.pos pb))
      as [|p|p]; unfold binary_normalize.
    + reflexivity.
    + rewrite binary_round_abs.
      apply binary_round_le_bound; [lia|reflexivity|lia].
    + rewrite binary_round_abs.
      apply binary_round_le_bound; [lia|reflexivity|lia].
Qed.

(** *** A zero difference *)

Lemma shl_align_snd mx ex ex' : snd (shl_align mx ex ex') = Z.min ex ex'.
Proof.
  unfold shl_align. destruct (ex' - ex) as [|d|d] eqn:Hd; simpl snd; lia.
Qed.

(** Rounding a nonzero significand at an exponent of the format never
    gives zero: the numbers of the format go down to [2 ^ -1074]. *)
Lemma binary_round_nonzero s p e z :
  -1074 <= e -> binary_round prec emax s p e <> S754_zero z.
Proof.
  intros He. unfold binary_round.
  pose proof (shl_align_snd p e (fexp prec emax (Z.pos (digits2_pos p) + e)))
    as Hsnd.
  destruct (shl_align_spec p e (fexp prec emax (Z.pos (digits2_pos p) + e)))
    as (_ & _ & H3).
  destruct (shl_align p e _) as [mz ez]. simpl fst in *; simpl snd in *.
  rewrite fexp_val in Hsnd.
  assert (Hez : -1074 <= ez) by lia.
  destruct (binary_round_aux_spec s (Z.pos mz) ez loc_Exact ltac:(lia))
    as (j & m1 & j2 & Hj & Hm1 & _ & Hj2 & ->).
  rewrite fexp_val in Hj, Hj2.
  destruct (Zdigits2_bounds (Z.pos mz) ltac:(lia)) as [Hlo Hhi].
  pose proof (Zdigits2_pos (Z.pos mz) ltac:(lia)) as HDpos.
  set (D := Zdigits2 (Z.pos mz)) in *.
  assert (Hjv : j = Z.max (D - 53) 0) by lia.
  pose proof (pow2_pos j ltac:(lia)) as Hpj.
  assert (Hm0 : 0 < Z.pos mz / 2 ^ j).
  { destruct (Z.eq_dec j 0) as [Heq|Hne].
    - rewrite Heq, Z.pow_0_r, Z.div_1_r. lia.
    - pose proof (div_pow2_lower (Z.pos mz) (D - 1) j
                    ltac:(lia) ltac:(lia) Hlo) as Hdl.
      pose proof (pow2_pos (D - 1 - j) ltac:(lia)). lia. }
  assert (Hm1pos : 0 < m1) by lia.
  destruct (Zdigits2_bounds m1 Hm1pos) as [Hlo1 Hhi1].
  pose proof (Zdigits2_pos m1 Hm1pos) as HD1pos.
  set (D1 := Zdigits2 m1) in *.
  assert (Hj2v : j2 = Z.max (D1 - 53) 0) by lia.
  pose proof (pow2_pos j2 ltac:(lia)) as Hpj2.
  assert (Hm2 : 0 < m1 / 2 ^ j2).
  { destruct (Z.eq_dec j2 0) as [Heq|Hne].
    - rewrite Heq, Z.pow_0_r, Z.div_1_r. lia.
    - pose proof (div_pow2_lower m1 (D1 - 1) j2
                    ltac:(lia) ltac:(lia) Hlo1) as Hdl.
      pose proof (pow2_pos (D1 - 1 - j2) ltac:(lia)). lia. }
  destruct (m1 / 2 ^ j2) as [|q|q]; [lia| |discriminate].
  destruct (ez + j + j2 <=? emax - prec); discriminate.
Qed.

(** Two numbers of the format with one value are the same number. *)
Lemma lex_lt_value m1 e1 m2 e2 c :
  bounded prec emax m1 e1 = true -> bounded prec emax m2 e2 = true ->
  e1 < e2 -> c <= e1 ->
  Z.pos m1 * 2 ^ (e1 - c) < Z.pos m2 * 2 ^ (e2 - c).
Proof.
  intros Hb1 Hb2 Hlt Hc1.
  destruct (bounded_inv _ _ Hb1) as [Hcan1 _].
  destruct (bounded_inv _ _ Hb2) as [Hcan2 _].
  destruct (digits2_pos_bounds m1) as [_ Hhi1].
  destruct (digits2_pos_bounds m2) as [Hlo2 _].
  assert (Hd2 : Z.pos (digits2_pos m2) = 53) by lia.
  assert (Hd1 : Z.pos (digits2_pos m1) <= 53) by lia.
  rewrite Hd2 in Hlo2.
  assert (Z.pos m1 < 2 ^ 53).
  { assert (2 ^ Z.pos (digits2_pos m1) <= 2 ^ 53)
      by (apply Z.pow_le_mono_r; lia).
    lia. }
  pose proof (pow2_pos (e1 - c) ltac:(lia)).
  assert (Hpow : 2 ^ (e2 - c) = 2 ^ (e2 - e1 - 1) * 2 * 2 ^ (e1 - c)).
  { replace (e2 - c) with ((e2 - e1 - 1) + 1 + (e1 - c)) by lia.
    rewrite !Z.pow_add_r by lia. rewrite Z.pow_1_r. reflexivity. }
  pose proof (pow2_pos (e2 - e1 - 1) ltac:(lia)).
  rewrite Hpow.
  change (2 ^ 53) with (2 * 2 ^ 52) in H.
  change (2 ^ (53 - 1)) with (2 ^ 52) in Hlo2.
  nia.
Qed.

Lemma canonical_unique m1 e1 m2 e2 c :
  bounded prec emax m1 e1 = true -> bounded prec emax m2 e2 = true ->
  c <= e1 -> c <= e2 ->
  Z.pos m1 * 2 ^ (e1 - c) = Z.pos m2 * 2 ^ (e2 - c) ->
  e1 = e2 /\ m1 = m2.
Proof.
  intros Hb1 Hb2 Hc1 Hc2 Heq.
  destruct (Z.lt_trichotomy e1 e2) as [Hlt|[->|Hgt]].
  - pose proof (lex_lt_value m1 e1 m2 e2 c Hb1 Hb2 Hlt Hc1). lia.
  - split; [reflexivity|].
    pose proof (pow2_pos (e2 - c) ltac:(lia)).
    apply Z.mul_reg_r in Heq; [|lia]. by injection Heq.
  - pose proof (lex_lt_value m2 e2 m1 e1 c Hb2 Hb1 ltac:(lia) Hc2). lia.
Qed.

Lemma SFeqb_finite s1 m1 e1 s2 m2 e2 :
  SFeqb (S754_finite s1 m1 e1) (S754_finite s2 m2 e2) = true ->
  s1 = s2 /\ e1 = e2 /\ m1 = m2.
Proof.
  unfold SFeqb, SFcompare.
  change (Pos.compare_cont Eq m1 m2) with (Pos.compare m1 m2).
  destruct s1, s2; try discriminate;
    destruct (Z.compare_spec e1 e2) as [->|?|?]; try discriminate;
    destruct (Pos.compare_spec m1 m2) as [->|?|?]; try discriminate; done.
Qed.

Lemma SFeqb_zero_r q :
  (forall z, q <> S754_zero z) -> SFeqb q (S754_zero false) = false.
Proof.
  intros Hq. destruct q as [s|s| |s m e]; try (destruct s; reflexivity).
  - by destruct (Hq s).
  - reflexivity.
Qed.

Lemma SFsub_zero_iff A B :
  valid_binary A = true -> valid_binary B = true ->
  SFleb (SFabs A) (S754_infinity false) = true ->
  SFeqb (SFabs A) (S754_infinity false) = false ->
  SFleb (SFabs B) (S754_infinity false) = true ->
  SFeqb (SFabs B) (S754_infinity false) = false ->
  SFeqb (SF64sub A B) (S754_zero false) = SFeqb A B.
Proof.
  intros HvA HvB HA HA' HB HB'.
  destruct A as [sa|sa| |sa ma ea]; try discriminate;
    destruct B as [sb|sb| |sb mb eb]; try discriminate.
  - destruct sa, sb; reflexivity.
  - destruct sb; reflexivity.
  - destruct sa; reflexivity.
  - simpl in HvA, HvB.
    destruct (bounded_inv _ _ HvA) as [Hca _].
    destruct (bounded_inv _ _ HvB) as [Hcb _].
    unfold SF64sub, SFsub.
    set (ez := Z.min ea eb).
    destruct (shl_align_spec ma ea ez) as (_ & Hsa & Hxa);
    destruct (shl_align_spec mb eb ez) as (_ & Hsb & Hxb).
    rewrite Hsa in Hxa by lia. rewrite Hsb in Hxb by lia.
    set (pa := fst (shl_align ma ea ez)) in *.
    set (pb := fst (shl_align mb eb ez)) in *.
    destruct (SFeqb (S754_finite sa ma ea) (S754_finite sb mb eb)) eqn:Heq.
    + apply SFeqb_finite in Heq as (-> & -> & ->).
      assert (pa = pb) as -> by lia. rewrite Z.sub_diag. reflexivity.
    + apply SFeqb_zero_r. intros z.
      destruct (cond_Zopp sa (Z.pos pa) - cond_Zopp sb (Z.pos pb))
        as [|p|p] eqn:Hd; unfold binary_normalize.
      * exfalso.
        assert (sa = sb /\ Z.pos pa = Z.pos pb) as [-> Hp].
        { destruct sa, sb; simpl cond_Zopp in Hd; split; try done; lia. }
        rewrite Hxa, Hxb in Hp.
        apply canonical_unique in Hp as [-> ->]; try assumption; try lia.
        rewrite SFeqb_refl_number in Heq by discriminate. discriminate.
      * apply binary_round_nonzero. lia.
      * apply binary_round_nonzero. lia.
Qed.

Local Close Scope Z_scope.

Local Open Scope float_scope.

Lemma binary64_difference_in_range a b :
  in_unit_range_f a = true -> in_unit_range_f b = true ->
  in_double_range_f (b - a) = true.
Proof.
  unfold in_unit_range_f, in_double_range_f.
  rewrite !leb_spec, sub_spec.
  change (Prim2SF 1) with SF_one. change (Prim2SF (-1)) with SF_minus_one.
  change (Prim2SF 2) with SF_two. change (Prim2SF (-2)) with SF_minus_two.
  intros Ha Hb.
  apply (abs_le_bound_in_range 4503599627370496 (-51)).
  apply SFsub_abs_le_two; try apply Prim2SF_valid;
    by apply (in_range_abs_le_bound 4503599627370496 (-52)).
Qed.

Lemma is_finite_spec x :
  is_finite x = true ->
  SFleb (SFabs (Prim2SF x)) (S754_infinity false) = true /\
  SFeqb (SFabs (Prim2SF x)) (S754_infinity false) = false.
Proof.
  unfold is_finite, is_nan, is_infinity.
  rewrite !FloatAxioms.eqb_spec, abs_spec.
  change (Prim2SF infinity) with (S754_infinity false).
  destruct (Prim2SF x) as [s|s| |s m e]; simpl; try done.
  destruct s; done.
Qed.

Lemma binary64_difference_zero a b :
  is_finite a = true -> is_finite b = true ->
  is_zero_f (b - a) = (b =? a).
Proof.
  intros [Ha Ha']%is_finite_spec [Hb Hb']%is_finite_spec.
  unfold is_zero_f. rewrite !FloatAxioms.eqb_spec, sub_spec.
  change (Prim2SF 0) with (S754_zero false).
  apply SFsub_zero_iff; try apply Prim2SF_valid; assumption.
Qed.

Lemma in_unit_range_finite a : in_unit_range_f a = true -> is_finite a = true.
Proof.
  unfold in_unit_range_f, is_finite, is_nan, is_infinity.
  rewrite !leb_spec, !FloatAxioms.eqb_spec, abs_spec.
  change (Prim2SF 1) with SF_one. change (Prim2SF (-1)) with SF_minus_one.
  change (Prim2SF infinity) with (S754_infinity false).
  destruct (Prim2SF a) as [s|s| |s m e]; simpl; try done.
  - destruct s; done.
  - intros _. unfold SFeqb, SFcompare. rewrite Z.compare_refl.
    change (Pos.compare_cont Eq m m) with (Pos.compare m m).
    rewrite Pos.compare_refl. destruct s; reflexivity.
Qed.

(** *** The differences of the index layers *)

Lemma slice_elem_of {A} (l : list A) (m i : nat) (x : A) :
  x ∈ take m (drop i l) -> x ∈ l.
Proof.
  intros (j & Hj & _)%elem_of_take. rewrite lookup_drop in Hj.
  by eapply list_elem_of_lookup_2.
Qed.

Lemma slice_difference_in_double_range (x2 y2 x1 y1 : DataArray float)
    (m i2 i1 : nat) v :
  nonnegative_f x2 -> nonnegative_f y2 -> nonzero_sum_f x2 y2 ->
  nonnegative_f x1 -> nonnegative_f y1 -> nonzero_sum_f x1 y1 ->
  v ∈ zip_with vsub (take m (drop i2 (ratio_values x2 y2 x2 y2)))
                    (take m (drop i1 (ratio_values x1 y1 x1 y1))) ->
  in_double_range_f v = true.
Proof.
  intros Hx2 Hy2 Hz2 Hx1 Hy1 Hz1 (a & b & -> & Ha & Hb)%elem_of_zip_with.
  apply slice_elem_of in Ha. apply slice_elem_of in Hb.
  apply (binary64_ratio_values_bounded x2 y2) in Ha; try done.
  apply (binary64_ratio_values_bounded x1 y1) in Hb; try done.
  by apply binary64_difference_in_range.
Qed.

(** X14: in binary64, for two stacks whose [nir], [red] and
    [green] samples are finite and not negative, with [nir + red] and
    [green + nir] nonzero at every position, every sample of the
    difference of their [ndvi] layers, and of their [ndwi] layers, at
    two time slices, lies in [[-2, 2]]. *)
Theorem index_differences_in_double_range (dc2 dc1 : Dataset float)
    n2 r2 g2 s2 n1 r1 g1 s1 (t2 t1 h w : nat) k2 k1 :
  has_bands dc2 n2 r2 g2 s2 -> has_bands dc1 n1 r1 g1 s1 ->
  shape n2 = [t2; h; w] -> shape n1 = [t1; h; w] ->
  in_time k2 t2 -> in_time k1 t1 ->
  nonnegative_f n2 -> nonnegative_f r2 -> nonnegative_f g2 ->
  nonnegative_f n1 -> nonnegative_f r1 -> nonnegative_f g1 ->
  nonzero_sum_f n2 r2 -> nonzero_sum_f g2 n2 ->
  nonzero_sum_f n1 r1 -> nonzero_sum_f g1 n1 ->
  exists dv dw,
    index_difference "ndvi" (calculate_band_indices dc2).1
      (calculate_band_indices dc1).1 k2 k1 = inr dv /\
    index_difference "ndwi" (calculate_band_indices dc2).1
      (calculate_band_indices dc1).1 k2 k1 = inr dw /\
    shape dv = [h; w] /\ shape dw = [h; w] /\
    (forall v, v ∈ values dv -> in_double_range_f v = true) /\
    (forall v, v ∈ values dw -> in_double_range_f v = true).
Proof.
  intros Hb2 Hb1 Hs2 Hs1 Hk2 Hk1 Hn2 Hr2 Hg2 Hn1 Hr1 Hg1 Hz2 Hzw2 Hz1 Hzw1.
  rewrite (has_bands_run dc2 n2 r2 g2 s2 Hb2).
  rewrite (has_bands_run dc1 n1 r1 g1 s1 Hb1). simpl.
  destruct (with_indices_layers dc2 n2 r2 g2 s2) as (Hv2 & Hw2 & _).
  destruct (with_indices_layers dc1 n1 r1 g1 s1) as (Hv1 & Hw1 & _).
  destruct Hb2 as (_ & _ & _ & _ & Hrn2 & Hgn2 & Hsn2).
  destruct Hb1 as (_ & _ & _ & _ & Hrn1 & Hgn1 & Hsn1).
  rewrite (index_difference_in "ndvi" _ _ _ _ t2 t1 h w _ _ Hv2 Hv1) by done.
  rewrite (index_difference_in "ndwi" _ _ _ _ t2 t1 h w _ _ Hw2 Hw1)
    by (done || (simpl; congruence)).
  eexists _, _. split; [done|]. split; [done|].
  split; [done|]. split; [done|]. cbn [values ratio_array].
  split; intros v Hv.
  - by apply (slice_difference_in_double_range n2 r2 n1 r1) in Hv.
  - by apply (slice_difference_in_double_range g2 n2 g1 n1) in Hv.
Qed.

(** X15: in binary64, a sample of
    [dc_level2.name.isel(time=k2) - dc_level1.name.isel(time=k1)] is the
    difference of the two samples it is computed from, and when both
    are finite it is zero exactly when they are equal. *)
Theorem zero_difference_iff_equal (dc2 dc1 : Dataset float) name a2 a1
    (t2 t1 h w : nat) k2 k1 :
  dc2 !! name = Some a2 -> dc1 !! name = Some a1 ->
  shape a2 = [t2; h; w] -> shape a1 = [t1; h; w] ->
  well_formed a2 -> well_formed a1 ->
  in_time k2 t2 -> in_time k1 t1 ->
  exists d,
    index_difference name dc2 dc1 k2 k1 = inr d /\
    forall j, (j < h * w)%nat ->
      exists v2 v1,
        values a2 !! (time_step k2 t2 * (h * w) + j)%nat = Some v2 /\
        values a1 !! (time_step k1 t1 * (h * w) + j)%nat = Some v1 /\
        values d !! j = Some (v2 - v1) /\
        (is_finite v2 = true -> is_finite v1 = true ->
         is_zero_f (v2 - v1) = (v2 =? v1)).
Proof.
  intros H2 H1 Hs2 Hs1 Hw2 Hw1 Hk2 Hk1.
  rewrite (index_difference_in name dc2 dc1 a2 a1 t2 t1 h w k2 k1) by done.
  eexists. split; [done|]. intros j Hj. cbn [values].
  destruct (slice_difference_lookup a2 a1 t2 t1 h w
              (time_step k2 t2) (time_step k1 t1) j)
    as (v2 & v1 & Hv2 & Hv1 & Hd); try done; try by apply time_step_lt.
  exists v2, v1. split; [done|]. split; [done|]. split; [done|].
  intros Hf2 Hf1. by apply binary64_difference_zero.
Qed.

Local Close Scope float_scope.

(** ** Binary64: the quotient of [mndwi] *)

Local Open Scope Z_scope.

Lemma binary_round_aux_forms s m e l :
  0 <= m ->
  binary_round_aux prec emax s m e l = S754_zero s \/
  (exists m' e', binary_round_aux prec emax s m e l = S754_finite s m' e') \/
  binary_round_aux prec emax s m e l = S754_infinity s.
Proof.
  intros Hm.
  destruct (binary_round_aux_spec s m e l Hm)
    as (j & m1 & j2 & Hj & Hm1 & _ & Hj2 & ->).
  pose proof (pow2_pos j ltac:(lia)) as Hpj.
  pose proof (pow2_pos j2 ltac:(lia)) as Hpj2.
  assert (Hm0 : 0 <= m / 2 ^ j) by (apply Z.div_pos; lia).
  assert (Hm2 : 0 <= m1 / 2 ^ j2) by (apply Z.div_pos; lia).
  destruct (m1 / 2 ^ j2) as [|p|p]; [by left| |lia].
  destruct (e + j + j2 <=? emax - prec); [right; left; eauto|by right; right].
Qed.

Lemma binary_round_forms s p e :
  binary_round prec emax s p e = S754_zero s \/
  (exists m' e', binary_round prec emax s p e = S754_finite s m' e') \/
  binary_round prec emax s p e = S754_infinity s.
Proof.
  unfold binary_round. destruct (shl_align p e _) as [mz ez].
  apply binary_round_aux_forms. lia.
Qed.

(** A quotient that is not negative is over [-1]. *)
Lemma SFdiv_not_negative_ge_minus_one sn sd mn en md ed :
  xorb sn sd = false ->
  SFleb SF_minus_one
    (SF64div (S754_finite sn mn en) (S754_finite sd md ed)) = true.
Proof.
  intros Hs. unfold SF64div, SFdiv, SFdiv_core_binary.
  set (e' := Z.min _ _). set (sh := en - ed - e').
  set (m' := match sh with
             | 0 => Z.pos mn
             | Z.pos _ => Z.shiftl (Z.pos mn) sh
             | Z.neg _ => 0
             end).
  assert (Hm' : 0 <= m').
  { subst m'. destruct sh as [|p|p]; try lia. apply Z.shiftl_nonneg. lia. }
  clearbody m'.
  pose proof (Z_div_mod m' (Z.pos md) ltac:(lia)) as Hdm.
  destruct (Z.div_eucl m' (Z.pos md)) as [q r]. destruct Hdm as [Hq Hr].
  assert (Hq0 : 0 <= q) by nia.
  rewrite Hs.
  destruct (binary_round_aux_forms false q e' (new_location (Z.pos md) r) Hq0)
    as [->|[(m2 & e2 & ->)| ->]]; reflexivity.
Qed.

(** The difference of two numbers that are not negative: zero, positive,
    or negative and not under the opposite of the second. *)
Lemma SFsub_nonneg_forms G S :
  valid_binary G = true -> valid_binary S = true ->
  nonneg_finite G -> nonneg_finite S ->
  (exists z, SF64sub G S = S754_zero z) \/
  (exists m e, SF64sub G S = S754_finite false m e) \/
  (exists mn en ms es,
     SF64sub G S = S754_finite true mn en /\ S = S754_finite false ms es /\
     lex_le mn en ms es).
Proof.
  intros HvG HvS HG HS.
  destruct G as [sg|sg| |sg mg eg]; try contradiction;
    destruct S as [ss|ss| |ss ms es]; try contradiction.
  - left. destruct sg, ss; eexists; reflexivity.
  - destruct ss; [contradiction|]. right. right.
    exists ms, es, ms, es. split; [reflexivity|]. split; [reflexivity|].
    apply lex_le_refl.
  - destruct sg; [contradiction|]. right. left. by exists mg, eg.
  - destruct sg; [contradiction|]. destruct ss; [contradiction|].
    simpl in HvG, HvS.
    unfold SF64sub, SFsub. unfold cond_Zopp.
    set (ez := Z.min eg es).
    destruct (shl_align_spec mg eg ez) as (_ & Hsa & Hxa);
    destruct (shl_align_spec ms es ez) as (_ & Hsb & Hxb).
    rewrite Hsa in Hxa by lia. rewrite Hsb in Hxb by lia.
    set (pa := fst (shl_align mg eg ez)) in *.
    set (pb := fst (shl_align ms es ez)) in *.
    destruct (Z.pos pa - Z.pos pb) as [|p|p] eqn:Hd; unfold binary_normalize.
    + left. by eexists.
    + assert (Hle : SFleb (binary_round prec emax false p ez)
                      (S754_finite false mg eg) = true).
      { apply binary_round_le_bound; [lia|assumption|lia]. }
      destruct (binary_round_forms false p ez)
        as [Hr|[(m' & e' & Hr)|Hr]]; rewrite Hr in *.
      * left. by eexists.
      * right. left. by eexists _, _.
      * discriminate Hle.
    + assert (Hle : SFleb (binary_round prec emax false p ez)
                      (S754_finite false ms es) = true).
      { apply binary_round_le_bound; [lia|assumption|lia]. }
      rewrite <- binary_round_abs with (s := true) in Hle.
      destruct (binary_round_forms true p ez)
        as [Hr|[(m' & e' & Hr)|Hr]]; rewrite Hr in *.
      * left. by eexists.
      * right. right. exists m', e', ms, es.
        split; [reflexivity|]. split; [reflexivity|].
        simpl SFabs in Hle. by apply SFleb_finite_pos_inv in Hle.
      * discriminate Hle.
Qed.

(** The sum of two numbers that are not negative is not under the
    second. *)
Lemma SFadd_ge_right N ms es :
  valid_binary N = true -> bounded prec emax ms es = true ->
  nonneg_finite N ->
  SF64add N (S754_finite false ms es) = S754_infinity false \/
  exists md ed,
    SF64add N (S754_finite false ms es) = S754_finite false md ed /\
    lex_le ms es md ed.
Proof.
  intros HvN HvS HN.
  destruct N as [sn|sn| |sn mn en]; try contradiction.
  - right. exists ms, es. split; [reflexivity|apply lex_le_refl].
  - destruct sn; [contradiction|]. simpl in HvN.
    unfold SF64add, SFadd. unfold cond_Zopp.
    set (ez := Z.min en es).
    destruct (shl_align_spec mn en ez) as (_ & Hsa & Hxa);
    destruct (shl_align_spec ms es ez) as (_ & Hsb & Hxb).
    rewrite Hsa in Hxa by lia. rewrite Hsb in Hxb by lia.
    set (pa := fst (shl_align mn en ez)) in *.
    set (pb := fst (shl_align ms es ez)) in *.
    change (Z.pos pa + Z.pos pb) with (Z.pos (pa + pb)).
    change (binary_normalize prec emax (Z.pos (pa + pb)) ez false)
      with (binary_round prec emax false (pa + pb) ez).
    unfold lex_le. apply binary_round_ge_bound; [lia|assumption|lia].
Qed.

Lemma SFadd_nonneg_forms N S :
  valid_binary N = true -> valid_binary S = true ->
  nonneg_finite N -> nonneg_finite S ->
  SFeqb (SF64add N S) (S754_zero false) = false ->
  SF64add N S = S754_infinity false \/
  exists md ed,
    SF64add N S = S754_finite false md ed /\
    forall ms es, S = S754_finite false ms es -> lex_le ms es md ed.
Proof.
  intros HvN HvS HN HS Hnz.
  destruct S as [ss|ss| |ss ms es]; try contradiction.
  - destruct N as [sn|sn| |sn mn en]; try contradiction.
    + destruct sn, ss; discriminate Hnz.
    + destruct sn; [contradiction|]. right. exists mn, en.
      split; [reflexivity|]. intros ms es [=].
  - destruct ss; [contradiction|]. simpl in HvS.
    destruct (SFadd_ge_right N ms es HvN HvS HN) as [->|(md & ed & -> & Hle)];
      [by left|].
    right. exists md, ed. split; [reflexivity|]. by intros ? ? [= <- <-].
Qed.

Lemma SF_mndwi_ge_minus_one G N S :
  valid_binary G = true -> valid_binary N = true -> valid_binary S = true ->
  nonneg_finite G -> nonneg_finite N -> nonneg_finite S ->
  valid_binary (SF64sub G S) = true ->
  valid_binary (SF64add N S) = true ->
  SFeqb (SF64add N S) (S754_zero false) = false ->
  SFleb SF_minus_one (SF64div (SF64sub G S) (SF64add N S)) = true.
Proof.
  intros HvG HvN HvS HG HN HS HvNum HvDen Hnz.
  destruct (SFadd_nonneg_forms N S HvN HvS HN HS Hnz)
    as [Hden|(md & ed & Hden & Hge)]; rewrite Hden in *.
  - destruct (SFsub_nonneg_forms G S HvG HvS HG HS)
      as [(z & ->)|[(m & e & ->)|(mn & en & ms & es & -> & _ & _)]];
      reflexivity.
  - destruct (SFsub_nonneg_forms G S HvG HvS HG HS)
      as [(z & Hnum)|[(m & e & Hnum)|(mn & en & ms & es & Hnum & HSf & Hle)]];
      rewrite Hnum in *.
    + destruct z; reflexivity.
    + by apply SFdiv_not_negative_ge_minus_one.
    + pose proof (Hge ms es HSf) as Hge'.
      pose proof (SFdiv_abs_le_one true mn en md ed HvNum HvDen
                    (lex_le_trans _ _ _ _ _ _ Hle Hge')) as Habs.
      apply abs_le_one_in_range in Habs.
      by apply andb_true_iff in Habs as [? _].
Qed.

Local Close Scope Z_scope.

Local Open Scope float_scope.

Lemma binary64_mndwi_ge_minus_one g n s :
  (0 <=? g) = true -> (0 <=? n) = true -> (0 <=? s) = true ->
  is_infinity g = false -> is_infinity n = false -> is_infinity s = false ->
  is_zero_f (n + s) = false ->
  (-1 <=? (g - s) / (n + s)) = true.
Proof.
  intros Hg Hn Hs Hig Hin His Hnz.
  pose proof (nonneg_finite_of_leb g Hg Hig) as HG.
  pose proof (nonneg_finite_of_leb n Hn Hin) as HN.
  pose proof (nonneg_finite_of_leb s Hs His) as HS.
  pose proof (Prim2SF_valid (g - s)) as HvNum.
  pose proof (Prim2SF_valid (n + s)) as HvDen.
  unfold is_zero_f in Hnz. rewrite FloatAxioms.eqb_spec in Hnz.
  rewrite leb_spec, div_spec.
  rewrite sub_spec in *. rewrite add_spec in *.
  change (Prim2SF 0) with (S754_zero false) in Hnz.
  change (Prim2SF (-1)) with SF_minus_one.
  apply SF_mndwi_ge_minus_one; try assumption; apply Prim2SF_valid.
Qed.

(** X16: in binary64, for finite [green], [nir] and [swir1] samples
    that are not negative, with [nir + swir1] nonzero at every position,
    every sample of the [mndwi] layer, [(green - swir1)/(nir + swir1)],
    is at least [-1] (and so is not NaN). *)
Theorem mndwi_at_least_minus_one (dc : Dataset float) n r g s :
  has_bands dc n r g s ->
  nonnegative_f g -> nonnegative_f n -> nonnegative_f s ->
  nonzero_sum_f n s ->
  exists dc' mndwi,
    calculate_band_indices dc = (dc', inr dc') /\
    dc' !! "mndwi" = Some mndwi /\
    forall v, v ∈ values mndwi -> (-1 <=? v) = true.
Proof.
  intros Hb Hg Hn Hs Hnz.
  destruct (has_bands_layers dc n r g s Hb) as (dc' & Hrun & _ & _ & Hm).
  exists dc', (ratio_array g s n s). split; [done|]. split; [done|].
  intros v Hv. cbn [values ratio_array] in Hv.
  apply list_elem_of_lookup in Hv as [i Hi].
  apply ratio_values_inv in Hi
    as (gi & si & ni & si' & Hgi & Hsi & Hni & Hsi' & ->).
  simplify_eq.
  destruct (Hg i gi Hgi) as [Hg0 Hgf]. destruct (Hn i ni Hni) as [Hn0 Hnf].
  destruct (Hs i si Hsi) as [Hs0 Hsf].
  apply binary64_mndwi_ge_minus_one; eauto.
Qed.

Local Close Scope float_scope.

(** ** The properties on the scenario cubes *)

Lemma stack_of_Forall {V} (P : DataArray V -> Prop)
    (layers : list (string * DataArray V)) :
  Forall (fun l => P l.2) layers ->
  forall name a, stack_of layers !! name = Some a -> P a.
Proof.
  intros Hall name a Hl. unfold stack_of in Hl.
  apply elem_of_list_to_map_2 in Hl.
  rewrite Forall_forall in Hall. by apply (Hall (name, a)).
Qed.

Local Open Scope float_scope.

Lemma level1_bands :
  has_bands level1_cube
    (mkArray [5; 1; 2]%nat [0.5; 0.4; 0.3; 0.2; 0.6; 0.5; 0.4; 0.3; 0.7; 0.6])
    (mkArray [5; 1; 2]%nat [0.1; 0.2; 0.3; 0.1; 0.2; 0.1; 0.3; 0.2; 0.1; 0.3])
    (mkArray [5; 1; 2]%nat [0.5; 0.2; 0.1; 0.3; 0.4; 0.2; 0.3; 0.1; 0.2; 0.4])
    (mkArray [5; 1; 2]%nat [0.3; 0.1; 0.2; 0.1; 0.2; 0.2; 0.1; 0.3; 0.2; 0.1]).
Proof. repeat split; reflexivity. Qed.

Lemma level2_bands :
  has_bands level2_cube
    (mkArray [4; 1; 2]%nat [0.45; 0.35; 0.25; 0.15; 0.55; 0.45; 0.35; 0.25])
    (mkArray [4; 1; 2]%nat [0.05; 0.15; 0.25; 0.05; 0.15; 0.05; 0.25; 0.15])
    (mkArray [4; 1; 2]%nat [0.45; 0.15; 0.05; 0.25; 0.35; 0.15; 0.25; 0.05])
    (mkArray [4; 1; 2]%nat [0.25; 0.05; 0.15; 0.05; 0.15; 0.15; 0.05; 0.25]).
Proof. repeat split; reflexivity. Qed.

Lemma level1_without_swir1_one_shape :
  one_shape (delete "swir1" level1_cube).
Proof.
  intros a b x y [->|[->|[->| ->]]]%band_names_elem
    [->|[->|[->| ->]]]%band_names_elem Hx Hy;
    vm_compute in Hx, Hy; by simplify_eq.
Qed.

Lemma level2_waits_for_level1_witness :
  (exists l1 l2,
     calculate_both_levels loaded_cubes = (mkCubes l1 l2, inr (l1, l2)) /\
     is_Some (l1 !! "mndwi") /\ is_Some (l2 !! "mndwi")) /\
  exists b,
    delete "swir1" level1_cube !! b = None /\
    calculate_both_levels cubes_without_swir1 =
      (mkCubes (calculate_band_indices (delete "swir1" level1_cube)).1
               level2_cube, inl (MissingBand b)).
Proof.
  split.
  - eexists _, _. split.
    + exact (proj1 (proj2 (proj2 (level2_waits_for_level1 loaded_cubes)))
               _ _ _ _ _ _ _ _ level1_bands level2_bands).
    + split; unfold with_indices; read_layer; eauto.
  - apply (proj1 (level2_waits_for_level1 cubes_without_swir1)).
    + exact level1_without_swir1_one_shape.
    + exists "swir1". split; [|reflexivity].
      apply band_names_elem. tauto.
Defined.

Lemma both_levels_frame_witness :
  data_cube_level1 (calculate_both_levels loaded_cubes).1 !! "blue"
    = level1_cube !! "blue" /\
  data_cube_level2 (calculate_both_levels loaded_cubes).1 !! "blue"
    = level2_cube !! "blue".
Proof.
  apply (both_levels_frame loaded_cubes "blue").
  unfold index_names. rewrite !not_elem_of_cons. repeat split; try done.
  apply not_elem_of_nil.
Defined.

Lemma difference_of_time_slices_witness :
  exists d,
    index_difference "nir" level2_cube level1_cube 3 4 = inr d /\
    shape d = [1; 2]%nat /\
    values d !! 1%nat = Some (0.25 - 0.6).
Proof.
  destruct (proj1 (difference_of_time_slices "nir" level2_cube level1_cube
              _ _ 4 5 1 2 3 4 eq_refl eq_refl eq_refl eq_refl))
    as (d & Hd & Hs & Hv).
  { unfold in_time. lia. }
  { unfold in_time. lia. }
  exists d. split; [exact Hd|]. split; [exact Hs|].
  destruct Hv as [_ Hv]; [reflexivity..|].
  destruct (Hv 1%nat) as (v2 & v1 & Hv2 & Hv1 & Hdj); [simpl; lia|].
  vm_compute in Hv2, Hv1. by simplify_eq.
Defined.

Lemma differences_from_band_slices_witness :
  index_difference "mndwi" (calculate_band_indices level2_cube).1
      (calculate_band_indices level1_cube).1 3 4
    = array_minus (ratio_array (array2d [[0.25; 0.05]]) (array2d [[0.05; 0.25]])
               (array2d [[0.35; 0.25]]) (array2d [[0.05; 0.25]]))
            (ratio_array (array2d [[0.2; 0.4]]) (array2d [[0.2; 0.1]])
               (array2d [[0.7; 0.6]]) (array2d [[0.2; 0.1]])).
Proof.
  refine (proj2 (proj2
    (differences_from_band_slices level2_cube level1_cube 3 4
       _ _ _ _ _ _ _ _
       (array2d [[0.35; 0.25]]) (array2d [[0.25; 0.15]])
       (array2d [[0.25; 0.05]]) (array2d [[0.05; 0.25]])
       (array2d [[0.7; 0.6]]) (array2d [[0.1; 0.3]])
       (array2d [[0.2; 0.4]]) (array2d [[0.2; 0.1]])
       level2_bands level1_bands
       eq_refl eq_refl eq_refl eq_refl eq_refl eq_refl eq_refl eq_refl))).
Defined.

Lemma differences_need_time_steps_witness :
  exists k' dc_level1 dc_level2 dv,
    calculate_both_levels loaded_cubes = (k', inr (dc_level1, dc_level2)) /\
    ndvi_diff dc_level2 dc_level1 = inr dv /\ shape dv = [1; 2]%nat.
Proof.
  pose (k' := (calculate_both_levels loaded_cubes).1).
  destruct (proj1 (differences_need_time_steps loaded_cubes
              _ _ _ _ _ _ _ _ 4 5 1 2 k'
              (data_cube_level1 k') (data_cube_level2 k')
              level2_bands level1_bands eq_refl eq_refl eq_refl))
    as (dv & dw & dm & Hv & _ & _ & Hs & _); [lia|].
  exists k', (data_cube_level1 k'), (data_cube_level2 k'), dv.
  split; [reflexivity|]. split; [exact Hv|exact Hs].
Defined.

Lemma calculate_band_indices_keeps_well_formed_witness :
  exists ndwi,
    (calculate_band_indices level1_cube).1 !! "ndwi" = Some ndwi /\
    well_formed ndwi.
Proof.
  eexists. split; [reflexivity|].
  apply (calculate_band_indices_keeps_well_formed level1_cube) with "ndwi";
    [|reflexivity].
  apply stack_of_Forall. repeat constructor.
Defined.

Lemma nan_samples_propagate_witness :
  exists ndvi v,
    (calculate_band_indices masked_stack).1 !! "ndvi" = Some ndvi /\
    values ndvi !! 0%nat = Some v /\ is_nan v = true.
Proof.
  destruct (nan_samples_propagate masked_stack
              (array2d [[nan; 0.4]; [0.3; 0.2]])
              (array2d [[0.1; 0.2]; [0.3; -0.2]])
              (array2d [[0.5; 0.2]; [0.1; 0.3]])
              (array2d [[0.3; 0.1]; [0.2; 0.1]]))
    as (dc' & ndvi & ndwi & mndwi & Hrun & Hv & _ & _ & Hat).
  { repeat split; reflexivity. }
  destruct (Hat 0%nat nan 0.1 0.5 0.3 eq_refl eq_refl eq_refl eq_refl)
    as (vv & _ & _ & Hvv & _ & _ & Hnan & _).
  exists ndvi, vv. rewrite Hrun. split; [exact Hv|]. split; [exact Hvv|].
  apply Hnan. reflexivity.
Defined.

Lemma index_differences_in_double_range_witness :
  exists dv,
    index_difference "ndvi" (calculate_band_indices level2_cube).1
      (calculate_band_indices level1_cube).1 3 4 = inr dv /\
    forall v, v ∈ values dv -> in_double_range_f v = true.
Proof.
  destruct (index_differences_in_double_range level2_cube level1_cube
              _ _ _ _ _ _ _ _ 4 5 1 2 3 4 level2_bands level1_bands
              eq_refl eq_refl)
    as (dv & dw & Hv & _ & _ & _ & Hrange & _);
    try (unfold in_time; lia);
    try (intros i xi Hi; each_sample; split; reflexivity);
    try (intros i xi yi Hx Hy; each_sample; reflexivity).
  exists dv. split; [exact Hv|exact Hrange].
Defined.

Lemma zero_difference_iff_equal_witness :
  exists d dj,
    index_difference "blue" level2_cube level1_cube 3 4 = inr d /\
    values d !! 0%nat = Some dj /\ is_zero_f dj = true.
Proof.
  destruct (zero_difference_iff_equal level2_cube level1_cube "blue"
              _ _ 4 5 1 2 3 4 eq_refl eq_refl eq_refl eq_refl
              eq_refl eq_refl)
    as (d & Hd & Hat); try (unfold in_time; lia).
  destruct (Hat 0%nat) as (v2 & v1 & Hv2 & Hv1 & Hdj & Hzero);
    [simpl; lia|].
  exists d, (v2 - v1). split; [exact Hd|]. split; [exact Hdj|].
  vm_compute in Hv2, Hv1. simplify_eq. by rewrite Hzero.
Defined.

Lemma mndwi_at_least_minus_one_witness :
  exists mndwi,
    (calculate_band_indices full_stack).1 !! "mndwi" = Some mndwi /\
    forall v, v ∈ values mndwi -> (-1 <=? v) = true.
Proof.
  destruct (mndwi_at_least_minus_one full_stack
              (array2d [[0.5; 0.4]; [0.3; 0.2]])
              (array2d [[0.1; 0.2]; [0.3; -0.2]])
              (array2d [[0.5; 0.2]; [0.1; 0.3]])
              (array2d [[0.3; 0.1]; [0.2; 0.1]]))
    as (dc' & mndwi & Hrun & Hm & Hge);
    try (repeat split; reflexivity);
    try (intros i xi Hi; each_sample; split; reflexivity);
    try (intros i xi yi Hx Hy; each_sample; reflexivity).
  exists mndwi. rewrite Hrun. split; [exact Hm|exact Hge].
Defined.

Local Close Scope float_scope.

Lemma exact_bands :
  has_bands exact_stack
    (array2d [[(1 # 2)%Q; (1 # 5)%Q]]) (array2d [[(1 # 10)%Q; (1 # 5)%Q]])
    (array2d [[(1 # 5)%Q; (1 # 5)%Q]]) (array2d [[(3 # 10)%Q; (1 # 10)%Q]]).
Proof. repeat split; reflexivity. Qed.

Ltac exact_samples :=
  first [ intros i xi yi Hx Hy; each_sample; intros Hsum; lra
        | intros i xi Hi; each_sample; lra ].

Lemma mndwi_range_exact_witness :
  exists mndwi v,
    (calculate_band_indices exact_stack).1 !! "mndwi" = Some mndwi /\
    values mndwi !! 0%nat = Some v /\ (-1 <= v)%Q /\ (v <= 1)%Q.
Proof.
  destruct (mndwi_range_exact exact_stack _ _ _ _ exact_bands)
    as (dc' & mndwi & Hrun & Hm & Hat); try exact_samples.
  destruct (Hat 0%nat (1 # 5)%Q (1 # 2)%Q (3 # 10)%Q eq_refl eq_refl eq_refl)
    as (v & Hv & Hlo & Hhi).
  exists mndwi, v. rewrite Hrun. split; [exact Hm|]. split; [exact Hv|].
  split; [exact Hlo|]. apply Hhi. lra.
Defined.

Lemma mndwi_as_documented_witness :
  exists mndwi v,
    (calculate_band_indices exact_stack).1 !! "mndwi" = Some mndwi /\
    values mndwi !! 1%nat = Some v /\
    (v == ((1 # 5) - (1 # 10)) / ((1 # 5) + (1 # 10)))%Q.
Proof.
  destruct (mndwi_as_documented exact_stack _ _ _ _ exact_bands)
    as (dc' & mndwi & Hrun & Hm & Hat).
  destruct (Hat 1%nat (1 # 5)%Q (1 # 5)%Q (1 # 10)%Q eq_refl eq_refl eq_refl)
    as (v & Hv & Hiff); try (intros Hsum; lra).
  exists mndwi, v. rewrite Hrun. split; [exact Hm|]. split; [exact Hv|].
  apply Hiff. right. reflexivity.
Defined.

Lemma indices_ignore_scale_witness :
  exists a a',
    (calculate_band_indices exact_stack).1 !! "ndvi" = Some a /\
    (calculate_band_indices (scaled_stack 10000 exact_stack)).1 !! "ndvi"
      = Some a' /\
    Forall2 Qeq (values a') (values a).
Proof.
  destruct (indices_ignore_scale 10000 exact_stack _ _ _ _
              ltac:(discriminate) exact_bands)
    as (dc' & dcs & Hrun & Hruns & Hat);
    try reflexivity; try exact_samples.
  destruct (Hat "ndvi") as (a & a' & Ha & Ha' & _ & Heq).
  { apply list_elem_of_In. simpl. tauto. }
  exists a, a'. rewrite Hrun, Hruns. split; [exact Ha|].
  split; [exact Ha'|exact Heq].
Defined.

Lemma index_sign_exact_witness :
  exists ndvi v,
    (calculate_band_indices exact_stack).1 !! "ndvi" = Some ndvi /\
    values ndvi !! 0%nat = Some v /\ (0 < v)%Q.
Proof.
  destruct (index_sign_exact exact_stack _ _ _ _ exact_bands)
    as (dc' & ndvi & ndwi & mndwi & Hrun & Hv & _ & _ & Hat);
    try exact_samples.
  destruct (Hat 0%nat (1 # 2)%Q (1 # 10)%Q (1 # 5)%Q (3 # 10)%Q
              eq_refl eq_refl eq_refl eq_refl)
    as (vv & vw & vm & Hvv & _ & _ & Hsign & _).
  exists ndvi, vv. rewrite Hrun. split; [exact Hv|]. split; [exact Hvv|].
  apply Hsign. lra.
Defined.
